(** * The worker commands of the [ol] admin tool (src/worker/worker.go)

    A shallow embedding of [overrideOpts], [initOLDir], [newOL], [status],
    [up] with its readiness loop, [down] and [cleanup], and the properties
    of these functions.

    Pure code (splitting an option string, walking the configuration tree,
    coercing a value) is embedded as functions.  Code that talks to the
    operating system or to another package is embedded as a program over a
    signature of calls ([call]); [run] executes such a program against an
    arbitrary environment and records the calls it made with their answers. *)

From Stdlib Require Import ZArith String Ascii List DecimalString.
From stdpp Require Import gmap strings list fin_maps.

#[local] Set Warnings "-register-all".
#[local] Open Scope string_scope.
#[local] Open Scope Z_scope.
#[local] Open Scope list_scope.

(* ===================================================================== *)
(** * Go values used by the code                                          *)
(* ===================================================================== *)

(** ** Errors *)

(** The two [Err] values of a [*strconv.NumError]. *)
Inductive num_err : Type :=
  | ErrSyntax   (* "invalid syntax" *)
  | ErrRange.   (* "value out of range" *)

(** A non-nil Go [error].  [Errorf msg] is an error known by its text: the
    result of [fmt.Errorf], or an error handed back by the operating system or
    by another package.  [NumError] is the error of [strconv.Atoi]. *)
Inductive error : Type :=
  | Errorf (msg : string)
  | NumError (fn num : string) (why : num_err).

(** A Go pair [(x, err)] of which exactly one side is meaningful. *)
Inductive result (A : Type) : Type :=
  | Ok (a : A)
  | Error (e : error).
Arguments Ok {A} a.
Arguments Error {A} e.

Definition is_error {A : Type} (r : result A) : bool :=
  match r with Ok _ => false | Error _ => true end.

(** ** Strings *)

Definition tab : string := String "009"%char "".
Definition newline : string := String "010"%char "".
Definition dquote : string := String "034"%char "".

(** [strings.Split(s, sep)] for a separator of one byte, the only kind the
    code uses: the pieces between the occurrences of [sep], one more than
    there are occurrences.  [pieces] gives the first piece and the others, so
    that a caller may take [keys[0]] without a case for the empty slice. *)
Fixpoint pieces (s : string) (sep : ascii) : string * list string :=
  match s with
  | EmptyString => ("", [])
  | String c s' =>
      let (p, ps) := pieces s' sep in
      if Ascii.eqb c sep then ("", p :: ps) else (String c p, ps)
  end.

Definition Split (s : string) (sep : ascii) : list string :=
  let (p, ps) := pieces s sep in p :: ps.

(** [strings.HasPrefix(s, prefix)]. *)
Definition HasPrefix (s pre : string) : bool := String.prefix pre s.

(** [%d] and [%v] of an [int]. *)
Definition itoa (n : Z) : string := NilZero.string_of_int (Z.to_int n).

(** ** strconv.Atoi

    [Atoi(s)] is [ParseInt(s, 10, 0)] with the error renamed (its fast path
    for short strings gives the same answers); [int] has 64 bits. *)

Definition maxUint64 : Z := 2 ^ 64 - 1.
Definition int_cutoff : Z := 2 ^ 63.

Definition digit_of (c : ascii) : option Z :=
  let n := Z.of_N (N_of_ascii c) in
  if (48 <=? n) && (n <=? 57) then Some (n - 48) else None.

(** The loop of [ParseUint] in base 10: a byte that is no digit is a syntax
    error, a value over [maxUint64] a range error, whichever comes first. *)
Fixpoint parse_digits (s : string) (n : Z) : num_err + Z :=
  match s with
  | EmptyString => inr n
  | String c s' =>
      match digit_of c with
      | None => inl ErrSyntax
      | Some d =>
          let n1 := n * 10 + d in
          if maxUint64 <? n1 then inl ErrRange else parse_digits s' n1
      end
  end.

Definition ParseUint (s : string) : num_err + Z :=
  match s with
  | EmptyString => inl ErrSyntax
  | _ => parse_digits s 0
  end.

Definition ParseInt (s : string) : num_err + Z :=
  match s with
  | EmptyString => inl ErrSyntax
  | String c s' =>
      let neg := Ascii.eqb c "-" in
      let digits := if Ascii.eqb c "+" || neg then s' else s in
      match ParseUint digits with
      | inl ErrSyntax => inl ErrSyntax
      | inl ErrRange => inl ErrRange
      | inr un =>
          if negb neg && (int_cutoff <=? un) then inl ErrRange
          else if neg && (int_cutoff <? un) then inl ErrRange
          else inr (if neg then - un else un)
      end
  end.

Definition Atoi (s : string) : result Z :=
  match ParseInt s with
  | inr n => Ok n
  | inl why => Error (NumError "Atoi" s why)
  end.

(** ** Decoded JSON

    What [json.Unmarshal] stores in a [map[string]any], and the one more kind
    of value [overrideOpts] puts there itself: the [int] of [strconv.Atoi].
    A [float64] is kept as its 64 bits; the code never computes with it. *)
Inductive value : Type :=
  | VNull                              (* nil *)
  | VBool (b : bool)                   (* bool *)
  | VFloat (bits : Z)                  (* float64: every JSON number *)
  | VInt (n : Z)                       (* int: stored by an override only *)
  | VString (s : string)               (* string *)
  | VArray (l : list value)            (* []any *)
  | VMap (m : gmap string value).      (* map[string]any *)

(** [%T] of a value. *)
Definition type_name (v : value) : string :=
  match v with
  | VNull => "<nil>"
  | VBool _ => "bool"
  | VFloat _ => "float64"
  | VInt _ => "int"
  | VString _ => "string"
  | VArray _ => "[]interface {}"
  | VMap _ => "map[string]interface {}"
  end.

(** ** Library functions taken as given

    Functions of the Go standard library whose results the code only passes
    on or compares.  The properties below hold for every implementation. *)
Class GoLib : Type := {
  ToLower : string -> string;                      (* strings.ToLower *)
  TrimSpace : string -> string;                    (* strings.TrimSpace *)
  Quote : string -> string;                        (* strconv.Quote *)
  filepath_Join : list string -> string;           (* filepath.Join *)
  filepath_Base : string -> string;                (* filepath.Base *)
  path_Join : list string -> string;               (* path.Join *)
  IsNotExist : option error -> bool;               (* os.IsNotExist *)
  (* json.Unmarshal(b, &conf) into an empty map[string]any *)
  json_Unmarshal : string -> result (gmap string value);
  (* json.MarshalIndent(v, prefix, indent) *)
  json_MarshalIndent : value -> string -> string -> result string;
}.

(** [err.Error()], the text [%s] prints for an error. *)
Definition Error_text `{GoLib} (e : error) : string :=
  match e with
  | Errorf msg => msg
  | NumError fn num why =>
      "strconv." +:+ fn +:+ ": parsing " +:+ Quote num +:+ ": " +:+
      match why with
      | ErrSyntax => "invalid syntax"
      | ErrRange => "value out of range"
      end
  end.

(** [%s] of an [error] variable, which may still be nil. *)
Definition fmt_error `{GoLib} (e : option error) : string :=
  match e with
  | Some e => Error_text e
  | None => "%!s(<nil>)"
  end.

(* ===================================================================== *)
(** * overrideOpts: the pure part                                         *)
(* ===================================================================== *)

Section Override.
Context `{GoLib}.

(** Lines 62-85: the last key of the path, looked up in the map [c] the walk
    ended in, and the switch on the type of the value found there.  The
    source assigns into [c]; the tree decoded from JSON shares no map between
    two places, so the assignment is the insertion below.  (When [Atoi]
    fails the source has stored its zero before it returns the error; the
    tree is dropped with the return.) *)
Definition override_leaf (key val : string) (c : gmap string value)
  : result (gmap string value) :=
  match c !! key with
  | None => Error (Errorf ("invalid option: '" +:+ key +:+ "'"))
  | Some prev =>
      match prev with
      | VString _ => Ok (<[key := VString val]> c)
      | VFloat _ =>
          match Atoi val with
          | Ok n => Ok (<[key := VInt n]> c)
          | Error e => Error e
          end
      | VBool _ =>
          if String.eqb (ToLower val) "true" then Ok (<[key := VBool true]> c)
          else if String.eqb (ToLower val) "false" then Ok (<[key := VBool false]> c)
          else Error (Errorf ("'" +:+ val +:+ "' for " +:+ key +:+
                              " not a valid boolean value"))
      | _ =>
          Error (Errorf ("config values of type " +:+ type_name prev +:+ " (" +:+
                         key +:+ ") must be edited manually in the config file "))
      end
  end.

(** Lines 48-60 followed by the leaf: [key] is [keys[i]], [rest] what follows
    it.  While keys follow, [c[key]] must be a map and the walk goes on in
    it; the map changed below is put back where it was found, which is what
    the source gets by changing it in place. *)
Fixpoint override_at (key : string) (rest : list string) (val : string)
    (c : gmap string value) : result (gmap string value) :=
  match rest with
  | [] => override_leaf key val c
  | key' :: rest' =>
      match c !! key with
      | None => Error (Errorf ("key '" +:+ key +:+ "' not found"))
      | Some (VMap v) =>
          match override_at key' rest' val v with
          | Ok v' => Ok (<[key := VMap v']> c)
          | Error e => Error e
          end
      | Some sub =>
          Error (Errorf (key +:+ " refers to a " +:+ type_name sub +:+ ", not a map"))
      end
  end.

(** Lines 41-85: the body of the loop over the options.  [keys] is
    [key :: rest]: [strings.Split] returns at least one piece. *)
Definition apply_opt (opt : string) (conf : gmap string value)
  : result (gmap string value) :=
  match Split opt "=" with
  | [keystr; val] =>
      let (key, rest) := pieces keystr "." in
      override_at key rest val conf
  | _ => Error (Errorf ("Could not parse key=val: '" +:+ opt +:+ "'"))
  end.

(** Lines 40-86: the loop, left by the first error. *)
Fixpoint apply_opts (opts : list string) (conf : gmap string value)
  : result (gmap string value) :=
  match opts with
  | [] => Ok conf
  | opt :: opts' =>
      match apply_opt opt conf with
      | Ok conf' => apply_opts opts' conf'
      | Error e => Error e
      end
  end.

End Override.

(* ===================================================================== *)
(** * Calls to the operating system and to other packages                 *)
(* ===================================================================== *)

(** The flags of a [*cli.Context] that the commands read:
    [ctx.String("path")], [ctx.String("image")], [ctx.String("options")] and
    [ctx.Bool("detach")]. *)
Record Context : Type := {
  flag_path : string;
  flag_image : string;
  flag_options : string;
  flag_detach : bool;
}.

(** The fields of [common.Conf] that the commands read. *)
Record Config : Type := {
  Worker_port : string;
  Worker_dir : string;
  Registry : string;
  SOCK_base_path : string;
}.

Definition perm_0644 : Z := 6 * 64 + 4 * 8 + 4.
Definition perm_0700 : Z := 7 * 64.
Definition ModeAppend : Z := 2 ^ 30.        (* os.ModeAppend *)
Definition MNT_DETACH : Z := 2.             (* syscall.MNT_DETACH *)
Definition CLONE_NEWNS : Z := 131072.       (* syscall.CLONE_NEWNS, 0x20000 *)
Definition SIGINT : Z := 2.                 (* syscall.SIGINT *)
Definition Millisecond : Z := 1.            (* durations are counted in ms *)

(** What the code asks of its environment.  Processes, open files, response
    bodies and the Docker client are known by a number. *)
Inductive call : Type :=
  (* package common; [common.Conf] lives in the environment, and the two
     calls that set it answer with the configuration it then holds *)
  | GetOlPath (ctx : Context)
  | LoadDefaults (olPath : string)
  | LoadConf (path : string)
  | SaveConf (path : string)
  | DumpConfStr
  (* docker, dutil, server *)
  | NewClientFromEnv
  | DumpDockerImage (client : Z) (image base : string)
  | ServerMain
  (* os, ioutil, syscall *)
  | ReadFile (path : string)
  | WriteFile (path data : string) (perm : Z)
  | ReadDir (path : string)                 (* the names, as file.Name() *)
  | Mkdir (path : string) (perm : Z)
  | Stat (path : string)
  | Create (path : string)
  | Remove (path : string)
  | Rmdir (path : string)
  | Unmount (path : string) (flags : Z)
  | Args                                    (* os.Args[0] and os.Args[1:] *)
  | FindProcess (pid : Z)                   (* the err; p is nil with it *)
  | StartProcess (name : string) (argv : list string)
                 (files : list (option Z)) (unshareflags : Z)
  | Signal (pid : Z) (sig : Z)
  | GoWait (pid : Z)                        (* go func: proc.Wait(); died <- err *)
  | RecvDied                                (* select on died, with default *)
  (* os/exec *)
  | Command (name : string) (args : list string)   (* exec.Command(..).Run() *)
  | LookPath (file : string)
  (* net/http *)
  | HttpGet (url : string)
  | ReadAll (body : Z)
  | BodyClose (body : Z)
  (* fmt, time *)
  | Printf (text : string)
  | Sleep (ms : Z).

(** What comes back. *)
Definition answer (c : call) : Type :=
  match c with
  | GetOlPath _ | ReadFile _ | LookPath _ => result string
  | LoadDefaults _ | LoadConf _ => result Config
  | ReadDir _ => result (list string)
  | NewClientFromEnv | Create _ | StartProcess _ _ _ _ | HttpGet _ => result Z
  | DumpConfStr => string
  | Args => string * list string
  | ReadAll _ => string * option error
  | RecvDied => option (option error)     (* nothing yet, or the sent err *)
  | GoWait _ | BodyClose _ | Printf _ | Sleep _ => unit
  | SaveConf _ | DumpDockerImage _ _ _ | ServerMain | WriteFile _ _ _
  | Mkdir _ _ | Stat _ | Remove _ | Rmdir _ | Unmount _ _ | FindProcess _
  | Signal _ _ | Command _ _ => option error
  end.

(** A program: a result, or a call and what to do with its answer. *)
Inductive prog (R : Type) : Type :=
  | Ret (r : R)
  | Vis (c : call) (k : answer c -> prog R).
Arguments Ret {R} r.
Arguments Vis {R} c k.

Definition do (c : call) : prog (answer c) := Vis c Ret.

Fixpoint bind {A B : Type} (p : prog A) (k : A -> prog B) : prog B :=
  match p with
  | Ret a => k a
  | Vis c h => Vis c (fun x => bind (h x) k)
  end.

(** How a function returns a non-nil error. *)
Class Returns (R : Type) : Type := ret_err : error -> R.
#[export] Instance returns_error : Returns (option error) := Some.

Declare Scope prog_scope.
Delimit Scope prog_scope with prog.
Notation "x <- p ;; q" := (bind p (fun x => q))
  (at level 100, p at next level, right associativity) : prog_scope.
Notation "p ;; q" := (bind p (fun _ => q))
  (at level 100, right associativity) : prog_scope.
(** [if err := c; err != nil { return err }] *)
Notation "'check' c ;; q" :=
  (bind (do c) (fun err => match err with
                           | Some e => Ret (ret_err e)
                           | None => q
                           end))
  (at level 100, c at next level, right associativity) : prog_scope.
(** [x, err := c; if err != nil { return err }] *)
Notation "x <-? c ;; q" :=
  (bind (do c) (fun r => match r with
                         | Error e => Ret (ret_err e)
                         | Ok x => q
                         end))
  (at level 100, c at next level, right associativity) : prog_scope.

(** [if err != nil { fmt.Printf(..., err.Error()) }] *)
Definition report (err : option error) (text : error -> string) : prog unit :=
  match err with
  | Some e => do (Printf (text e))
  | None => Ret tt
  end.

(** ** Running a program

    The environment is a state [W] and a function [os] that answers a call
    and moves the state; nothing is assumed of either.  [run] gives the
    result, the last state and the calls made, each with its answer. *)
Inductive event : Type := Ev (c : call) (a : answer c).

Definition ev_call (e : event) : call := let 'Ev c _ := e in c.

Section Run.
Context {W : Type} (os : forall c : call, W -> answer c * W).

Fixpoint run {R : Type} (p : prog R) (w : W) : R * W * list event :=
  match p with
  | Ret r => (r, w, [])
  | Vis c k =>
      let (a, w1) := os c w in
      let '(r, w2, tr) := run (k a) w1 in
      (r, w2, Ev c a :: tr)
  end.

Definition result_of {R : Type} (p : prog R) (w : W) : R := (run p w).1.1.
Definition trace_of {R : Type} (p : prog R) (w : W) : list event := (run p w).2.

End Run.

(** A pure [x, err := e; if err != nil { return err }]. *)
Notation "x <-! r ;; q" :=
  (match r with
   | Error e => Ret (ret_err e)
   | Ok x => q
   end)
  (at level 100, r at next level, right associativity) : prog_scope.

(* ===================================================================== *)
(** * The commands                                                        *)
(* ===================================================================== *)

Section Commands.
Context `{GoLib}.
#[local] Open Scope prog_scope.

(** ** overrideOpts (lines 29-97) *)
Definition overrideOpts (confPath overridePath optsStr : string)
  : prog (option error) :=
  b <-? ReadFile confPath ;;
  conf <-! json_Unmarshal b ;;
  conf' <-! apply_opts (Split optsStr ",") conf ;;
  (* save back config *)
  s <-! json_MarshalIndent (VMap conf') "" tab ;;
  check WriteFile overridePath s perm_0644 ;;
  Ret None.

(** ** initOLDir (lines 99-180) *)
Definition initOLDir (olPath dockerBaseImage : string) : prog (option error) :=
  let dockerBaseImage :=
    if String.eqb dockerBaseImage "" then "ol-wasm" else dockerBaseImage in
  do (Printf ("Init OL dir at " +:+ olPath +:+ ", using Docker image " +:+
              dockerBaseImage +:+ " as base" +:+ newline)) ;;
  check Mkdir olPath perm_0700 ;;
  Conf <-? LoadDefaults olPath ;;
  let confPath := filepath_Join [olPath; "config.json"] in
  check SaveConf confPath ;;
  check Mkdir (Worker_dir Conf) perm_0700 ;;
  check Mkdir (Registry Conf) perm_0700 ;;
  (* create a base directory to run sock handlers *)
  dockerClient <-? NewClientFromEnv ;;
  let base := SOCK_base_path Conf in
  do (Printf ("Creating lambda base at " +:+ base +:+
              " (may take several minutes)" +:+ newline)) ;;
  check DumpDockerImage dockerClient dockerBaseImage base ;;
  check Mkdir (path_Join [base; "handler"]) perm_0700 ;;
  check Mkdir (path_Join [base; "host"]) perm_0700 ;;
  check Mkdir (path_Join [base; "packages"]) perm_0700 ;;
  (* need this because Docker containers don't have a dns server *)
  let dnsPath := filepath_Join [base; "etc"; "resolv.conf"] in
  check WriteFile dnsPath ("nameserver 8.8.8.8" +:+ newline) perm_0644 ;;
  let path := filepath_Join [base; "dev"; "null"] in
  check Command "mknod" ["-m"; "0644"; path; "c"; "1"; "3"] ;;
  let path := filepath_Join [base; "dev"; "random"] in
  check Command "mknod" ["-m"; "0644"; path; "c"; "1"; "8"] ;;
  let path := filepath_Join [base; "dev"; "urandom"] in
  check Command "mknod" ["-m"; "0644"; path; "c"; "1"; "9"] ;;
  do (Printf ("Working Directory: " +:+ olPath +:+ newline +:+ newline)) ;;
  dump <- do DumpConfStr ;;
  do (Printf ("Worker Defaults: " +:+ newline +:+ dump +:+ newline +:+ newline)) ;;
  do (Printf ("You may modify the defaults here: " +:+ confPath +:+
              newline +:+ newline)) ;;
  do (Printf ("You may now start a server using the " +:+ dquote +:+
              "ol worker" +:+ dquote +:+ " command" +:+ newline)) ;;
  Ret None.

(** ** up (lines 226-359) *)

(** Lines 309-351, the loop that waits for the worker: [n] is the number of
    rounds left, [300 - i]; [pid] is [proc.Pid], [port] is
    [common.Conf.Worker_port].  The deferred [response.Body.Close()] runs
    when [up] returns. *)
Fixpoint up_wait (n : nat) (pid : Z) (port : string) (pingErr : option error)
  : prog (option error) :=
  match n with
  | O =>
      Ret (Some (Errorf ("worker still not reachable after 30 seconds :: " +:+
                         fmt_error pingErr)))
  | S n' =>
      (* check if it has died *)
      d <- do RecvDied ;;
      match d with
      | Some (Some err) => Ret (Some err)
      | Some None =>
          Ret (Some (Errorf ("worker process " +:+ itoa pid +:+
                 " does not a appear to be running, check worker.out")))
      | None =>
          (* is the worker still alive? *)
          do (Signal pid 0) ;;
          (* is it reachable? *)
          let url := "http://localhost:" +:+ port +:+ "/pid" in
          r <- do (HttpGet url) ;;
          match r with
          | Error err =>
              do (Sleep (100 * Millisecond)) ;;
              up_wait n' pid port (Some err)
          | Ok response =>
              (* are we talking with the expected PID? *)
              read <- do (ReadAll response) ;;
              match Atoi (TrimSpace read.1) with
              | Error err =>
                  do (BodyClose response) ;;
                  Ret (Some (Errorf ("/pid did not return an int :: " +:+
                                     Error_text err)))
              | Ok p =>
                  if p =? pid then
                    do (Printf ("ready" +:+ newline)) ;;
                    do (BodyClose response) ;;
                    Ret None  (* server is started and ready for requests *)
                  else
                    do (BodyClose response) ;;
                    Ret (Some (Errorf ("expected PID " +:+ itoa pid +:+
                           " but found " +:+ itoa p +:+ " (port conflict?)")))
              end
          end
      end
  end.

(** [%s] of a [[]string]. *)
Definition fmt_strings (l : list string) : string :=
  "[" +:+ String.concat " " l +:+ "]".

Definition up (ctx : Context) : prog (option error) :=
  (* get path of worker files *)
  olPath <-? GetOlPath ctx ;;
  (* if `./ol new` not previously run, do that init now *)
  st <- do (Stat olPath) ;;
  err <- (if IsNotExist st then
            do (Printf ("No OL directory found at " +:+ olPath +:+ newline)) ;;
            initOLDir olPath (flag_image ctx)
          else
            do (Printf ("using existing OL directory at " +:+ olPath +:+
                        newline)) ;;
            Ret None) ;;
  match err with
  | Some e => Ret (Some e)
  | None =>
  let confPath := filepath_Join [olPath; "config.json"] in
  let overrides := flag_options ctx in
  r <- (if String.eqb overrides "" then Ret (Ok confPath)
        else
          let overridesPath := confPath +:+ ".overrides" in
          err <- overrideOpts confPath overridesPath overrides ;;
          match err with
          | Some e => Ret (Error e)
          | None => Ret (Ok overridesPath)
          end) ;;
  confPath <-! r ;;
  Conf <-? LoadConf confPath ;;
  (* should we run as a background process? *)
  if flag_detach ctx then
    (* stdout+stderr both go to log *)
    let logPath := filepath_Join [olPath; "worker.out"] in
    f <-? Create logPath ;;
    args <- do Args ;;
    let cmd := List.filter (fun arg => negb (String.eqb arg "-d") &&
                                  negb (String.eqb arg "--detach"))
                      (args.1 :: args.2) in
    (* looks for ./ol path *)
    binPath <-? LookPath args.1 ;;
    (* start the worker process *)
    do (Printf ("starting process: binpath= " +:+ binPath +:+ ", cmd=" +:+
                fmt_strings cmd +:+ newline)) ;;
    proc <-? StartProcess binPath cmd [None; Some f; Some f] CLONE_NEWNS ;;
    do (GoWait proc) ;;
    do (Printf ("Starting worker: pid=" +:+ itoa proc +:+ ", port=" +:+
                Worker_port Conf +:+ ", log=" +:+ logPath +:+ newline)) ;;
    up_wait 300 proc (Worker_port Conf) None
  else
    check ServerMain ;;
    Ret (Some (Errorf "this code should not be reachable"))
  end.

(** ** down (lines 362-404) *)

(** How [down] ends: it returns, or it runs into a nil pointer. *)
Inductive outcome : Type :=
  | Return (err : option error)
  | Panic.
#[export] Instance returns_outcome : Returns outcome :=
  fun e => Return (Some e).

(** Lines 394-403: [n] is the number of rounds left. *)
Fixpoint down_wait (n : nat) (pid : Z) : prog (option error) :=
  match n with
  | O => Ret (Some (Errorf "worker didn't stop after 30s"))
  | S n' =>
      err <- do (Signal pid 0) ;;
      match err with
      | Some _ =>
          do (Printf ("OL worker process stopped successfully" +:+ newline)) ;;
          Ret None  (* good, process must have stopped *)
      | None =>
          do (Sleep (100 * Millisecond)) ;;
          down_wait n' pid
      end
  end.

Definition down (ctx : Context) : prog outcome :=
  olPath <-? GetOlPath ctx ;;
  (* locate worker.pid, use it to get worker's PID *)
  let configPath := filepath_Join [olPath; "config.json"] in
  Conf <-? LoadConf configPath ;;
  data <-? ReadFile (filepath_Join [Worker_dir Conf; "worker.pid"]) ;;
  pid <-! Atoi data ;;
  do (Printf ("Killing worker process with PID " +:+ itoa pid +:+ newline)) ;;
  err <- do (FindProcess pid) ;;
  match err with
  | Some e =>
      do (Printf (Error_text e +:+ newline)) ;;
      do (Printf ("Failed to find worker process with PID " +:+ itoa pid +:+
                  ".  May require manual cleanup." +:+ newline)) ;;
      Ret Panic  (* p is nil, and p.Signal reads its fields *)
  | None =>
      err <- do (Signal pid SIGINT) ;;
      match err with
      | Some e =>
          do (Printf (Error_text e +:+ newline)) ;;
          do (Printf ("Failed to kill process with PID " +:+ itoa pid +:+
                      ".  May require manual cleanup." +:+ newline))
      | None => Ret tt
      end ;;
      r <- down_wait 300 pid ;;
      Ret (Return r)
  end.

(** ** cleanup (lines 407-467) *)

(** Lines 424-432. *)
Fixpoint remove_cgroups (cgRoot : string) (files : list string) : prog unit :=
  match files with
  | [] => Ret tt
  | name :: files' =>
      (if HasPrefix name "cg-" then
         let cg := filepath_Join [cgRoot; name] in
         do (Printf ("try removing " +:+ cg +:+ newline)) ;;
         err <- do (Rmdir cg) ;;
         report err (fun e => "could remove cgroup: " +:+ Error_text e +:+ newline)
       else Ret tt) ;;
      remove_cgroups cgRoot files'
  end.

(** Lines 445-455. *)
Fixpoint unmount_all (dirName : string) (files : list string) : prog unit :=
  match files with
  | [] => Ret tt
  | name :: files' =>
      let path := filepath_Join [dirName; name] in
      do (Printf ("try unmounting " +:+ path +:+ newline)) ;;
      err <- do (Unmount path MNT_DETACH) ;;
      report err (fun e => "could not unmount: " +:+ Error_text e +:+ newline) ;;
      err <- do (Rmdir path) ;;
      report err (fun e => "could remove mount dir: " +:+ Error_text e +:+ newline) ;;
      unmount_all dirName files'
  end.

(** Lines 416-437: the cgroups below [cgRoot]. *)
Definition cleanup_cgroups (cgRoot : string) : prog unit :=
  listing <- do (ReadDir cgRoot) ;;
  match listing with
  | Error err =>
      do (Printf ("could not find cgroup root: " +:+ Error_text err +:+ newline))
  | Ok files =>
      let kill := filepath_Join [cgRoot; "cgroup.kill"] in
      err <- do (WriteFile kill (itoa 1) ModeAppend) ;;
      report err (fun e => "could kill processes in cgroup: " +:+
                           Error_text e +:+ newline) ;;
      remove_cgroups cgRoot files ;;
      err <- do (Rmdir cgRoot) ;;
      report err (fun e => "could remove cgroup root: " +:+
                           Error_text e +:+ newline)
  end.

(** Lines 442-456: the mounts below [dirName]. *)
Definition cleanup_mounts (dirName : string) : prog unit :=
  listing <- do (ReadDir dirName) ;;
  match listing with
  | Error err =>
      do (Printf ("could not find mount root: " +:+ Error_text err +:+ newline))
  | Ok files => unmount_all dirName files
  end.

Definition cleanup (ctx : Context) : prog (option error) :=
  olPath <-? GetOlPath ctx ;;
  let cgRoot := filepath_Join ["/sys"; "fs"; "cgroup";
                               filepath_Base olPath +:+ "-sandboxes"] in
  do (Printf ("ATTEMPT to cleanup cgroups at " +:+ cgRoot +:+ newline)) ;;
  cleanup_cgroups cgRoot ;;
  let dirName := filepath_Join [olPath; "worker"; "root-sandboxes"] in
  do (Printf ("ATTEMPT to cleanup mounts at " +:+ dirName +:+ newline)) ;;
  cleanup_mounts dirName ;;
  err <- do (Unmount dirName MNT_DETACH) ;;
  report err (fun e => "could not unmount " +:+ dirName +:+ ": " +:+
                       Error_text e +:+ newline) ;;
  err <- do (Remove (filepath_Join [olPath; "worker"; "worker.pid"])) ;;
  report err (fun e => "could not remove worker.pid: " +:+
                       Error_text e +:+ newline) ;;
  Ret None.

End Commands.

(* ===================================================================== *)
(** * The other commands                                                  *)
(* ===================================================================== *)

Section Others.
Context `{GoLib}.
#[local] Open Scope prog_scope.

(** ** newOL (lines 183-190) *)

Definition newOL (ctx : Context) : prog (option error) :=
  olPath <-? GetOlPath ctx ;;
  initOLDir olPath (flag_image ctx).

(** ** status (lines 193-219)

    [response_Status] is the field [Status] of a response: the status line
    of the answer, as [200 OK]. *)
Context (response_Status : Z -> string).

Definition status (ctx : Context) : prog (option error) :=
  olPath <-? GetOlPath ctx ;;
  do (Printf ("Worker Ping:" +:+ newline)) ;;
  Conf <-? LoadConf (filepath_Join [olPath; "config.json"]) ;;
  let url := "http://localhost:" +:+ Worker_port Conf +:+ "/status" in
  r <- do (HttpGet url) ;;
  match r with
  | Error _ => Ret (Some (Errorf ("could not send GET to " +:+ url)))
  | Ok response =>
      (* defer response.Body.Close() *)
      read <- do (ReadAll response) ;;
      match read.2 with
      | Some _ =>
          do (BodyClose response) ;;
          Ret (Some (Errorf ("failed to read body from GET to " +:+ url)))
      | None =>
          do (Printf ("  " +:+ url +:+ " => " +:+ read.1 +:+ " [" +:+
                      response_Status response +:+ "]" +:+ newline)) ;;
          do (Printf newline) ;;
          do (BodyClose response) ;;
          Ret None
      end
  end.

End Others.

(* ===================================================================== *)
(** * Notions used to state the properties                                *)
(* ===================================================================== *)

(** ** Configuration trees *)

(** The value a dotted key [key.rest] leads to: every key but the last must
    name a map. *)
Fixpoint lookup_path (key : string) (rest : list string)
    (c : gmap string value) : option value :=
  match rest with
  | [] => c !! key
  | key' :: rest' =>
      match c !! key with
      | Some (VMap m) => lookup_path key' rest' m
      | _ => None
      end
  end.

(** The tree with the value at [key.rest] replaced by [v]. *)
Fixpoint replace_at (key : string) (rest : list string) (v : value)
    (c : gmap string value) : gmap string value :=
  match rest with
  | [] => <[key := v]> c
  | key' :: rest' =>
      match c !! key with
      | Some (VMap m) => <[key := VMap (replace_at key' rest' v m)]> c
      | _ => c
      end
  end.

(** The three ways in which a dotted key does not resolve. *)
Inductive unresolved : string -> list string -> gmap string value -> Prop :=
  | missing_leaf key c :
      c !! key = None ->
      unresolved key [] c
  | missing_intermediate key key' rest c :
      c !! key = None ->
      unresolved key (key' :: rest) c
  | intermediate_not_a_map key key' rest c v :
      c !! key = Some v ->
      (forall m, v <> VMap m) ->
      unresolved key (key' :: rest) c
  | unresolved_below key key' rest c m :
      c !! key = Some (VMap m) ->
      unresolved key' rest m ->
      unresolved key (key' :: rest) c.

(** The categories of the configuration's values. *)
Inductive category : Type := CatString | CatNumber | CatBool | CatOther.

Definition category_of (v : value) : category :=
  match v with
  | VString _ => CatString
  | VFloat _ | VInt _ => CatNumber
  | VBool _ => CatBool
  | VNull | VArray _ | VMap _ => CatOther
  end.

(** The value an override text stands for at a leaf of a given category;
    [None] where the override is refused. *)
Definition coerce `{GoLib} (cat : category) (val : string) : option value :=
  match cat with
  | CatString => Some (VString val)
  | CatNumber =>
      match Atoi val with
      | Ok n => Some (VInt n)
      | Error _ => None
      end
  | CatBool =>
      if String.eqb (ToLower val) "true" then Some (VBool true)
      else if String.eqb (ToLower val) "false" then Some (VBool false)
      else None
  | CatOther => None
  end.

(** ** Traces *)

(** The calls of a trace other than [fmt.Printf]. *)
Definition is_print (c : call) : bool :=
  match c with Printf _ => true | _ => false end.

Definition effects (tr : list event) : list call :=
  List.filter (fun c => negb (is_print c)) (map ev_call tr).

(** Does this call write the regular file [path]. *)
Definition writes_file (path : string) (c : call) : bool :=
  match c with
  | WriteFile p _ _ => String.eqb p path
  | _ => false
  end.

(** The answer of an [http.Get], of an [ioutil.ReadAll]. *)
Definition http_answer (e : event) : option (result Z) :=
  match e with
  | Ev (HttpGet _) a => Some a
  | _ => None
  end.

Definition read_answer (e : event) : option (string * option error) :=
  match e with
  | Ev (ReadAll _) a => Some a
  | _ => None
  end.

(** The error of an [http.Get] that failed. *)
Definition http_failure (e : event) : option error :=
  match http_answer e with
  | Some (Error err) => Some err
  | _ => None
  end.

(** The errors of the failed [http.Get]s of a trace, in order. *)
Definition ping_errors (tr : list event) : list error := omap http_failure tr.

(** The rounds of the readiness loop a trace holds: each round starts by
    looking at the [died] channel. *)
Definition is_died_check (c : call) : bool :=
  match c with RecvDied => true | _ => false end.

Definition attempts (tr : list event) : nat :=
  length (List.filter is_died_check (map ev_call tr)).

Definition is_sleep (c : call) : bool :=
  match c with Sleep _ => true | _ => false end.

(** A round of the readiness loop in which the worker is not reported dead
    and the connection fails with [err]: it ends in a sleep of 100ms. *)
Definition failed_round (pid : Z) (port : string)
    (round : option error * error) : list event :=
  [Ev RecvDied None;
   Ev (Signal pid 0) round.1;
   Ev (HttpGet ("http://localhost:" +:+ port +:+ "/pid")) (Error round.2);
   Ev (Sleep (100 * Millisecond)) tt].

Definition rounds (pid : Z) (port : string)
    (fails : list (option error * error)) : list event :=
  flat_map (failed_round pid port) fails.

(** The error [pingErr] holds after such rounds. *)
Definition last_ping (fails : list (option error * error))
    (pingErr : option error) : option error :=
  List.last (map (fun round => Some round.2) fails) pingErr.

(** The round that ends the loop before its rounds are over: the worker is
    reported dead, or the connection is made and the answer read, and the
    body closed, after [ready] is printed when the answer is the PID. *)
Inductive closing_round (pid : Z) (port : string) : list event -> Prop :=
  | round_died d :
      closing_round pid port [Ev RecvDied (Some d)]
  | round_answered a resp rd :
      closing_round pid port
        [Ev RecvDied None; Ev (Signal pid 0) a;
         Ev (HttpGet ("http://localhost:" +:+ port +:+ "/pid")) (Ok resp);
         Ev (ReadAll resp) rd; Ev (BodyClose resp) tt]
  | round_ready a resp rd :
      closing_round pid port
        [Ev RecvDied None; Ev (Signal pid 0) a;
         Ev (HttpGet ("http://localhost:" +:+ port +:+ "/pid")) (Ok resp);
         Ev (ReadAll resp) rd; Ev (Printf ("ready" +:+ newline)) tt;
         Ev (BodyClose resp) tt].

(** The requests of a trace. *)
Definition is_get (c : call) : bool :=
  match c with HttpGet _ => true | _ => false end.

Definition requests (tr : list event) : nat :=
  length (List.filter is_get (map ev_call tr)).

(** A zero-signal probe that found the process alive. *)
Definition probe_alive (e : event) : bool :=
  match e with
  | Ev (Signal _ sig) None => sig =? 0
  | _ => false
  end.

(** Does [text] hold [word] somewhere. *)
Definition mentions (text word : string) : bool :=
  match String.index 0 word text with
  | Some _ => true
  | None => false
  end.

(** A step of force-cleanup that failed: a listing, the kill, a removal or
    an unmount that answered with an error. *)
Definition is_err (err : option error) : bool :=
  match err with Some _ => true | None => false end.

Definition step_failed (e : event) : bool :=
  match e with
  | Ev (ReadDir _) a => is_error a
  | Ev (WriteFile _ _ _) a => is_err a
  | Ev (Rmdir _) a => is_err a
  | Ev (Unmount _ _) a => is_err a
  | Ev (Remove _) a => is_err a
  | _ => false
  end.

(** Every failed step of the trace is followed at once by a [fmt.Printf];
    [pending] says that the call before the trace was a failed step. *)
Fixpoint reported_from (pending : bool) (tr : list event) : bool :=
  match tr with
  | [] => negb pending
  | e :: tr' =>
      (if pending then is_print (ev_call e) else true) &&
      reported_from (step_failed e) tr'
  end.

Definition failures_reported (tr : list event) : bool := reported_from false tr.

(** The error of an [exec.Command(..).Run()] that failed. *)
Definition failed_command (e : event) : option error :=
  match e with
  | Ev (Command _ _) (Some err) => Some err
  | _ => None
  end.

(** The commands of a trace that ran without error, with their arguments. *)
Definition commands_run (tr : list event) : list (string * list string) :=
  omap (fun e => match e with
                 | Ev (Command name args) None => Some (name, args)
                 | _ => None
                 end) tr.

(** ** The steps of force-cleanup *)

Section Steps.
Context `{GoLib}.

Definition cgroup_root (olPath : string) : string :=
  filepath_Join ["/sys"; "fs"; "cgroup"; filepath_Base olPath +:+ "-sandboxes"].

Definition mount_root (olPath : string) : string :=
  filepath_Join [olPath; "worker"; "root-sandboxes"].

(** What the cgroup phase does once the root has been listed. *)
Definition cgroup_steps (cgRoot : string) (listing : result (list string))
  : list call :=
  match listing with
  | Error _ => []
  | Ok files =>
      WriteFile (filepath_Join [cgRoot; "cgroup.kill"]) "1" ModeAppend ::
      map (fun name => Rmdir (filepath_Join [cgRoot; name]))
          (List.filter (fun name => HasPrefix name "cg-") files) ++
      [Rmdir cgRoot]
  end.

(** What the mount phase does with the entries of the listed directory. *)
Definition mount_steps (dirName : string) (listing : result (list string))
  : list call :=
  match listing with
  | Error _ => []
  | Ok files =>
      flat_map (fun name =>
                  [Unmount (filepath_Join [dirName; name]) MNT_DETACH;
                   Rmdir (filepath_Join [dirName; name])]) files
  end.

(** The last two steps, whatever came before. *)
Definition final_steps (olPath : string) : list call :=
  [Unmount (mount_root olPath) MNT_DETACH;
   Remove (filepath_Join [olPath; "worker"; "worker.pid"])].

(** All steps, given the answers of the two listings. *)
Definition cleanup_steps (ctx : Context) (olPath : string)
    (cgroups mounts : result (list string)) : list call :=
  [GetOlPath ctx; ReadDir (cgroup_root olPath)] ++
  cgroup_steps (cgroup_root olPath) cgroups ++
  [ReadDir (mount_root olPath)] ++
  mount_steps (mount_root olPath) mounts ++
  final_steps olPath.

(** The three device nodes of the base image at [base]. *)
Definition mknod_null (base : string) : string * list string :=
  ("mknod", ["-m"; "0644"; filepath_Join [base; "dev"; "null"]; "c"; "1"; "3"]).
Definition mknod_random (base : string) : string * list string :=
  ("mknod", ["-m"; "0644"; filepath_Join [base; "dev"; "random"]; "c"; "1"; "8"]).
Definition mknod_urandom (base : string) : string * list string :=
  ("mknod", ["-m"; "0644"; filepath_Join [base; "dev"; "urandom"]; "c"; "1"; "9"]).

End Steps.

(** ** The diagnostics of force-cleanup *)

(** The error of a step of force-cleanup that failed. *)
Definition step_error (e : event) : option error :=
  match e with
  | Ev (ReadDir _) (Error err) => Some err
  | Ev (WriteFile _ _ _) a => a
  | Ev (Rmdir _) a => a
  | Ev (Unmount _ _) a => a
  | Ev (Remove _) a => a
  | _ => None
  end.

Section Diagnostics.
Context `{GoLib}.

(** What is printed of a step that failed with [e]: the words of the step
    and the text of the error, on a line. *)
Definition diagnostic (words : string) (e : error) : string :=
  words +:+ Error_text e +:+ newline.

(** [words] are the words of the diagnostics of the steps of a trace, one
    for each call that is no [fmt.Printf], in order.  The trace is
    diagnosed when each step that failed is followed at once by the
    [fmt.Printf] of its diagnostic, with the text of its error; [pending]
    is the diagnostic that is due first. *)
Fixpoint diagnosed (words : list string) (pending : option string)
    (tr : list event) : Prop :=
  match tr with
  | [] => pending = None /\ words = []
  | e :: tr' =>
      match pending with
      | Some text => e = Ev (Printf text) tt /\ diagnosed words None tr'
      | None =>
          if is_print (ev_call e) then diagnosed words None tr'
          else
            match words with
            | [] => False
            | w :: words' =>
                diagnosed words' (option_map (diagnostic w) (step_error e)) tr'
            end
      end
  end.

(** The words for the steps of the cgroup phase (lines 418-436), of the
    mount phase (lines 445-454) and of all steps after [GetOlPath] (lines
    415-464), as [cgroup_steps], [mount_steps] and [cleanup_steps] list
    them. *)
Definition cgroup_words (listing : result (list string)) : list string :=
  match listing with
  | Error _ => []
  | Ok files =>
      "could kill processes in cgroup: " ::
      map (fun _ => "could remove cgroup: ")
          (List.filter (fun name => HasPrefix name "cg-") files) ++
      ["could remove cgroup root: "]
  end.

Definition mount_words (listing : result (list string)) : list string :=
  match listing with
  | Error _ => []
  | Ok files =>
      flat_map (fun _ => ["could not unmount: "; "could remove mount dir: "]) files
  end.

Definition cleanup_words (olPath : string)
    (cgroups mounts : result (list string)) : list string :=
  ["could not find cgroup root: "] ++
  cgroup_words cgroups ++
  ["could not find mount root: "] ++
  mount_words mounts ++
  ["could not unmount " +:+ mount_root olPath +:+ ": ";
   "could not remove worker.pid: "].

End Diagnostics.

(** ** The run of overrideOpts *)

Section LoopRun.
Context `{GoLib} {W : Type} (os : forall c : call, W -> answer c * W).


End LoopRun.

(* ===================================================================== *)
(** * A small environment to run the commands in                          *)
(* ===================================================================== *)

Module Demo.

(** ** The library, for ASCII text and the sample files *)

Definition lower (c : ascii) : ascii :=
  let n := N_of_ascii c in
  if ((65 <=? n) && (n <=? 90))%N then ascii_of_N (n + 32) else c.

Fixpoint to_lower (s : string) : string :=
  match s with
  | EmptyString => EmptyString
  | String c s' => String (lower c) (to_lower s')
  end.

Definition is_space (c : ascii) : bool :=
  let n := N_of_ascii c in ((9 <=? n) && (n <=? 13) || (n =? 32))%N.

Fixpoint trim_left (s : string) : string :=
  match s with
  | String c s' => if is_space c then trim_left s' else s
  | EmptyString => EmptyString
  end.

Fixpoint trim_right (s : string) : string :=
  match s with
  | EmptyString => EmptyString
  | String c s' =>
      match trim_right s' with
      | EmptyString => if is_space c then EmptyString else String c EmptyString
      | t => String c t
      end
  end.

Definition join (elems : list string) : string :=
  String.concat "/" (List.filter (fun e => negb (String.eqb e "")) elems).

Definition base (path : string) : string :=
  List.last (Split path "/") "".

(** The layout of [json.MarshalIndent]: one member or element a line, the
    members of an object in the order of their keys. *)
Fixpoint insert_member (kv : string * string) (l : list (string * string))
  : list (string * string) :=
  match l with
  | [] => [kv]
  | kv' :: l' =>
      if String.leb kv.1 kv'.1 then kv :: l else kv' :: insert_member kv l'
  end.

(** The sample files hold the numbers 0, 1 and 10 only. *)
Definition float_text (bits : Z) : string :=
  if bits =? 0x3FF0000000000000 then "1"
  else if bits =? 0x4024000000000000 then "10"
  else "0".

Fixpoint marshal (indent nl : string) (v : value) : string :=
  let nl' := nl +:+ indent in
  match v with
  | VNull => "null"
  | VBool b => if b then "true" else "false"
  | VFloat bits => float_text bits
  | VInt n => itoa n
  | VString s => dquote +:+ s +:+ dquote
  | VArray l =>
      match l with
      | [] => "[]"
      | _ => "[" +:+ nl' +:+ String.concat ("," +:+ nl') (map (marshal indent nl') l)
             +:+ nl +:+ "]"
      end
  | VMap m =>
      match map_fold (fun k x acc => insert_member (k, marshal indent nl' x) acc)
                     [] m with
      | [] => "{}"
      | members =>
          "{" +:+ nl' +:+
          String.concat ("," +:+ nl')
            (map (fun kv => dquote +:+ kv.1 +:+ dquote +:+ ": " +:+ kv.2) members)
          +:+ nl +:+ "}"
      end
  end.

(** The sample configuration, and the one line of JSON it is read from. *)
Definition sample_conf : gmap string value :=
  {[ "registry" := VString "/ol/registry";
     "trace" := VBool false;
     "limits" := VMap {[ "procs" := VFloat 0x4024000000000000 ]};
     "features" := VArray [] ]}.

Definition sample_json : string :=
  "{" +:+ dquote +:+ "registry" +:+ dquote +:+ ":" +:+
          dquote +:+ "/ol/registry" +:+ dquote +:+ "," +:+
          dquote +:+ "trace" +:+ dquote +:+ ":false," +:+
          dquote +:+ "limits" +:+ dquote +:+ ":{" +:+
          dquote +:+ "procs" +:+ dquote +:+ ":10}," +:+
          dquote +:+ "features" +:+ dquote +:+ ":[]}".

#[local] Instance lib : GoLib := {|
  ToLower := to_lower;
  TrimSpace := fun s => trim_right (trim_left s);
  Quote := fun s => dquote +:+ s +:+ dquote;
  filepath_Join := join;
  filepath_Base := base;
  path_Join := join;
  IsNotExist := fun e =>
    match e with
    | Some (Errorf "no such file or directory") => true
    | _ => false
    end;
  json_Unmarshal := fun b =>
    if String.eqb b sample_json then Ok sample_conf
    else Error (Errorf "unexpected end of JSON input");
  json_MarshalIndent := fun v prefix indent =>
    Ok (marshal indent (newline +:+ prefix) v);
|}.

(** ** The environment *)

Record world : Type := {
  files : gmap string string;          (* the regular files *)
  dirs : gmap string (list string);    (* the directories that can be listed *)
  refused : nat;                       (* HttpGet fails this many times yet *)
  pid_text : string;                   (* then /pid answers with this body *)
  alive : bool;                        (* does the worker take signal 0 *)
  fails : call -> bool;                (* the other calls that fail *)
}.

Definition denied : option error := Some (Errorf "operation not permitted").

Definition sample_Conf (olPath : string) : Config := {|
  Worker_port := "5000";
  Worker_dir := join [olPath; "worker"];
  Registry := join [olPath; "registry"];
  SOCK_base_path := join [olPath; "lambda"];
|}.

Definition os (c : call) (w : world) : answer c * world :=
  let err := if fails w c then denied else None in
  match c with
  | GetOlPath ctx =>
      (Ok (if String.eqb (flag_path ctx) "" then "/default-ol" else flag_path ctx), w)
  | LoadDefaults olPath => (Ok (sample_Conf olPath), w)
  | LoadConf path => (Ok (sample_Conf "/default-ol"), w)
  | DumpConfStr => ("{}", w)
  | NewClientFromEnv => (Ok 1, w)
  | ReadFile path =>
      (match files w !! path with
       | Some data => Ok data
       | None => Error (Errorf "no such file or directory")
       end, w)
  | WriteFile path data _ =>
      (err,
       if fails w c then w
       else {| files := <[path := data]> (files w); dirs := dirs w;
               refused := refused w; pid_text := pid_text w;
               alive := alive w; fails := fails w |})
  | ReadDir path =>
      (match dirs w !! path with
       | Some names => Ok names
       | None => Error (Errorf "no such file or directory")
       end, w)
  | Create _ => (Ok 3, w)
  | LookPath file => (Ok file, w)
  | Args => (("ol", ["worker"; "up"; "-d"]), w)
  | StartProcess _ _ _ _ => (Ok 4242, w)
  | Signal _ sig =>
      (if (sig =? 0) && negb (alive w) then Some (Errorf "os: process already finished")
       else err, w)
  | RecvDied => (None, w)
  | HttpGet _ =>
      match refused w with
      | S n =>
          (Error (Errorf "connection refused"),
           {| files := files w; dirs := dirs w; refused := n;
              pid_text := pid_text w; alive := alive w; fails := fails w |})
      | O => (Ok 7, w)
      end
  | ReadAll _ => ((pid_text w, None), w)
  | GoWait _ | BodyClose _ | Printf _ | Sleep _ => (tt, w)
  | SaveConf _ | DumpDockerImage _ _ _ | ServerMain | Mkdir _ _ | Stat _
  | Remove _ | Rmdir _ | Unmount _ _ | FindProcess _ | Command _ _ => (err, w)
  end.

(** A fresh machine: the sample configuration and the PID file of worker
    4242, no leftovers of sandboxes, and a worker that answers at once. *)
Definition start : world := {|
  files := {[ "/default-ol/config.json" := sample_json;
              "/default-ol/worker/worker.pid" := "4242" ]};
  dirs := ∅;
  refused := 0;
  pid_text := "4242" +:+ newline;
  alive := true;
  fails := fun _ => false;
|}.

(** The worker does not answer within the 300 rounds. *)
Definition unreachable : world := {|
  files := files start; dirs := dirs start; refused := 300;
  pid_text := pid_text start; alive := true; fails := fails start;
|}.

(** Something answers at /pid, but not with a number. *)
Definition not_ready : world := {|
  files := files start; dirs := dirs start; refused := 2;
  pid_text := "starting"; alive := true; fails := fails start;
|}.

(** Another process answers at the port. *)
Definition port_taken : world := {|
  files := files start; dirs := dirs start; refused := 0;
  pid_text := "17"; alive := true; fails := fails start;
|}.

(** The worker stops when it is told to. *)
Definition obedient : world := {|
  files := files start; dirs := dirs start; refused := 0;
  pid_text := pid_text start; alive := false; fails := fails start;
|}.

(** Leftovers of a crashed worker, which cannot be removed: two cgroups and
    a file in the cgroup root, two sandboxes below the mount root. *)
Definition crashed : world := {|
  files := files start;
  dirs := {[ "/sys/fs/cgroup/default-ol-sandboxes" :=
               ["cg-1"; "cg-2"; "cgroup.procs"];
             "/default-ol/worker/root-sandboxes" := ["7"; "8"] ]};
  refused := 0; pid_text := pid_text start; alive := true;
  fails := fun c => match c with
                    | Rmdir _ | Unmount _ _ | WriteFile _ _ _ | Remove _ => true
                    | _ => false
                    end;
|}.

(** The second device node cannot be made. *)
Definition no_random : world := {|
  files := files start; dirs := dirs start; refused := 0;
  pid_text := pid_text start; alive := true;
  fails := fun c => match c with
                    | Command _ args => String.eqb (List.last args "") "8"
                    | _ => false
                    end;
|}.

Definition ctx : Context := {|
  flag_path := ""; flag_image := ""; flag_options := ""; flag_detach := true;
|}.

End Demo.

(* ===================================================================== *)
(** * More notions used to state the properties                           *)
(* ===================================================================== *)

(** ** Configuration trees *)

(** Two lookups that agree on whether there is a value and, when there is,
    on its category. *)
Definition same_category (a b : option value) : Prop :=
  match a, b with
  | None, None => True
  | Some v, Some v' => category_of v = category_of v'
  | _, _ => False
  end.

(** A value an override may stand on: a string, a number as decoded from
    JSON, or a boolean. *)
Definition overridable (v : value) : bool :=
  match v with
  | VString _ | VFloat _ | VBool _ => true
  | _ => false
  end.

(** The keys of an option [keystr=val], as [strings.Split(keystr, ".")]. *)
Definition keys_of (keystr : string) : list string := Split keystr ".".

(** The value at a path of keys; there is none at the empty path. *)
Definition lookup_keys (keys : list string) (c : gmap string value)
  : option value :=
  match keys with
  | [] => None
  | key :: rest => lookup_path key rest c
  end.

(** ** Traces *)

(** The error a call came back with, if it did. *)
Definition result_error {A : Type} (r : result A) : option error :=
  match r with
  | Ok _ => None
  | Error e => Some e
  end.

Definition failure (e : event) : option error :=
  match e with
  | Ev (GetOlPath _) a => result_error a
  | Ev (LoadDefaults _) a => result_error a
  | Ev (LoadConf _) a => result_error a
  | Ev (SaveConf _) a => a
  | Ev NewClientFromEnv a => result_error a
  | Ev (DumpDockerImage _ _ _) a => a
  | Ev ServerMain a => a
  | Ev (ReadFile _) a => result_error a
  | Ev (WriteFile _ _ _) a => a
  | Ev (ReadDir _) a => result_error a
  | Ev (Mkdir _ _) a => a
  | Ev (Stat _) a => a
  | Ev (Create _) a => result_error a
  | Ev (Remove _) a => a
  | Ev (Rmdir _) a => a
  | Ev (Unmount _ _) a => a
  | Ev (FindProcess _) a => a
  | Ev (StartProcess _ _ _ _) a => result_error a
  | Ev (Signal _ _) a => a
  | Ev (Command _ _) a => a
  | Ev (LookPath _) a => result_error a
  | Ev (HttpGet _) a => result_error a
  | Ev (ReadAll _) a => a.2
  | _ => None
  end.

(** The errors of the calls of a trace, in order. *)
Definition failures (tr : list event) : list error := omap failure tr.

(** ** The steps of initOLDir *)

Section InitSteps.
Context `{GoLib}.

(** The image dumped: the one asked for, or [ol-wasm]. *)
Definition base_image (dockerBaseImage : string) : string :=
  if String.eqb dockerBaseImage "" then "ol-wasm" else dockerBaseImage.

(** The calls of a run in which nothing fails, but for the printing:
    [Conf] is the configuration [LoadDefaults] has set, [client] the Docker
    client. *)
Definition init_steps (olPath dockerBaseImage : string)
    (Conf : Config) (client : Z) : list call :=
  let base := SOCK_base_path Conf in
  [Mkdir olPath perm_0700;
   LoadDefaults olPath;
   SaveConf (filepath_Join [olPath; "config.json"]);
   Mkdir (Worker_dir Conf) perm_0700;
   Mkdir (Registry Conf) perm_0700;
   NewClientFromEnv;
   DumpDockerImage client (base_image dockerBaseImage) base;
   Mkdir (path_Join [base; "handler"]) perm_0700;
   Mkdir (path_Join [base; "host"]) perm_0700;
   Mkdir (path_Join [base; "packages"]) perm_0700;
   WriteFile (filepath_Join [base; "etc"; "resolv.conf"])
             ("nameserver 8.8.8.8" +:+ newline) perm_0644;
   Command "mknod" ["-m"; "0644"; filepath_Join [base; "dev"; "null"];
                    "c"; "1"; "3"];
   Command "mknod" ["-m"; "0644"; filepath_Join [base; "dev"; "random"];
                    "c"; "1"; "8"];
   Command "mknod" ["-m"; "0644"; filepath_Join [base; "dev"; "urandom"];
                    "c"; "1"; "9"];
   DumpConfStr].

End InitSteps.

Definition no_Config : Config :=
  {| Worker_port := ""; Worker_dir := ""; Registry := ""; SOCK_base_path := "" |}.

(** The configuration [LoadDefaults] has set in a trace, and the Docker
    client [NewClientFromEnv] has given. *)
Definition defaults_answer (e : event) : option Config :=
  match e with
  | Ev (LoadDefaults _) (Ok Conf) => Some Conf
  | _ => None
  end.

Definition client_answer (e : event) : option Z :=
  match e with
  | Ev NewClientFromEnv (Ok client) => Some client
  | _ => None
  end.

Definition defaults_set (tr : list event) : Config :=
  List.hd no_Config (omap defaults_answer tr).

Definition docker_client (tr : list event) : Z :=
  List.hd 0 (omap client_answer tr).

(** ** The readiness loop and the shutdown loop *)

(** The time slept in a trace, in milliseconds. *)
Definition sleep_of (c : call) : Z :=
  match c with Sleep ms => ms | _ => 0 end.

Definition total_sleep (tr : list event) : Z :=
  fold_right (fun e acc => sleep_of (ev_call e) + acc) 0 tr.

(** What a look at the [died] channel found. *)
Definition died_answer (e : event) : option (option (option error)) :=
  match e with
  | Ev RecvDied a => Some a
  | _ => None
  end.

(** The calls of the readiness loop. *)
Definition wait_call (c : call) : bool :=
  match c with
  | RecvDied | Signal _ _ | HttpGet _ | Sleep _ | ReadAll _ | BodyClose _
  | Printf _ => true
  | _ => false
  end.

(** A round of the shutdown loop that found the process alive. *)
Definition alive_round (pid : Z) : list event :=
  [Ev (Signal pid 0) None; Ev (Sleep (100 * Millisecond)) tt].

(** The round that found it gone, with the error of the probe. *)
Definition gone_round (pid : Z) (err : error) : list event :=
  [Ev (Signal pid 0) (Some err);
   Ev (Printf ("OL worker process stopped successfully" +:+ newline)) tt].

(** ** Kinds of calls *)

(** The calls of [initOLDir]. *)
Definition init_call (c : call) : bool :=
  match c with
  | Printf _ | Mkdir _ _ | LoadDefaults _ | SaveConf _ | NewClientFromEnv
  | DumpDockerImage _ _ _ | WriteFile _ _ _ | Command _ _ | DumpConfStr => true
  | _ => false
  end.

(** The calls that start, signal or wait for a process, or talk to one. *)
Definition process_call (c : call) : bool :=
  match c with
  | Create _ | Args | LookPath _ | StartProcess _ _ _ _ | GoWait _ | RecvDied
  | Signal _ _ | FindProcess _ | HttpGet _ | ReadAll _ | BodyClose _
  | Sleep _ => true
  | _ => false
  end.

Definition is_signal (c : call) : bool :=
  match c with Signal _ _ => true | _ => false end.

Definition is_stat (c : call) : bool :=
  match c with Stat _ => true | _ => false end.

Definition is_close (c : call) : bool :=
  match c with BodyClose _ => true | _ => false end.

(** The calls that write nothing and touch no process. *)
Definition read_only (c : call) : bool :=
  match c with
  | GetOlPath _ | LoadConf _ | HttpGet _ | ReadAll _ | BodyClose _
  | Printf _ => true
  | _ => false
  end.

(** ** The runs of up *)

(** The calls of [up] before it loads the configuration. *)
Definition setup_call (c : call) : bool :=
  match c with
  | GetOlPath _ | Stat _ | ReadFile _ => true
  | _ => init_call c
  end.

(** The calls of [overrideOpts]. *)
Definition file_call (c : call) : bool :=
  match c with
  | ReadFile _ | WriteFile _ _ _ => true
  | _ => false
  end.

(** The calls of [initOLDir] that [up] makes nowhere else. *)
Definition init_only (c : call) : bool :=
  match c with
  | Mkdir _ _ | LoadDefaults _ | SaveConf _ | NewClientFromEnv
  | DumpDockerImage _ _ _ | Command _ _ | DumpConfStr => true
  | _ => false
  end.

Section UpShape.
Context `{GoLib} {W : Type} (os : forall c : call, W -> answer c * W).

(** Lines 233-243, when [up] goes on from there: the directory was missing
    and has been made, or [os.Stat] did not say that it is missing. *)
Inductive dir_ready (olPath image : string) (st : option error)
  : list event -> Prop :=
  | dir_made w wi tri :
      IsNotExist st = true ->
      run os (initOLDir olPath image) w = (None, wi, tri) ->
      dir_ready olPath image st
        (Ev (Printf ("No OL directory found at " +:+ olPath +:+ newline)) tt
         :: tri)
  | dir_found :
      IsNotExist st = false ->
      dir_ready olPath image st
        [Ev (Printf ("using existing OL directory at " +:+ olPath +:+ newline))
            tt].

(** Lines 245-254, when [up] goes on from there, with the path of the
    configuration to load. *)
Inductive conf_ready (olPath opts : string) : string -> list event -> Prop :=
  | conf_plain :
      opts = "" ->
      conf_ready olPath opts (filepath_Join [olPath; "config.json"]) []
  | conf_overridden w wo tro :
      opts <> "" ->
      run os (overrideOpts (filepath_Join [olPath; "config.json"])
                (filepath_Join [olPath; "config.json"] +:+ ".overrides") opts) w
        = (None, wo, tro) ->
      conf_ready olPath opts
        (filepath_Join [olPath; "config.json"] +:+ ".overrides") tro.

(** Lines 228-254, when [up] goes on from there: [confPath] is the
    configuration to load. *)
Inductive setup (ctx : Context) (olPath : string) : string -> list event -> Prop :=
  | setup_done st tr1 confPath tr2 :
      dir_ready olPath (flag_image ctx) st tr1 ->
      conf_ready olPath (flag_options ctx) confPath tr2 ->
      setup ctx olPath confPath
        (Ev (GetOlPath ctx) (Ok olPath) :: Ev (Stat olPath) st :: tr1 ++ tr2).

(** The arguments the worker is started with. *)
Definition worker_args (args : string * list string) : list string :=
  List.filter (fun arg => negb (String.eqb arg "-d") &&
                          negb (String.eqb arg "--detach"))
              (args.1 :: args.2).

(** The ways a run of [up] can end, with what it returns and its trace. *)
Inductive up_ends (ctx : Context) : option error -> list event -> Prop :=
  | no_path e :
      up_ends ctx (Some e) [Ev (GetOlPath ctx) (Error e)]
  | init_failed olPath st w wi tri e :
      IsNotExist st = true ->
      run os (initOLDir olPath (flag_image ctx)) w = (Some e, wi, tri) ->
      up_ends ctx (Some e)
        (Ev (GetOlPath ctx) (Ok olPath) :: Ev (Stat olPath) st ::
         Ev (Printf ("No OL directory found at " +:+ olPath +:+ newline)) tt ::
         tri)
  | override_failed olPath st tr1 w wo tro e :
      dir_ready olPath (flag_image ctx) st tr1 ->
      flag_options ctx <> "" ->
      run os (overrideOpts (filepath_Join [olPath; "config.json"])
                (filepath_Join [olPath; "config.json"] +:+ ".overrides")
                (flag_options ctx)) w = (Some e, wo, tro) ->
      up_ends ctx (Some e)
        (Ev (GetOlPath ctx) (Ok olPath) :: Ev (Stat olPath) st :: tr1 ++ tro)
  | not_loaded olPath confPath head e :
      setup ctx olPath confPath head ->
      up_ends ctx (Some e) (head ++ [Ev (LoadConf confPath) (Error e)])
  | served olPath confPath head Conf a :
      setup ctx olPath confPath head ->
      flag_detach ctx = false ->
      up_ends ctx
        (Some (match a with
               | Some e => e
               | None => Errorf "this code should not be reachable"
               end))
        (head ++ [Ev (LoadConf confPath) (Ok Conf); Ev ServerMain a])
  | no_log olPath confPath head Conf e :
      setup ctx olPath confPath head ->
      flag_detach ctx = true ->
      up_ends ctx (Some e)
        (head ++ [Ev (LoadConf confPath) (Ok Conf);
                  Ev (Create (filepath_Join [olPath; "worker.out"])) (Error e)])
  | no_binary olPath confPath head Conf f args e :
      setup ctx olPath confPath head ->
      flag_detach ctx = true ->
      up_ends ctx (Some e)
        (head ++ [Ev (LoadConf confPath) (Ok Conf);
                  Ev (Create (filepath_Join [olPath; "worker.out"])) (Ok f);
                  Ev Args args; Ev (LookPath args.1) (Error e)])
  | not_started olPath confPath head Conf f args binPath e :
      setup ctx olPath confPath head ->
      flag_detach ctx = true ->
      up_ends ctx (Some e)
        (head ++ [Ev (LoadConf confPath) (Ok Conf);
                  Ev (Create (filepath_Join [olPath; "worker.out"])) (Ok f);
                  Ev Args args; Ev (LookPath args.1) (Ok binPath);
                  Ev (Printf ("starting process: binpath= " +:+ binPath +:+
                              ", cmd=" +:+ fmt_strings (worker_args args) +:+
                              newline)) tt;
                  Ev (StartProcess binPath (worker_args args)
                        [None; Some f; Some f] CLONE_NEWNS) (Error e)])
  | started olPath confPath head Conf f args binPath proc w r w' trl :
      setup ctx olPath confPath head ->
      flag_detach ctx = true ->
      run os (up_wait 300 proc (Worker_port Conf) None) w = (r, w', trl) ->
      up_ends ctx r
        (head ++ [Ev (LoadConf confPath) (Ok Conf);
                  Ev (Create (filepath_Join [olPath; "worker.out"])) (Ok f);
                  Ev Args args; Ev (LookPath args.1) (Ok binPath);
                  Ev (Printf ("starting process: binpath= " +:+ binPath +:+
                              ", cmd=" +:+ fmt_strings (worker_args args) +:+
                              newline)) tt;
                  Ev (StartProcess binPath (worker_args args)
                        [None; Some f; Some f] CLONE_NEWNS) (Ok proc);
                  Ev (GoWait proc) tt;
                  Ev (Printf ("Starting worker: pid=" +:+ itoa proc +:+
                              ", port=" +:+ Worker_port Conf +:+ ", log=" +:+
                              filepath_Join [olPath; "worker.out"] +:+ newline))
                     tt] ++ trl).

End UpShape.

(** ** The runs of down *)

(** The answer of an [ioutil.ReadFile]. *)
Definition file_answer (e : event) : option (result string) :=
  match e with
  | Ev (ReadFile _) a => Some a
  | _ => None
  end.

(** The calls of the shutdown loop. *)
Definition poll_call (pid : Z) (c : call) : bool :=
  match c with
  | Signal p sig => (p =? pid) && (sig =? 0)
  | Sleep _ | Printf _ => true
  | _ => false
  end.

Section DownShape.
Context `{GoLib} {W : Type} (os : forall c : call, W -> answer c * W).

(** Lines 388-391: what is printed of the answer to the interrupt. *)
Definition kill_report (pid : Z) (a : option error) : list event :=
  match a with
  | Some e =>
      [Ev (Printf (Error_text e +:+ newline)) tt;
       Ev (Printf ("Failed to kill process with PID " +:+ itoa pid +:+
                   ".  May require manual cleanup." +:+ newline)) tt]
  | None => []
  end.

(** Lines 363-382, when the PID file has been read. *)
Definition pid_file_read (ctx : Context) (olPath : string) (Conf : Config)
    (data : string) : list event :=
  [Ev (GetOlPath ctx) (Ok olPath);
   Ev (LoadConf (filepath_Join [olPath; "config.json"])) (Ok Conf);
   Ev (ReadFile (filepath_Join [Worker_dir Conf; "worker.pid"])) (Ok data)].

(** The ways a run of [down] can end, with its outcome and its trace. *)
Inductive down_ends (ctx : Context) : outcome -> list event -> Prop :=
  | down_no_path e :
      down_ends ctx (Return (Some e)) [Ev (GetOlPath ctx) (Error e)]
  | down_not_loaded olPath e :
      down_ends ctx (Return (Some e))
        [Ev (GetOlPath ctx) (Ok olPath);
         Ev (LoadConf (filepath_Join [olPath; "config.json"])) (Error e)]
  | down_no_pid_file olPath Conf e :
      down_ends ctx (Return (Some e))
        [Ev (GetOlPath ctx) (Ok olPath);
         Ev (LoadConf (filepath_Join [olPath; "config.json"])) (Ok Conf);
         Ev (ReadFile (filepath_Join [Worker_dir Conf; "worker.pid"])) (Error e)]
  | down_bad_pid olPath Conf data e :
      Atoi data = Error e ->
      down_ends ctx (Return (Some e)) (pid_file_read ctx olPath Conf data)
  | down_not_found olPath Conf data pid e :
      Atoi data = Ok pid ->
      down_ends ctx Panic
        (pid_file_read ctx olPath Conf data ++
         [Ev (Printf ("Killing worker process with PID " +:+ itoa pid +:+
                      newline)) tt;
          Ev (FindProcess pid) (Some e);
          Ev (Printf (Error_text e +:+ newline)) tt;
          Ev (Printf ("Failed to find worker process with PID " +:+ itoa pid +:+
                      ".  May require manual cleanup." +:+ newline)) tt])
  | down_polled olPath Conf data pid a w r w' trl :
      Atoi data = Ok pid ->
      run os (down_wait 300 pid) w = (r, w', trl) ->
      down_ends ctx (Return r)
        (pid_file_read ctx olPath Conf data ++
         [Ev (Printf ("Killing worker process with PID " +:+ itoa pid +:+
                      newline)) tt;
          Ev (FindProcess pid) None;
          Ev (Signal pid SIGINT) a] ++ kill_report pid a ++ trl).

End DownShape.

(* ===================================================================== *)
(** * More machines                                                       *)
(* ===================================================================== *)

Module Cases.

(** The worker has exited, without an error, before it is first looked at. *)
Definition os_died (c : call) (w : Demo.world) : answer c * Demo.world :=
  match c as c0 return answer c0 * Demo.world with
  | RecvDied => (Some None, w)
  | c0 => Demo.os c0 w
  end.

(** No OL directory can be named. *)
Definition os_no_path (c : call) (w : Demo.world) : answer c * Demo.world :=
  match c as c0 return answer c0 * Demo.world with
  | GetOlPath _ => (Error (Errorf "getwd: no such file or directory"), w)
  | c0 => Demo.os c0 w
  end.

(** There is no OL directory yet. *)
Definition os_fresh (c : call) (w : Demo.world) : answer c * Demo.world :=
  match c as c0 return answer c0 * Demo.world with
  | Stat _ => (Some (Errorf "no such file or directory"), w)
  | c0 => Demo.os c0 w
  end.

(** The body of an answer cannot be read to its end. *)
Definition os_cut (c : call) (w : Demo.world) : answer c * Demo.world :=
  match c as c0 return answer c0 * Demo.world with
  | ReadAll _ => (("", Some (Errorf "unexpected EOF")), w)
  | c0 => Demo.os c0 w
  end.

(** The disk is full.  [ioutil.WriteFile] opens the file with [O_TRUNC],
    writes and closes: the file is emptied, and the write then fails. *)
Definition os_full (c : call) (w : Demo.world) : answer c * Demo.world :=
  match c as c0 return answer c0 * Demo.world with
  | WriteFile path _ _ =>
      (Some (Errorf "no space left on device"),
       {| Demo.files := <[path := ""]> (Demo.files w); Demo.dirs := Demo.dirs w;
          Demo.refused := Demo.refused w; Demo.pid_text := Demo.pid_text w;
          Demo.alive := Demo.alive w; Demo.fails := Demo.fails w |})
  | c0 => Demo.os c0 w
  end.

(** The worker has been started with overrides before. *)
Definition overridden : Demo.world := {|
  Demo.files := <["/default-ol/config.json.overrides" := Demo.sample_json]>
                  (Demo.files Demo.start);
  Demo.dirs := Demo.dirs Demo.start; Demo.refused := 0;
  Demo.pid_text := Demo.pid_text Demo.start; Demo.alive := true;
  Demo.fails := Demo.fails Demo.start;
|}.

(** The PID file ends in a newline. *)
Definition pid_line : Demo.world := {|
  Demo.files := <["/default-ol/worker/worker.pid" := "4242" +:+ newline]>
                  (Demo.files Demo.start);
  Demo.dirs := Demo.dirs Demo.start; Demo.refused := 0;
  Demo.pid_text := Demo.pid_text Demo.start; Demo.alive := true;
  Demo.fails := Demo.fails Demo.start;
|}.

(** The worker belongs to another user: it takes no signal of ours. *)
Definition foreign : Demo.world := {|
  Demo.files := Demo.files Demo.start; Demo.dirs := Demo.dirs Demo.start;
  Demo.refused := 0; Demo.pid_text := Demo.pid_text Demo.start;
  Demo.alive := true;
  Demo.fails := fun c => match c with Signal _ _ => true | _ => false end;
|}.

(** The OL directory cannot be looked at. *)
Definition hidden : Demo.world := {|
  Demo.files := Demo.files Demo.start; Demo.dirs := Demo.dirs Demo.start;
  Demo.refused := 0; Demo.pid_text := Demo.pid_text Demo.start;
  Demo.alive := true;
  Demo.fails := fun c => match c with Stat _ => true | _ => false end;
|}.

(** [ol worker up], in the foreground. *)
Definition foreground : Context := {|
  flag_path := ""; flag_image := ""; flag_options := ""; flag_detach := false;
|}.

(** [ol worker up -d -o trace=true]. *)
Definition traced : Context := {|
  flag_path := ""; flag_image := ""; flag_options := "trace=true";
  flag_detach := true;
|}.

Definition response_Status (response : Z) : string := "200 OK".

End Cases.

(* ===================================================================== *)
(** * Properties                                                          *)
(* ===================================================================== *)

Example Split_examples :
  Split "a.b=1,c=2" "," = ["a.b=1"; "c=2"] /\
  Split "" "," = [""] /\
  Split "a==b" "=" = ["a"; ""; "b"] /\
  Split "limits.procs" "." = ["limits"; "procs"].
Proof. repeat split; reflexivity. Qed.

Example Atoi_examples :
  Atoi "-12" = Ok (-12) /\ Atoi "+7" = Ok 7 /\
  Atoi "9223372036854775807" = Ok 9223372036854775807 /\
  Atoi "9223372036854775808" = Error (NumError "Atoi" "9223372036854775808" ErrRange) /\
  Atoi "-9223372036854775808" = Ok (-9223372036854775808) /\
  Atoi "" = Error (NumError "Atoi" "" ErrSyntax) /\
  Atoi "1_0" = Error (NumError "Atoi" "1_0" ErrSyntax) /\
  Atoi "-" = Error (NumError "Atoi" "-" ErrSyntax) /\
  Atoi " 5" = Error (NumError "Atoi" " 5" ErrSyntax) /\
  itoa (-30) = "-30" /\ itoa 0 = "0".
Proof. repeat split; vm_compute; reflexivity. Qed.

Section OverrideFacts.
Context `{GoLib}.

Lemma override_leaf_lookup key val c c' :
  override_leaf key val c = Ok c' ->
  exists prev v, c !! key = Some prev /\ c' = <[key := v]> c /\
                 (forall m, prev <> VMap m) /\ (forall m, v <> VMap m).
Proof.
  unfold override_leaf. intros Hc.
  destruct (c !! key) as [prev|] eqn:Hk; [|discriminate].
  exists prev.
  destruct prev; try discriminate.
  - destruct (String.eqb (ToLower val) "true");
      [|destruct (String.eqb (ToLower val) "false")]; inversion Hc; subst;
      eexists; repeat split; congruence.
  - destruct (Atoi val); inversion Hc; subst.
    eexists; repeat split; congruence.
  - inversion Hc; subst. eexists; repeat split; congruence.
Qed.

(** An override that goes through leaves every key of the top map in place,
    a map where there was a map and a leaf where there was a leaf. *)
Lemma override_at_lookup key rest val c c' :
  override_at key rest val c = Ok c' ->
  forall k,
    match c !! k with
    | None => c' !! k = None
    | Some (VMap m) =>
        c' !! k = Some (VMap m) \/
        exists key' rest' m', override_at key' rest' val m = Ok m' /\
                              c' !! k = Some (VMap m')
    | Some _ => exists v', c' !! k = Some v' /\ forall m, v' <> VMap m
    end.
Proof.
  intros Hc k. destruct rest as [|key' rest']; simpl in Hc.
  - apply override_leaf_lookup in Hc as (prev & v & Hp & -> & Hnm & Hvm).
    destruct (decide (key = k)) as [->|Hne].
    + rewrite Hp. rewrite lookup_insert_eq.
      destruct prev; try (eexists; split; [reflexivity|assumption]).
      exfalso. eapply Hnm. reflexivity.
    + rewrite lookup_insert_ne by assumption.
      destruct (c !! k) as [v0|]; [|reflexivity].
      destruct v0; try (eexists; split; [reflexivity|congruence]).
      left. reflexivity.
  - destruct (c !! key) as [sub|] eqn:Hk; [|discriminate].
    destruct sub; try discriminate.
    destruct (override_at key' rest' val m) as [v'|] eqn:Hv; [|discriminate].
    inversion Hc; subst; clear Hc.
    destruct (decide (key = k)) as [->|Hne].
    + rewrite Hk, lookup_insert_eq. right. eauto.
    + rewrite lookup_insert_ne by assumption.
      destruct (c !! k) as [v0|]; [|reflexivity].
      destruct v0; try (eexists; split; [reflexivity|congruence]).
      left. reflexivity.
Qed.

Lemma unresolved_preserved key rest c :
  unresolved key rest c ->
  forall key0 rest0 val c',
    override_at key0 rest0 val c = Ok c' -> unresolved key rest c'.
Proof.
  induction 1 as [key c Hk|key key' rest c Hk|key key' rest c v Hk Hv
                 |key key' rest c m Hk Hun IH];
    intros key0 rest0 val c' Hc;
    pose proof (override_at_lookup _ _ _ _ _ Hc key) as Hl; rewrite Hk in Hl.
  - now constructor.
  - now constructor.
  - destruct v; try (destruct Hl as (v' & Hv' & Hnm);
                     eapply intermediate_not_a_map; eassumption).
    exfalso. eapply Hv. reflexivity.
  - destruct Hl as [Hl|(k1 & r1 & m' & Hm & Hl)].
    + eapply unresolved_below; eassumption.
    + eapply unresolved_below; [eassumption|]. eapply IH. eassumption.
Qed.

Lemma unresolved_is_error key rest c val :
  unresolved key rest c -> is_error (override_at key rest val c) = true.
Proof.
  induction 1 as [key c Hk|key key' rest c Hk|key key' rest c v Hk Hv
                 |key key' rest c m Hk Hun IH]; simpl.
  - unfold override_leaf. now rewrite Hk.
  - now rewrite Hk.
  - rewrite Hk. destruct v; try reflexivity. exfalso. eapply Hv. reflexivity.
  - rewrite Hk. destruct (override_at key' rest val m); [discriminate|reflexivity].
Qed.

(** The loop stops with an error when one of its options names a key that
    does not resolve, wherever in the list that option stands. *)
Lemma apply_opts_unresolved opts :
  forall conf opt keystr val,
    In opt opts ->
    Split opt "=" = [keystr; val] ->
    unresolved (pieces keystr ".").1 (pieces keystr ".").2 conf ->
    is_error (apply_opts opts conf) = true.
Proof.
  induction opts as [|opt0 opts IH]; intros conf opt keystr val Hin Hs Hun;
    [destruct Hin|].
  simpl. destruct (apply_opt opt0 conf) as [conf'|e] eqn:Ha; [|reflexivity].
  destruct Hin as [->|Hin].
  - unfold apply_opt in Ha. rewrite Hs in Ha.
    destruct (pieces keystr ".") as [key rest]. simpl in Hun.
    apply (unresolved_is_error _ _ _ val) in Hun. rewrite Ha in Hun. discriminate.
  - eapply IH; [eassumption..|].
    unfold apply_opt in Ha.
    destruct (Split opt0 "=") as [|k0 [|v0 [|? ?]]]; try discriminate.
    destruct (pieces k0 ".") as [key0 rest0].
    eapply unresolved_preserved; eassumption.
Qed.

End OverrideFacts.

(** ** Facts about [run] *)

Section RunFacts.
Context {W : Type} (os : forall c : call, W -> answer c * W).

Lemma run_bind {A B : Type} (p : prog A) (k : A -> prog B) (w : W) :
  run os (bind p k) w =
  let '(a, w1, tr1) := run os p w in
  let '(b, w2, tr2) := run os (k a) w1 in
  (b, w2, tr1 ++ tr2).
Proof.
  revert w. induction p as [a|c h IH]; intros w; simpl.
  - destruct (run os (k a) w) as [[b w2] tr2]. reflexivity.
  - destruct (os c w) as [x w1]. rewrite IH.
    destruct (run os (h x) w1) as [[a w2] tr1].
    destruct (run os (k a) w2) as [[b w3] tr2]. reflexivity.
Qed.

Lemma result_of_bind {A B : Type} (p : prog A) (k : A -> prog B) (w : W) :
  result_of os (bind p k) w =
  result_of os (k (result_of os p w)) (run os p w).1.2.
Proof.
  unfold result_of. rewrite run_bind.
  destruct (run os p w) as [[a w1] tr1]. simpl.
  destruct (run os (k a) w1) as [[b w2] tr2]. reflexivity.
Qed.

Lemma trace_of_bind {A B : Type} (p : prog A) (k : A -> prog B) (w : W) :
  trace_of os (bind p k) w =
  trace_of os p w ++ trace_of os (k (result_of os p w)) (run os p w).1.2.
Proof.
  unfold trace_of, result_of. rewrite run_bind.
  destruct (run os p w) as [[a w1] tr1]. simpl.
  destruct (run os (k a) w1) as [[b w2] tr2]. reflexivity.
Qed.

End RunFacts.

(** ** overrideOpts *)

Section OverrideOptsFacts.
Context `{GoLib} {W : Type} (os : forall c : call, W -> answer c * W).

(** The run of [overrideOpts] on a configuration that could be read: the
    loop decides whether anything is written, and what. *)
Lemma overrideOpts_run
    (w : W) (confPath overridePath optsStr b : string)
    (conf : gmap string value) :
  (os (ReadFile confPath) w).1 = Ok b ->
  json_Unmarshal b = Ok conf ->
  match apply_opts (Split optsStr ",") conf with
  | Error e =>
      result_of os (overrideOpts confPath overridePath optsStr) w = Some e /\
      trace_of os (overrideOpts confPath overridePath optsStr) w =
        [Ev (ReadFile confPath) (Ok b)]
  | Ok conf' =>
      match json_MarshalIndent (VMap conf') "" tab with
      | Error e =>
          result_of os (overrideOpts confPath overridePath optsStr) w = Some e /\
          trace_of os (overrideOpts confPath overridePath optsStr) w =
            [Ev (ReadFile confPath) (Ok b)]
      | Ok s =>
          trace_of os (overrideOpts confPath overridePath optsStr) w =
            [Ev (ReadFile confPath) (Ok b);
             Ev (WriteFile overridePath s perm_0644)
                (result_of os (overrideOpts confPath overridePath optsStr) w)]
      end
  end.
Proof.
  intros Hread Hjson. unfold result_of, trace_of, overrideOpts. simpl.
  destruct (os (ReadFile confPath) w) as [rb w1]. simpl in Hread. subst rb.
  rewrite Hjson.
  destruct (apply_opts (Split optsStr ",") conf) as [conf'|e]; simpl; [|auto].
  destruct (json_MarshalIndent (VMap conf') "" tab) as [s|e]; simpl; [|auto].
  destruct (os (WriteFile overridePath s perm_0644) w1) as [[e|] w2]; reflexivity.
Qed.





(** C2.  When the configuration read from [confPath] lacks the path of one
    of the dotted keys of the override text (an intermediate key is missing
    or is no map, or the last key is missing), [overrideOpts] returns an
    error and has made one call only, the read of [confPath]: nothing is
    written to [overridePath]. *)
Theorem unresolved_key_is_error_without_write
    (w : W) (confPath overridePath optsStr b : string)
    (conf : gmap string value) (opt keystr val : string) :
  (os (ReadFile confPath) w).1 = Ok b ->
  json_Unmarshal b = Ok conf ->
  In opt (Split optsStr ",") ->
  Split opt "=" = [keystr; val] ->
  unresolved (pieces keystr ".").1 (pieces keystr ".").2 conf ->
  (exists e, result_of os (overrideOpts confPath overridePath optsStr) w = Some e) /\
  trace_of os (overrideOpts confPath overridePath optsStr) w =
    [Ev (ReadFile confPath) (Ok b)].
Proof.
  intros Hread Hjson Hin Hs Hun.
  pose proof (apply_opts_unresolved _ _ _ _ _ Hin Hs Hun) as Herr.
  unfold result_of, trace_of, overrideOpts. simpl.
  destruct (os (ReadFile confPath) w) as [rb w1]. simpl in Hread. subst rb.
  rewrite Hjson.
  destruct (apply_opts (Split optsStr ",") conf) as [conf'|e]; [discriminate|].
  simpl. eauto.
Qed.

(** C3, as amended.  When the read, the decoding and the loop have gone
    through, [overrideOpts] lays out the tree the loop has left with
    [json.MarshalIndent], an empty prefix and a tab of indentation, and
    hands the text to one [ioutil.WriteFile] of [overridePath], mode 0644,
    straight: there is no temporary file and no rename.  It makes no other
    call after the read of [confPath], and returns what the write answers.
    So a run that returns nil has made these two calls, and the write has
    answered nil. *)
Theorem override_success_writes_output_only
    (w : W) (confPath overridePath optsStr : string) :
  (forall b conf conf',
     (os (ReadFile confPath) w).1 = Ok b ->
     json_Unmarshal b = Ok conf ->
     apply_opts (Split optsStr ",") conf = Ok conf' ->
     match json_MarshalIndent (VMap conf') "" tab with
     | Ok s =>
         trace_of os (overrideOpts confPath overridePath optsStr) w =
           [Ev (ReadFile confPath) (Ok b);
            Ev (WriteFile overridePath s perm_0644)
               (result_of os (overrideOpts confPath overridePath optsStr) w)]
     | Error e =>
         result_of os (overrideOpts confPath overridePath optsStr) w = Some e /\
         trace_of os (overrideOpts confPath overridePath optsStr) w =
           [Ev (ReadFile confPath) (Ok b)]
     end) /\
  (result_of os (overrideOpts confPath overridePath optsStr) w = None ->
   exists b conf conf' s,
     json_Unmarshal b = Ok conf /\
     apply_opts (Split optsStr ",") conf = Ok conf' /\
     json_MarshalIndent (VMap conf') "" tab = Ok s /\
     trace_of os (overrideOpts confPath overridePath optsStr) w =
       [Ev (ReadFile confPath) (Ok b);
        Ev (WriteFile overridePath s perm_0644) None]).
Proof.
  split.
  - intros b conf conf' Hread Hjson Hloop.
    pose proof (overrideOpts_run w confPath overridePath optsStr b conf
                  Hread Hjson) as Hrun.
    rewrite Hloop in Hrun. exact Hrun.
  - unfold result_of, trace_of, overrideOpts. simpl.
    destruct (os (ReadFile confPath) w) as [[b|e] w1]; simpl; [|discriminate].
    destruct (json_Unmarshal b) as [conf|e] eqn:Hjson; simpl; [|discriminate].
    destruct (apply_opts (Split optsStr ",") conf) as [conf'|e] eqn:Hopts;
      simpl; [|discriminate].
    destruct (json_MarshalIndent (VMap conf') "" tab) as [s|e] eqn:Hm;
      simpl; [|discriminate].
    destruct (os (WriteFile overridePath s perm_0644) w1) as [[e|] w2]; simpl;
      [discriminate|].
    intros _. exists b, conf, conf', s. repeat split; assumption.
Qed.

End OverrideOptsFacts.



Lemma sample_unresolved : unresolved "limits" ["cpus"] Demo.sample_conf.
Proof.
  apply unresolved_below with (m := {[ "procs" := VFloat 0x4024000000000000 ]}).
  - reflexivity.
  - apply missing_leaf. reflexivity.
Qed.

Lemma unresolved_key_is_error_without_write_witness :
  (Demo.os (ReadFile "/default-ol/config.json") Demo.start).1 = Ok Demo.sample_json /\
  json_Unmarshal (GoLib := Demo.lib) Demo.sample_json = Ok Demo.sample_conf /\
  In "limits.cpus=2" (Split "trace=true,limits.cpus=2" ",") /\
  Split "limits.cpus=2" "=" = ["limits.cpus"; "2"] /\
  unresolved "limits" ["cpus"] Demo.sample_conf /\
  (exists e,
     result_of Demo.os
       (overrideOpts (H := Demo.lib) "/default-ol/config.json"
          "/default-ol/config.json.overrides" "trace=true,limits.cpus=2")
       Demo.start = Some e) /\
  trace_of Demo.os
    (overrideOpts (H := Demo.lib) "/default-ol/config.json"
       "/default-ol/config.json.overrides" "trace=true,limits.cpus=2")
    Demo.start =
  [Ev (ReadFile "/default-ol/config.json") (Ok Demo.sample_json)].
Proof.
  assert (Hin : In "limits.cpus=2" (Split "trace=true,limits.cpus=2" ","))
    by (right; left; reflexivity).
  repeat (split; [first [reflexivity | exact Hin | exact sample_unresolved]|]).
  exact (unresolved_key_is_error_without_write (H := Demo.lib) Demo.os Demo.start
           "/default-ol/config.json" "/default-ol/config.json.overrides"
           "trace=true,limits.cpus=2" Demo.sample_json Demo.sample_conf
           "limits.cpus=2" "limits.cpus" "2"
           eq_refl eq_refl Hin eq_refl sample_unresolved).
Defined.

Lemma override_success_writes_output_only_witness :
  result_of Demo.os
    (overrideOpts (H := Demo.lib) "/default-ol/config.json"
       "/default-ol/config.json.overrides" "limits.procs=12,trace=TRUE")
    Demo.start = None /\
  exists b conf conf' s,
    json_Unmarshal (GoLib := Demo.lib) b = Ok conf /\
    apply_opts (H := Demo.lib) (Split "limits.procs=12,trace=TRUE" ",") conf = Ok conf' /\
    json_MarshalIndent (GoLib := Demo.lib) (VMap conf') "" tab = Ok s /\
    trace_of Demo.os
      (overrideOpts (H := Demo.lib) "/default-ol/config.json"
         "/default-ol/config.json.overrides" "limits.procs=12,trace=TRUE")
      Demo.start =
      [Ev (ReadFile "/default-ol/config.json") (Ok b);
       Ev (WriteFile "/default-ol/config.json.overrides" s perm_0644) None].
Proof.
  assert (Hr : result_of Demo.os
                 (overrideOpts (H := Demo.lib) "/default-ol/config.json"
                    "/default-ol/config.json.overrides" "limits.procs=12,trace=TRUE")
                 Demo.start = None)
    by (vm_compute; reflexivity).
  split; [exact Hr|].
  exact (proj2 (override_success_writes_output_only (H := Demo.lib) Demo.os
                  Demo.start "/default-ol/config.json"
                  "/default-ol/config.json.overrides"
                  "limits.procs=12,trace=TRUE") Hr).
Defined.

(** C3, as the specification has it, fails on a full disk: the write is no
    atomic replacement.  The overrides go through and the tree is laid out,
    but the one [ioutil.WriteFile] fails after it has emptied the file:
    [overrideOpts] returns the error, and the file at [overridePath] holds
    neither what it held before nor the new text. *)
Lemma failed_write_leaves_output_emptied :
  apply_opts (H := Demo.lib) (Split "trace=true" ",") Demo.sample_conf =
    Ok (replace_at "trace" [] (VBool true) Demo.sample_conf) /\
  (exists s,
     json_MarshalIndent (GoLib := Demo.lib)
       (VMap (replace_at "trace" [] (VBool true) Demo.sample_conf)) "" tab = Ok s /\
     s <> "" /\
     map ev_call
       (trace_of Cases.os_full
          (overrideOpts (H := Demo.lib) "/default-ol/config.json"
             "/default-ol/config.json.overrides" "trace=true") Cases.overridden) =
       [ReadFile "/default-ol/config.json";
        WriteFile "/default-ol/config.json.overrides" s perm_0644]) /\
  result_of Cases.os_full
    (overrideOpts (H := Demo.lib) "/default-ol/config.json"
       "/default-ol/config.json.overrides" "trace=true") Cases.overridden =
    Some (Errorf "no space left on device") /\
  Demo.files Cases.overridden !! "/default-ol/config.json.overrides" =
    Some Demo.sample_json /\
  Demo.files
    (run Cases.os_full
       (overrideOpts (H := Demo.lib) "/default-ol/config.json"
          "/default-ol/config.json.overrides" "trace=true") Cases.overridden).1.2
    !! "/default-ol/config.json.overrides" = Some "".
Proof.
  split; [vm_compute; reflexivity|]. split.
  { eexists. split; [vm_compute; reflexivity|].
    split; [discriminate|vm_compute; reflexivity]. }
  split; [vm_compute; reflexivity|]. split; vm_compute; reflexivity.
Qed.

(** ** The readiness loop of up *)

Lemma Ev_HttpGet_inv u a u' a' :
  Ev (HttpGet u) a = Ev (HttpGet u') a' -> a = a'.
Proof. intros Heq. apply (f_equal http_answer) in Heq. now inversion Heq. Qed.

Lemma Ev_ReadAll_inv b a b' a' :
  Ev (ReadAll b) a = Ev (ReadAll b') a' -> a = a'.
Proof. intros Heq. apply (f_equal read_answer) in Heq. now inversion Heq. Qed.

Lemma cons_eq_inv {A : Type} (a b : A) (l l' : list A) :
  a :: l = b :: l' -> a = b /\ l = l'.
Proof. intros Heq. now inversion Heq. Qed.

(** Take a list equation apart, element by element. *)
Tactic Notation "unzip" hyp(H) :=
  simpl in H;
  repeat (let He := fresh "He" in let Ht := fresh "Ht" in
          apply cons_eq_inv in H as [He Ht]; rename Ht into H;
          try discriminate He).

(** Answers of type [unit] are [tt]. *)
Ltac units :=
  repeat match goal with
         | u : answer ?c |- _ =>
             match eval simpl in (answer c) with unit => destruct u end
         end.

Section UpWaitFacts.
Context `{GoLib} {W : Type} (os : forall c : call, W -> answer c * W).

Ltac ask :=
  match goal with
  | Hrun : context [os ?c ?w] |- _ =>
      let a := fresh "a" in let w' := fresh "w" in
      destruct (os c w) as [a w']; simpl in Hrun
  end.

(** Where [pre] ends in a trace of six events at most. *)
Tactic Notation "split_pre" ident(pre) hyp(Htr) :=
  destruct pre as [|? [|? [|? [|? [|? [|? ?]]]]]]; unzip Htr;
  try discriminate;
  try match type of Htr with [] = ?l ++ _ => destruct l; discriminate Htr end.

Lemma up_wait_answered (pid : Z) (port : string) (n : nat) :
  forall (w : W) (pingErr : option error) r w' tr pre url resp rd post,
    run os (up_wait n pid port pingErr) w = (r, w', tr) ->
    tr = pre ++ Ev (HttpGet url) (Ok resp) :: Ev (ReadAll resp) rd :: post ->
    match Atoi (TrimSpace rd.1) with
    | Error err =>
        r = Some (Errorf ("/pid did not return an int :: " +:+ Error_text err)) /\
        post = [Ev (BodyClose resp) tt]
    | Ok p =>
        if p =? pid then
          r = None /\
          post = [Ev (Printf ("ready" +:+ newline)) tt; Ev (BodyClose resp) tt]
        else
          r = Some (Errorf ("expected PID " +:+ itoa pid +:+ " but found " +:+
                            itoa p +:+ " (port conflict?)")) /\
          post = [Ev (BodyClose resp) tt]
    end.
Proof.
  induction n as [|n IH]; intros w pingErr r w' tr pre url resp rd post Hrun Htr;
    simpl in Hrun.
  - injection Hrun as <- <- <-. destruct pre; discriminate.
  - ask. destruct a as [[err|]|]; simpl in Hrun.
    + injection Hrun as <- <- <-. split_pre pre Htr.
    + injection Hrun as <- <- <-. split_pre pre Htr.
    + ask. ask. destruct a0 as [response|err]; simpl in Hrun.
      * ask. destruct a0 as [body rerr]. simpl in Hrun.
        destruct (Atoi (TrimSpace body)) as [p|err] eqn:Hp; simpl in Hrun;
          [destruct (p =? pid) eqn:Hpid; simpl in Hrun|].
        all: repeat ask; injection Hrun as <- <- <-.
        all: split_pre pre Htr.
        all: apply Ev_HttpGet_inv in He1; injection He1 as <-.
        all: apply Ev_ReadAll_inv in He2; subst rd; simpl; rewrite Hp.
        all: rewrite ?Hpid; subst post.
        all: units.
        all: split; reflexivity.
      * ask.
        destruct (run os (up_wait n pid port (Some err)) w3) as [[r0 w4] tr0] eqn:Hrec.
        injection Hrun as <- <- <-.
        destruct pre as [|? [|? [|? [|? pre]]]]; unzip Htr; try discriminate.
        eapply IH; [exact Hrec|exact Htr].
Qed.

(** C4.  In a round of the readiness loop in which [http.Get] succeeds and
    the body read, trimmed, is an integer [p], [up] returns at once: nil
    when [p] is the PID of the started process, after printing "ready"; and
    the error of a port conflict when it is not.  Nothing follows in the
    trace but the deferred close of the body: no sleep, no further round. *)
Theorem up_wait_pid_answer_is_final
    (n : nat) (pid : Z) (port : string) (pingErr : option error) (w : W)
    (pre post : list event) (url : string) (resp : Z)
    (rd : string * option error) (p : Z) :
  trace_of os (up_wait n pid port pingErr) w =
    pre ++ Ev (HttpGet url) (Ok resp) :: Ev (ReadAll resp) rd :: post ->
  Atoi (TrimSpace rd.1) = Ok p ->
  (p = pid ->
   result_of os (up_wait n pid port pingErr) w = None /\
   post = [Ev (Printf ("ready" +:+ newline)) tt; Ev (BodyClose resp) tt]) /\
  (p <> pid ->
   result_of os (up_wait n pid port pingErr) w =
     Some (Errorf ("expected PID " +:+ itoa pid +:+ " but found " +:+
                   itoa p +:+ " (port conflict?)")) /\
   post = [Ev (BodyClose resp) tt]).
Proof.
  unfold trace_of, result_of. intros Htr Hp.
  destruct (run os (up_wait n pid port pingErr) w) as [[r w'] tr] eqn:Hrun.
  simpl in *.
  pose proof (up_wait_answered _ _ _ _ _ _ _ _ _ _ _ rd _ Hrun Htr) as Hans.
  rewrite Hp in Hans. split; intros Hpid.
  - apply Z.eqb_eq in Hpid. now rewrite Hpid in Hans.
  - apply Z.eqb_neq in Hpid. now rewrite Hpid in Hans.
Qed.

(** C10.  In a round of the readiness loop in which [http.Get] succeeds and
    the body read, trimmed, is not an integer, [up] returns at once the
    error that /pid did not return an int, with the reason [Atoi] gave.
    Nothing follows in the trace but the deferred close of the body: no
    sleep, no further round. *)
Theorem up_wait_bad_pid_body_is_final
    (n : nat) (pid : Z) (port : string) (pingErr : option error) (w : W)
    (pre post : list event) (url : string) (resp : Z)
    (rd : string * option error) (err : error) :
  trace_of os (up_wait n pid port pingErr) w =
    pre ++ Ev (HttpGet url) (Ok resp) :: Ev (ReadAll resp) rd :: post ->
  Atoi (TrimSpace rd.1) = Error err ->
  result_of os (up_wait n pid port pingErr) w =
    Some (Errorf ("/pid did not return an int :: " +:+ Error_text err)) /\
  post = [Ev (BodyClose resp) tt].
Proof.
  unfold trace_of, result_of. intros Htr Hp.
  destruct (run os (up_wait n pid port pingErr) w) as [[r w'] tr] eqn:Hrun.
  simpl in *.
  pose proof (up_wait_answered _ _ _ _ _ _ _ _ _ _ _ rd _ Hrun Htr) as Hans.
  now rewrite Hp in Hans.
Qed.

Lemma last_cons {A : Type} (x d : A) (l : list A) :
  List.last (x :: l) d = List.last l x.
Proof.
  revert x d. induction l as [|y l IH]; intros x d; [reflexivity|].
  change (List.last (x :: y :: l) d) with (List.last (y :: l) d).
  now rewrite !IH.
Qed.

Lemma ping_errors_rounds pid port fails :
  ping_errors (rounds pid port fails) = map snd fails.
Proof.
  induction fails as [|round fails IH]; [reflexivity|].
  unfold ping_errors, rounds in *. simpl. f_equal. exact IH.
Qed.

(** The trace of the loop: failed rounds, then at most one round more. *)
Lemma up_wait_rounds (pid : Z) (port : string) (n : nat) :
  forall (w : W) (pingErr : option error) r w' tr,
    run os (up_wait n pid port pingErr) w = (r, w', tr) ->
    exists fails final,
      tr = rounds pid port fails ++ final /\
      (length fails <= n)%nat /\
      (attempts tr <= n)%nat /\
      (attempts final <= 1)%nat /\
      existsb is_sleep (map ev_call final) = false /\
      ping_errors final = [] /\
      (length fails = n ->
       r = Some (Errorf ("worker still not reachable after 30 seconds :: " +:+
                         fmt_error (last_ping fails pingErr)))).
Proof.
  induction n as [|n IH]; intros w pingErr r w' tr Hrun; simpl in Hrun.
  - injection Hrun as <- <- <-. exists [], []. repeat apply conj; auto.
  - ask. destruct a as [[err|]|]; simpl in Hrun.
    1,2: injection Hrun as <- <- <-; eexists [], _;
      repeat apply conj; [reflexivity|simpl; lia|unfold attempts; simpl; lia
                    |unfold attempts; simpl; lia
                    |reflexivity|reflexivity|discriminate].
    ask. ask. destruct a0 as [response|err]; simpl in Hrun.
    + ask. destruct a0 as [body rerr]. simpl in Hrun.
      destruct (Atoi (TrimSpace body)) as [p|err] eqn:Hp; simpl in Hrun;
        [destruct (p =? pid) eqn:Hpid; simpl in Hrun|].
      all: repeat ask; injection Hrun as <- <- <-; eexists [], _;
        repeat apply conj; [reflexivity|simpl; lia|unfold attempts; simpl; lia
                      |unfold attempts; simpl; lia
                      |reflexivity|reflexivity|discriminate].
    + ask.
      destruct (run os (up_wait n pid port (Some err)) w3) as [[r0 w4] tr0] eqn:Hrec.
      injection Hrun as <- <- <-.
      destruct (IH _ _ _ _ _ Hrec)
        as (fails & final & -> & Hlen & Hatt & Hfin & Hsl & Hpe & Hr).
      units. exists ((a, err) :: fails), final.
      repeat apply conj; try assumption.
      * reflexivity.
      * simpl. lia.
      * unfold attempts in *. simpl. lia.
      * intros Hn. simpl in Hn. unfold last_ping. simpl map.
        rewrite last_cons. apply Hr. lia.
Qed.

(** The trace of the loop, round by round. *)
Lemma up_wait_shape (pid : Z) (port : string) (n : nat) :
  forall (w : W) (pingErr : option error) r w' tr,
    run os (up_wait n pid port pingErr) w = (r, w', tr) ->
    exists fails final,
      tr = rounds pid port fails ++ final /\
      ((final = [] /\ length fails = n /\
        r = Some (Errorf ("worker still not reachable after 30 seconds :: " +:+
                          fmt_error (last_ping fails pingErr)))) \/
       (closing_round pid port final /\ (length fails < n)%nat)).
Proof.
  induction n as [|n IH]; intros w pingErr r w' tr Hrun; simpl in Hrun.
  - injection Hrun as <- <- <-. exists [], []. auto.
  - ask. destruct a as [[err|]|]; simpl in Hrun.
    1,2: injection Hrun as <- <- <-; eexists [], _;
      (split; [reflexivity|right; split; [constructor|simpl; lia]]).
    ask. ask. destruct a0 as [response|err]; simpl in Hrun.
    + ask. destruct a0 as [body rerr]. simpl in Hrun.
      destruct (Atoi (TrimSpace body)) as [p|err] eqn:Hp; simpl in Hrun;
        [destruct (p =? pid) eqn:Hpid; simpl in Hrun|].
      all: repeat ask; injection Hrun as <- <- <-; units; eexists [], _;
        (split; [reflexivity|right; split; [constructor|simpl; lia]]).
    + ask.
      destruct (run os (up_wait n pid port (Some err)) w3) as [[r0 w4] tr0] eqn:Hrec.
      injection Hrun as <- <- <-.
      destruct (IH _ _ _ _ _ Hrec) as (fails & final & -> & Hend).
      units. exists ((a, err) :: fails), final. split; [reflexivity|].
      destruct Hend as [(-> & Hn & Hr)|[Hc Hn]]; [left|right].
      * repeat apply conj; [reflexivity|simpl; lia|].
        rewrite Hr. unfold last_ping. simpl map. now rewrite last_cons.
      * split; [assumption|simpl; lia].
Qed.

Lemma requests_app tr1 tr2 : requests (tr1 ++ tr2) = (requests tr1 + requests tr2)%nat.
Proof. unfold requests. now rewrite map_app, List.filter_app, length_app. Qed.

Lemma requests_rounds pid port fails :
  requests (rounds pid port fails) = length fails.
Proof.
  induction fails as [|round fails IH]; [reflexivity|].
  unfold requests, rounds in *. simpl. now rewrite IH.
Qed.

(** C5.  The trace of the readiness loop is a sequence of rounds in which the
    connection failed, each made of the look at the [died] channel, the
    probe, the failed [http.Get] and a sleep of 100ms, followed either by
    nothing, when they are 300, or else by one closing round, which makes
    no failed request and does not sleep.  So the loop sends 300 requests
    at most.  When all 300 rounds failed to connect, [up] returns the error
    that the worker is still not reachable, with the text of the error of
    the last [http.Get]. *)
Theorem up_wait_is_bounded (pid : Z) (port : string) (w : W) :
  (attempts (trace_of os (up_wait 300 pid port None) w) <= 300)%nat /\
  (requests (trace_of os (up_wait 300 pid port None) w) <= 300)%nat /\
  (exists fails final,
     trace_of os (up_wait 300 pid port None) w = rounds pid port fails ++ final /\
     ((final = [] /\ length fails = 300%nat /\
       result_of os (up_wait 300 pid port None) w =
         Some (Errorf ("worker still not reachable after 30 seconds :: " +:+
                       fmt_error (last_ping fails None)))) \/
      (closing_round pid port final /\ (length fails < 300)%nat))) /\
  (length (ping_errors (trace_of os (up_wait 300 pid port None) w)) = 300%nat ->
   exists e,
     List.last (map Some (ping_errors (trace_of os (up_wait 300 pid port None) w)))
       None = Some e /\
     result_of os (up_wait 300 pid port None) w =
       Some (Errorf ("worker still not reachable after 30 seconds :: " +:+
                     Error_text e))).
Proof.
  unfold trace_of, result_of.
  destruct (run os (up_wait 300 pid port None) w) as [[r w'] tr] eqn:Hrun.
  simpl.
  destruct (up_wait_rounds _ _ _ _ _ _ _ _ Hrun)
    as (fails & final & Htr & Hlen & Hatt & Hfin & Hsl & Hpe & Hr).
  destruct (up_wait_shape _ _ _ _ _ _ _ _ Hrun)
    as (fails' & final' & Htr' & Hend).
  split; [exact Hatt|]. split; [|split].
  - rewrite Htr', requests_app, requests_rounds.
    destruct Hend as [(-> & Hn & _)|[Hc Hn]]; [unfold requests; simpl; lia|].
    destruct Hc; unfold requests; simpl; lia.
  - exists fails', final'. split; [exact Htr'|].
    destruct Hend as [(-> & Hn & Hres)|[Hc Hn]]; [left|right]; auto.
  - unfold ping_errors in *. rewrite Htr, omap_app, Hpe, app_nil_r.
    fold (ping_errors (rounds pid port fails)). rewrite ping_errors_rounds.
    rewrite length_map. intros Hn. specialize (Hr Hn).
    destruct (exists_last (l := fails)) as (fails'' & round & ->);
      [intros ->; discriminate|].
    exists round.2. split.
    + rewrite !map_app. simpl. now rewrite last_last.
    + rewrite Hr. unfold last_ping. rewrite map_app. simpl. now rewrite last_last.
Qed.

End UpWaitFacts.

Lemma up_wait_pid_answer_is_final_witness :
  trace_of Demo.os (up_wait (H := Demo.lib) 300 4242 "5000" None) Demo.start =
    [Ev RecvDied None; Ev (Signal 4242 0) None] ++
    Ev (HttpGet "http://localhost:5000/pid") (Ok 7) ::
    Ev (ReadAll 7) ("4242" +:+ newline, None) ::
    [Ev (Printf ("ready" +:+ newline)) tt; Ev (BodyClose 7) tt] /\
  Atoi (TrimSpace (GoLib := Demo.lib) ("4242" +:+ newline)) = Ok 4242 /\
  result_of Demo.os (up_wait (H := Demo.lib) 300 4242 "5000" None) Demo.start = None.
Proof.
  assert (Htr : trace_of Demo.os (up_wait (H := Demo.lib) 300 4242 "5000" None)
                  Demo.start =
                [Ev RecvDied None; Ev (Signal 4242 0) None] ++
                Ev (HttpGet "http://localhost:5000/pid") (Ok 7) ::
                Ev (ReadAll 7) ("4242" +:+ newline, None) ::
                [Ev (Printf ("ready" +:+ newline)) tt; Ev (BodyClose 7) tt])
    by (vm_compute; reflexivity).
  assert (Hp : Atoi (TrimSpace (GoLib := Demo.lib) ("4242" +:+ newline)) = Ok 4242)
    by (vm_compute; reflexivity).
  split; [exact Htr|]. split; [exact Hp|].
  exact (proj1 (proj1 (up_wait_pid_answer_is_final (H := Demo.lib) Demo.os
                         300 4242 "5000" None Demo.start _ _ _ 7
                         ("4242" +:+ newline, None) 4242 Htr Hp) eq_refl)).
Defined.

Lemma up_wait_bad_pid_body_is_final_witness :
  trace_of Demo.os (up_wait (H := Demo.lib) 300 4242 "5000" None) Demo.not_ready =
    rounds 4242 "5000" [(None, Errorf "connection refused");
                        (None, Errorf "connection refused")] ++
    [Ev RecvDied None; Ev (Signal 4242 0) None] ++
    Ev (HttpGet "http://localhost:5000/pid") (Ok 7) ::
    Ev (ReadAll 7) ("starting", None) :: [Ev (BodyClose 7) tt] /\
  Atoi (TrimSpace (GoLib := Demo.lib) "starting") =
    Error (NumError "Atoi" "starting" ErrSyntax) /\
  result_of Demo.os (up_wait (H := Demo.lib) 300 4242 "5000" None) Demo.not_ready =
    Some (Errorf ("/pid did not return an int :: strconv.Atoi: parsing " +:+
                  dquote +:+ "starting" +:+ dquote +:+ ": invalid syntax")).
Proof.
  assert (Htr : trace_of Demo.os (up_wait (H := Demo.lib) 300 4242 "5000" None)
                  Demo.not_ready =
                (rounds 4242 "5000" [(None, Errorf "connection refused");
                                     (None, Errorf "connection refused")] ++
                 [Ev RecvDied None; Ev (Signal 4242 0) None]) ++
                Ev (HttpGet "http://localhost:5000/pid") (Ok 7) ::
                Ev (ReadAll 7) ("starting", None) :: [Ev (BodyClose 7) tt])
    by (vm_compute; reflexivity).
  assert (Hp : Atoi (TrimSpace (GoLib := Demo.lib) "starting") =
               Error (NumError "Atoi" "starting" ErrSyntax))
    by (vm_compute; reflexivity).
  split; [rewrite Htr, <- app_assoc; reflexivity|]. split; [exact Hp|].
  exact (proj1 (up_wait_bad_pid_body_is_final (H := Demo.lib) Demo.os
                  300 4242 "5000" None Demo.not_ready _ _ _ 7
                  ("starting", None) _ Htr Hp)).
Defined.

Lemma up_wait_is_bounded_witness :
  length (ping_errors (trace_of Demo.os (up_wait (H := Demo.lib) 300 4242 "5000" None)
                         Demo.unreachable)) = 300%nat /\
  exists e,
    List.last (map Some (ping_errors
                 (trace_of Demo.os (up_wait (H := Demo.lib) 300 4242 "5000" None)
                    Demo.unreachable))) None = Some e /\
    result_of Demo.os (up_wait (H := Demo.lib) 300 4242 "5000" None)
      Demo.unreachable =
      Some (Errorf ("worker still not reachable after 30 seconds :: " +:+
                    Error_text (H := Demo.lib) e)).
Proof.
  assert (Hn : length (ping_errors
                  (trace_of Demo.os (up_wait (H := Demo.lib) 300 4242 "5000" None)
                     Demo.unreachable)) = 300%nat)
    by (vm_compute; reflexivity).
  split; [exact Hn|].
  exact (proj2 (proj2 (proj2 (up_wait_is_bounded (H := Demo.lib) Demo.os 4242
                                "5000" Demo.unreachable))) Hn).
Defined.

Example up_unreachable_text :
  result_of Demo.os (up (H := Demo.lib) Demo.ctx) Demo.unreachable =
    Some (Errorf "worker still not reachable after 30 seconds :: connection refused").
Proof. vm_compute. reflexivity. Qed.

(** ** down *)

Section DownFacts.
Context `{GoLib} {W : Type} (os : forall c : call, W -> answer c * W).

Ltac ask :=
  match goal with
  | Hrun : context [os ?c ?w] |- _ =>
      let a := fresh "a" in let w' := fresh "w" in
      destruct (os c w) as [a w']; simpl in Hrun
  end.

Lemma down_wait_probes (pid : Z) (n : nat) :
  forall (w : W) r w' tr,
    run os (down_wait n pid) w = (r, w', tr) ->
    (length (List.filter probe_alive tr) <= n)%nat /\
    (length (List.filter probe_alive tr) = n ->
     r = Some (Errorf "worker didn't stop after 30s")).
Proof.
  induction n as [|n IH]; intros w r w' tr Hrun; simpl in Hrun.
  - injection Hrun as <- <- <-. auto.
  - ask. destruct a as [err|]; simpl in Hrun.
    + ask. injection Hrun as <- <- <-. simpl. split; [lia|discriminate].
    + ask.
      destruct (run os (down_wait n pid) w1) as [[r0 w2] tr0] eqn:Hrec.
      injection Hrun as <- <- <-.
      destruct (IH _ _ _ _ Hrec) as [Hle Heq].
      simpl. split; [lia|]. intros Hn. apply Heq. lia.
Qed.

Opaque down_wait.

(** C6, as amended.  When the zero-signal probe of [down] has found the
    process alive 300 times, [down] returns the error of the timeout; its
    text is "worker didn't stop after 30s", whatever the PID. *)
Theorem down_times_out_when_alive (ctx : Context) (w : W) :
  length (List.filter probe_alive (trace_of os (down ctx) w)) = 300%nat ->
  result_of os (down ctx) w = Return (Some (Errorf "worker didn't stop after 30s")).
Proof.
  unfold trace_of, result_of.
  destruct (run os (down ctx) w) as [[r w'] tr] eqn:Hrun. simpl.
  unfold down in Hrun. simpl in Hrun.
  ask. destruct a as [olPath|e]; simpl in Hrun;
    [|injection Hrun as <- <- <-; discriminate].
  ask. destruct a as [Conf|e]; simpl in Hrun;
    [|injection Hrun as <- <- <-; discriminate].
  ask. destruct a as [data|e]; simpl in Hrun;
    [|injection Hrun as <- <- <-; discriminate].
  destruct (Atoi data) as [pid|e]; simpl in Hrun;
    [|injection Hrun as <- <- <-; discriminate].
  ask. ask. destruct a0 as [e|]; simpl in Hrun.
  { do 2 ask. injection Hrun as <- <- <-. discriminate. }
  ask. destruct a0 as [e|]; simpl in Hrun; [do 2 ask|].
  all: rewrite run_bind in Hrun.
  all: match type of Hrun with context [run os (down_wait 300 ?p) ?w6] =>
         destruct (run os (down_wait 300 p) w6) as [[r0 wl] tr0] eqn:Hloop
       end.
  all: simpl in Hrun; injection Hrun as <- <- <-.
  all: destruct (down_wait_probes _ _ _ _ _ _ Hloop) as [_ Heq].
  all: simpl; replace (SIGINT =? 0) with false by reflexivity.
  all: rewrite app_nil_r; intros Hn; now rewrite Heq.
Qed.

Transparent down_wait.

End DownFacts.

Lemma down_times_out_when_alive_witness :
  length (List.filter probe_alive
            (trace_of Demo.os (down (H := Demo.lib) Demo.ctx) Demo.start)) = 300%nat /\
  result_of Demo.os (down (H := Demo.lib) Demo.ctx) Demo.start =
    Return (Some (Errorf "worker didn't stop after 30s")).
Proof.
  assert (Hn : length (List.filter probe_alive
                  (trace_of Demo.os (down (H := Demo.lib) Demo.ctx) Demo.start)) =
               300%nat)
    by (vm_compute; reflexivity).
  split; [exact Hn|].
  exact (down_times_out_when_alive (H := Demo.lib) Demo.os Demo.ctx Demo.start Hn).
Defined.

(** C6, as the specification has it, fails for the worker 4242 that stays
    alive: the error returned does not hold the PID, nor a word on what to
    do by hand. *)
Lemma down_timeout_names_no_pid :
  In (Ev (Signal 4242 SIGINT) None)
     (trace_of Demo.os (down (H := Demo.lib) Demo.ctx) Demo.start) /\
  length (List.filter probe_alive
            (trace_of Demo.os (down (H := Demo.lib) Demo.ctx) Demo.start)) = 300%nat /\
  exists e,
    result_of Demo.os (down (H := Demo.lib) Demo.ctx) Demo.start = Return (Some e) /\
    mentions (Error_text (H := Demo.lib) e) (itoa 4242) = false /\
    mentions (Error_text (H := Demo.lib) e) "manual" = false.
Proof.
  split; [|split].
  - vm_compute. do 5 right. left. reflexivity.
  - vm_compute. reflexivity.
  - eexists. split; [vm_compute; reflexivity|]. split; vm_compute; reflexivity.
Qed.

(** ** cleanup *)

Section CleanupFacts.
Context `{GoLib} {W : Type} (os : forall c : call, W -> answer c * W).

Ltac ask :=
  match goal with
  | |- context [os ?c ?w] =>
      let a := fresh "a" in let w' := fresh "w" in
      destruct (os c w) as [a w']; simpl
  end.

Lemma effects_app (tr1 tr2 : list event) :
  effects (tr1 ++ tr2) = effects tr1 ++ effects tr2.
Proof. unfold effects. now rewrite map_app, List.filter_app. Qed.

Lemma effects_cons (e : event) (tr : list event) :
  effects (e :: tr) =
  (if is_print (ev_call e) then [] else [ev_call e]) ++ effects tr.
Proof. unfold effects. simpl. now destruct (is_print (ev_call e)). Qed.

Lemma reported_from_app (pending : bool) (tr1 tr2 : list event) :
  reported_from pending tr1 = true ->
  reported_from false tr2 = true ->
  reported_from pending (tr1 ++ tr2) = true.
Proof.
  revert pending. induction tr1 as [|e tr1 IH]; simpl; intros pending H1 H2.
  - destruct pending; [discriminate|exact H2].
  - apply andb_true_iff in H1 as [Ha Hb]. rewrite Ha. simpl. now apply IH.
Qed.

(** A diagnostic is printed when there is an error, and only then. *)
Lemma report_run (err : option error) (text : error -> string) (w : W) :
  exists w' tr,
    run os (report err text) w = (tt, w', tr) /\
    effects tr = [] /\
    reported_from (is_err err) tr = true.
Proof.
  destruct err as [e|]; simpl; [ask; units|]; eauto.
Qed.

Lemma remove_cgroups_run (cgRoot : string) (files : list string) :
  forall w : W, exists w' tr,
    run os (remove_cgroups cgRoot files) w = (tt, w', tr) /\
    effects tr =
      map (fun name => Rmdir (filepath_Join [cgRoot; name]))
          (List.filter (fun name => HasPrefix name "cg-") files) /\
    reported_from false tr = true.
Proof.
  induction files as [|name files IH]; intros w; simpl; [eauto|].
  rewrite run_bind.
  destruct (HasPrefix name "cg-"); simpl.
  - do 2 ask.
    destruct (report_run a0 (fun e => "could remove cgroup: " +:+ Error_text e +:+ newline) w1)
      as (w2 & tr2 & Hrep & Heff & Hok).
    rewrite Hrep.
    destruct (IH w2) as (w3 & tr3 & -> & Heff3 & Hok3).
    do 2 eexists. split; [reflexivity|]. units. split.
    + rewrite effects_app, !effects_cons, Heff, Heff3. reflexivity.
    + simpl. now apply reported_from_app.
  - destruct (IH w) as (w3 & tr3 & -> & Heff3 & Hok3). eauto.
Qed.

Lemma unmount_all_run (dirName : string) (files : list string) :
  forall w : W, exists w' tr,
    run os (unmount_all dirName files) w = (tt, w', tr) /\
    effects tr = mount_steps dirName (Ok files) /\
    reported_from false tr = true.
Proof.
  induction files as [|name files IH]; intros w; simpl; [eauto|].
  do 2 ask. rewrite run_bind.
  destruct (report_run a0 (fun e => "could not unmount: " +:+ Error_text e +:+ newline) w1)
    as (w2 & tr2 & -> & Heff2 & Hok2).
  simpl. ask. rewrite run_bind.
  destruct (report_run a1 (fun e => "could remove mount dir: " +:+ Error_text e +:+ newline) w3)
    as (w4 & tr4 & -> & Heff4 & Hok4).
  destruct (IH w4) as (w5 & tr5 & -> & Heff5 & Hok5).
  do 2 eexists. split; [reflexivity|]. units. split.
  - rewrite !effects_cons, !effects_app, !effects_cons, !effects_app.
    rewrite Heff2, Heff4, Heff5. reflexivity.
  - simpl. apply reported_from_app; [exact Hok2|].
    simpl. now apply reported_from_app.
Qed.

Lemma cleanup_cgroups_run (cgRoot : string) (w : W) :
  exists w' listing tr,
    run os (cleanup_cgroups cgRoot) w = (tt, w', Ev (ReadDir cgRoot) listing :: tr) /\
    effects tr = cgroup_steps cgRoot listing /\
    reported_from (is_error listing) tr = true.
Proof.
  unfold cleanup_cgroups. simpl. ask. destruct a as [files|err]; simpl.
  - ask. rewrite run_bind.
    destruct (report_run a (fun e => "could kill processes in cgroup: " +:+
                                     Error_text e +:+ newline) w1)
      as (w2 & tr2 & -> & Heff2 & Hok2).
    rewrite run_bind.
    destruct (remove_cgroups_run cgRoot files w2) as (w3 & tr3 & -> & Heff3 & Hok3).
    simpl. ask.
    destruct (report_run a0 (fun e => "could remove cgroup root: " +:+
                                      Error_text e +:+ newline) w4)
      as (w5 & tr5 & -> & Heff5 & Hok5).
    do 3 eexists. split; [reflexivity|]. split.
    + rewrite !effects_cons, !effects_app, !effects_cons, Heff2, Heff3, Heff5.
      reflexivity.
    + simpl. apply reported_from_app; [exact Hok2|].
      apply reported_from_app; [exact Hok3|]. simpl. exact Hok5.
  - ask. units. do 3 eexists. repeat apply conj; reflexivity.
Qed.

Lemma cleanup_mounts_run (dirName : string) (w : W) :
  exists w' listing tr,
    run os (cleanup_mounts dirName) w = (tt, w', Ev (ReadDir dirName) listing :: tr) /\
    effects tr = mount_steps dirName listing /\
    reported_from (is_error listing) tr = true.
Proof.
  unfold cleanup_mounts. simpl. ask. destruct a as [files|err]; simpl.
  - destruct (unmount_all_run dirName files w0) as (w1 & tr1 & -> & Heff1 & Hok1).
    do 3 eexists. split; [reflexivity|]. split; assumption.
  - ask. units. do 3 eexists. repeat apply conj; reflexivity.
Qed.

Opaque cleanup_cgroups cleanup_mounts.

(** The run of [cleanup] once the path is known: what it does before,
    between and after the two listings. *)
Lemma cleanup_run (ctx : Context) (w : W) (olPath : string) :
  (os (GetOlPath ctx) w).1 = Ok olPath ->
  exists w' pre cgroups mid mounts post,
    run os (cleanup ctx) w =
      (None, w',
       pre ++ Ev (ReadDir (cgroup_root olPath)) cgroups ::
       mid ++ Ev (ReadDir (mount_root olPath)) mounts :: post) /\
    effects pre = [GetOlPath ctx] /\
    effects mid = cgroup_steps (cgroup_root olPath) cgroups /\
    effects post = mount_steps (mount_root olPath) mounts ++ final_steps olPath /\
    failures_reported
      (pre ++ Ev (ReadDir (cgroup_root olPath)) cgroups ::
       mid ++ Ev (ReadDir (mount_root olPath)) mounts :: post) = true.
Proof.
  intros Hpath. unfold cleanup. simpl.
  destruct (os (GetOlPath ctx) w) as [a w0]. simpl in Hpath. subst a. simpl.
  ask. rewrite run_bind.
  destruct (cleanup_cgroups_run (cgroup_root olPath) w1)
    as (w2 & cgroups & mid & Hcg & Hmid & Hokc).
  unfold cgroup_root in Hcg at 1 2. rewrite Hcg. simpl.
  ask. rewrite run_bind.
  destruct (cleanup_mounts_run (mount_root olPath) w3)
    as (w4 & mounts & tr4 & Hmn & Hpost & Hokm).
  unfold mount_root in Hmn at 1 2. rewrite Hmn. simpl.
  ask. rewrite run_bind.
  destruct (report_run a1 (fun e => "could not unmount " +:+
                             filepath_Join [olPath; "worker"; "root-sandboxes"] +:+
                             ": " +:+ Error_text e +:+ newline) w5)
    as (w6 & tr6 & -> & Heff6 & Hok6).
  simpl. ask.
  destruct (report_run a2 (fun e => "could not remove worker.pid: " +:+
                                    Error_text e +:+ newline) w7)
    as (w8 & tr8 & Hr8 & Heff8 & Hok8).
  rewrite run_bind, Hr8. simpl. units.
  exists w8,
    [Ev (GetOlPath ctx) (Ok olPath);
     Ev (Printf ("ATTEMPT to cleanup cgroups at " +:+
                 filepath_Join ["/sys"; "fs"; "cgroup";
                                filepath_Base olPath +:+ "-sandboxes"] +:+
                 newline)) tt],
    cgroups,
    (mid ++ [Ev (Printf ("ATTEMPT to cleanup mounts at " +:+
                         filepath_Join [olPath; "worker"; "root-sandboxes"] +:+
                         newline)) tt]),
    mounts,
    (tr4 ++ Ev (Unmount (mount_root olPath) MNT_DETACH) a1 ::
     tr6 ++ Ev (Remove (filepath_Join [olPath; "worker"; "worker.pid"])) a2 :: tr8).
  repeat apply conj.
  - simpl. rewrite <- !app_assoc, app_nil_r. reflexivity.
  - reflexivity.
  - rewrite effects_app, Hmid. simpl. now rewrite app_nil_r.
  - rewrite effects_app, effects_cons, effects_app, effects_cons.
    rewrite Hpost, Heff6, Heff8. reflexivity.
  - unfold failures_reported. simpl.
    rewrite <- app_assoc.
    apply reported_from_app; [exact Hokc|]. simpl.
    apply reported_from_app; [exact Hokm|]. simpl.
    apply reported_from_app; [exact Hok6|]. simpl. exact Hok8.
Qed.

Transparent cleanup_cgroups cleanup_mounts.

Lemma diagnosed_app words1 words2 pending tr1 tr2 :
  diagnosed words1 pending tr1 ->
  diagnosed words2 None tr2 ->
  diagnosed (words1 ++ words2) pending (tr1 ++ tr2).
Proof.
  revert words1 pending.
  induction tr1 as [|e tr1 IH]; simpl; intros words1 pending H1 H2.
  - destruct H1 as [-> ->]. exact H2.
  - destruct pending as [text|].
    + destruct H1 as [-> H1]. split; [reflexivity|]. now apply IH.
    + destruct (is_print (ev_call e)); [now apply IH|].
      destruct words1 as [|w words1]; [destruct H1|]. simpl. now apply IH.
Qed.

Lemma append_assoc (s1 s2 s3 : string) :
  (s1 +:+ s2) +:+ s3 = s1 +:+ s2 +:+ s3.
Proof.
  induction s1 as [|c s1 IH]; [reflexivity|].
  change (String c ((s1 +:+ s2) +:+ s3) = String c (s1 +:+ s2 +:+ s3)).
  now f_equal.
Qed.

(** The diagnostic is printed when there is an error, and only then. *)
Lemma report_trace (err : option error) (text : error -> string)
    (words : string) (w : W) :
  (forall e, text e = diagnostic words e) ->
  exists w' tr,
    run os (report err text) w = (tt, w', tr) /\
    effects tr = [] /\
    reported_from (is_err err) tr = true /\
    diagnosed [] (option_map (diagnostic words) err) tr.
Proof.
  intros Htext.
  destruct err as [e|]; simpl; [ask; units; rewrite Htext|]; do 2 eexists;
    repeat apply conj; try reflexivity; simpl; auto.
Qed.

Lemma remove_cgroups_trace (cgRoot : string) (files : list string) :
  forall w : W, exists w' tr,
    run os (remove_cgroups cgRoot files) w = (tt, w', tr) /\
    effects tr =
      map (fun name => Rmdir (filepath_Join [cgRoot; name]))
          (List.filter (fun name => HasPrefix name "cg-") files) /\
    reported_from false tr = true /\
    diagnosed (map (fun _ => "could remove cgroup: ")
                 (List.filter (fun name => HasPrefix name "cg-") files))
      None tr.
Proof.
  induction files as [|name files IH]; intros w; simpl;
    [do 2 eexists; repeat apply conj; try reflexivity; simpl; auto|].
  rewrite run_bind.
  destruct (HasPrefix name "cg-"); simpl.
  - do 2 ask.
    destruct (report_trace a0 (fun e => "could remove cgroup: " +:+ Error_text e +:+ newline)
                "could remove cgroup: " w1 (fun _ => eq_refl))
      as (w2 & tr2 & Hrep & Heff & Hok & Hd).
    rewrite Hrep.
    destruct (IH w2) as (w3 & tr3 & -> & Heff3 & Hok3 & Hd3).
    do 2 eexists. split; [reflexivity|]. units. repeat apply conj.
    + rewrite effects_app, !effects_cons, Heff, Heff3. reflexivity.
    + simpl. now apply reported_from_app.
    + simpl. now apply (diagnosed_app [] _ _ tr2 tr3).
  - destruct (IH w) as (w3 & tr3 & -> & Heff3 & Hok3 & Hd3).
    exists w3, tr3. auto.
Qed.

Lemma unmount_all_trace (dirName : string) (files : list string) :
  forall w : W, exists w' tr,
    run os (unmount_all dirName files) w = (tt, w', tr) /\
    effects tr = mount_steps dirName (Ok files) /\
    reported_from false tr = true /\
    diagnosed (mount_words (Ok files)) None tr.
Proof.
  induction files as [|name files IH]; intros w; simpl;
    [do 2 eexists; repeat apply conj; try reflexivity; simpl; auto|].
  do 2 ask. rewrite run_bind.
  destruct (report_trace a0 (fun e => "could not unmount: " +:+ Error_text e +:+ newline)
                "could not unmount: " w1 (fun _ => eq_refl))
    as (w2 & tr2 & -> & Heff2 & Hok2 & Hd2).
  simpl. ask. rewrite run_bind.
  destruct (report_trace a1 (fun e => "could remove mount dir: " +:+ Error_text e +:+ newline)
                "could remove mount dir: " w3 (fun _ => eq_refl))
    as (w4 & tr4 & -> & Heff4 & Hok4 & Hd4).
  destruct (IH w4) as (w5 & tr5 & -> & Heff5 & Hok5 & Hd5).
  do 2 eexists. split; [reflexivity|]. units. repeat apply conj.
  - rewrite !effects_cons, !effects_app, !effects_cons, !effects_app.
    rewrite Heff2, Heff4, Heff5. reflexivity.
  - simpl. apply reported_from_app; [exact Hok2|].
    simpl. now apply reported_from_app.
  - simpl. apply (diagnosed_app [] _ _ tr2 _ Hd2). simpl.
    now apply (diagnosed_app [] _ _ tr4 tr5).
Qed.

Lemma cleanup_cgroups_trace (cgRoot : string) (w : W) :
  exists w' listing tr,
    run os (cleanup_cgroups cgRoot) w = (tt, w', Ev (ReadDir cgRoot) listing :: tr) /\
    effects tr = cgroup_steps cgRoot listing /\
    reported_from (is_error listing) tr = true /\
    diagnosed (cgroup_words listing)
      (option_map (diagnostic "could not find cgroup root: ")
         (step_error (Ev (ReadDir cgRoot) listing))) tr.
Proof.
  unfold cleanup_cgroups. simpl. ask. destruct a as [files|err]; simpl.
  - ask. rewrite run_bind.
    destruct (report_trace a (fun e => "could kill processes in cgroup: " +:+ Error_text e +:+ newline)
                "could kill processes in cgroup: " w1 (fun _ => eq_refl))
      as (w2 & tr2 & -> & Heff2 & Hok2 & Hd2).
    rewrite run_bind.
    destruct (remove_cgroups_trace cgRoot files w2)
      as (w3 & tr3 & -> & Heff3 & Hok3 & Hd3).
    simpl. ask.
    destruct (report_trace a0 (fun e => "could remove cgroup root: " +:+ Error_text e +:+ newline)
                "could remove cgroup root: " w4 (fun _ => eq_refl))
      as (w5 & tr5 & -> & Heff5 & Hok5 & Hd5).
    do 3 eexists. split; [reflexivity|]. repeat apply conj.
    + rewrite !effects_cons, !effects_app, !effects_cons, Heff2, Heff3, Heff5.
      reflexivity.
    + simpl. apply reported_from_app; [exact Hok2|].
      apply reported_from_app; [exact Hok3|]. simpl. exact Hok5.
    + simpl. apply (diagnosed_app [] _ _ tr2 _ Hd2).
      apply (diagnosed_app _ [_] _ tr3 _ Hd3). simpl. exact Hd5.
  - ask. units. do 3 eexists. repeat apply conj; try reflexivity. simpl. auto.
Qed.

Lemma cleanup_mounts_trace (dirName : string) (w : W) :
  exists w' listing tr,
    run os (cleanup_mounts dirName) w = (tt, w', Ev (ReadDir dirName) listing :: tr) /\
    effects tr = mount_steps dirName listing /\
    reported_from (is_error listing) tr = true /\
    diagnosed (mount_words listing)
      (option_map (diagnostic "could not find mount root: ")
         (step_error (Ev (ReadDir dirName) listing))) tr.
Proof.
  unfold cleanup_mounts. simpl. ask. destruct a as [files|err]; simpl.
  - destruct (unmount_all_trace dirName files w0)
      as (w1 & tr1 & -> & Heff1 & Hok1 & Hd1).
    do 3 eexists. split; [reflexivity|]. repeat apply conj; assumption.
  - ask. units. do 3 eexists. repeat apply conj; try reflexivity. simpl. auto.
Qed.

Opaque cleanup_cgroups cleanup_mounts.

(** The run of [cleanup] once the path is known. *)
Lemma cleanup_trace (ctx : Context) (w : W) (olPath : string) :
  (os (GetOlPath ctx) w).1 = Ok olPath ->
  exists w' cgroups mounts rest,
    run os (cleanup ctx) w = (None, w', Ev (GetOlPath ctx) (Ok olPath) :: rest) /\
    In (Ev (ReadDir (cgroup_root olPath)) cgroups) rest /\
    In (Ev (ReadDir (mount_root olPath)) mounts) rest /\
    effects (Ev (GetOlPath ctx) (Ok olPath) :: rest) =
      cleanup_steps ctx olPath cgroups mounts /\
    failures_reported (Ev (GetOlPath ctx) (Ok olPath) :: rest) = true /\
    diagnosed (cleanup_words olPath cgroups mounts) None rest.
Proof.
  intros Hpath. unfold cleanup. simpl.
  destruct (os (GetOlPath ctx) w) as [a w0]. simpl in Hpath. subst a. simpl.
  ask. rewrite run_bind.
  destruct (cleanup_cgroups_trace (cgroup_root olPath) w1)
    as (w2 & cgroups & mid & Hcg & Hmid & Hokc & Hdc).
  unfold cgroup_root in Hcg at 1 2. rewrite Hcg. simpl.
  ask. rewrite run_bind.
  destruct (cleanup_mounts_trace (mount_root olPath) w3)
    as (w4 & mounts & tr4 & Hmn & Hpost & Hokm & Hdm).
  unfold mount_root in Hmn at 1 2. rewrite Hmn. simpl.
  ask. rewrite run_bind.
  destruct (report_trace a1
              (fun e => "could not unmount " +:+
                        filepath_Join [olPath; "worker"; "root-sandboxes"] +:+
                        ": " +:+ Error_text e +:+ newline)
              ("could not unmount " +:+ mount_root olPath +:+ ": ") w5)
    as (w6 & tr6 & -> & Heff6 & Hok6 & Hd6).
  { intros e. unfold diagnostic, mount_root. now rewrite !append_assoc. }
  simpl. ask.
  destruct (report_trace a2 (fun e => "could not remove worker.pid: " +:+ Error_text e +:+ newline)
                "could not remove worker.pid: " w7 (fun _ => eq_refl))
    as (w8 & tr8 & Hr8 & Heff8 & Hok8 & Hd8).
  rewrite run_bind, Hr8. simpl. units.
  exists w8, cgroups, mounts. eexists. split; [reflexivity|].
  rewrite app_nil_r. repeat apply conj.
  - right. left. reflexivity.
  - right. right. apply in_or_app. right. right. left. reflexivity.
  - repeat (rewrite effects_cons || rewrite effects_app).
    rewrite Hmid, Hpost, Heff6, Heff8. unfold cleanup_steps, final_steps.
    simpl. reflexivity.
  - unfold failures_reported. simpl.
    apply reported_from_app; [exact Hokc|]. simpl.
    apply reported_from_app; [exact Hokm|]. simpl.
    apply reported_from_app; [exact Hok6|]. simpl. exact Hok8.
  - unfold cleanup_words. simpl.
    apply (diagnosed_app _ _ _ mid _ Hdc). simpl.
    apply (diagnosed_app _ [_; _] _ tr4 _ Hdm). simpl.
    apply (diagnosed_app [] [_] _ tr6 _ Hd6). simpl. exact Hd8.
Qed.

Transparent cleanup_cgroups cleanup_mounts.

(** C7.  Once the path of the environment is known, [cleanup] returns nil,
    whatever the operating system answers.  The calls it makes besides
    printing are fixed by the answers of the two listings alone: the kill of
    the cgroups, the removal of each cgroup and of their root when the root
    could be listed; the unmount and removal of each sandbox directory when
    their parent could be listed; and in any case the unmount of the parent
    and the removal of the PID file.  No failure of one of them keeps a
    later one from being made, and each failure is followed at once by the
    print of its diagnostic: the words the source has for that step, the
    text of the error, and a newline. *)
Theorem cleanup_never_fails (ctx : Context) (w : W) (olPath : string) :
  (os (GetOlPath ctx) w).1 = Ok olPath ->
  result_of os (cleanup ctx) w = None /\
  failures_reported (trace_of os (cleanup ctx) w) = true /\
  exists cgroups mounts,
    In (Ev (ReadDir (cgroup_root olPath)) cgroups) (trace_of os (cleanup ctx) w) /\
    In (Ev (ReadDir (mount_root olPath)) mounts) (trace_of os (cleanup ctx) w) /\
    effects (trace_of os (cleanup ctx) w) =
      cleanup_steps ctx olPath cgroups mounts /\
    exists rest,
      trace_of os (cleanup ctx) w = Ev (GetOlPath ctx) (Ok olPath) :: rest /\
      diagnosed (cleanup_words olPath cgroups mounts) None rest.
Proof.
  intros Hpath. unfold result_of, trace_of.
  destruct (cleanup_trace ctx w olPath Hpath)
    as (w' & cgroups & mounts & rest & -> & Hcg & Hmn & Heff & Hrep & Hd).
  simpl. split; [reflexivity|]. split; [exact Hrep|].
  exists cgroups, mounts. repeat apply conj; auto.
  exists rest. split; [reflexivity|exact Hd].
Qed.

(** C8, as amended.  In the mount phase of [cleanup] the parent directory
    root-sandboxes is unmounted, detached, after the listing of it and after
    the unmount and removal of each of its entries when it could be listed;
    when it could not be listed, the unmount of the parent is the next call
    made but for the diagnostic.  The removal of the PID file follows. *)
Theorem cleanup_unmounts_parent_after_listing
    (ctx : Context) (w : W) (olPath : string) :
  (os (GetOlPath ctx) w).1 = Ok olPath ->
  exists pre mounts post,
    trace_of os (cleanup ctx) w =
      pre ++ Ev (ReadDir (mount_root olPath)) mounts :: post /\
    effects post =
      mount_steps (mount_root olPath) mounts ++
      [Unmount (mount_root olPath) MNT_DETACH;
       Remove (filepath_Join [olPath; "worker"; "worker.pid"])].
Proof.
  intros Hpath. unfold trace_of.
  destruct (cleanup_run ctx w olPath Hpath)
    as (w' & pre & cgroups & mid & mounts & post & -> & Hpre & Hmid & Hpost & _).
  simpl.
  exists (pre ++ Ev (ReadDir (cgroup_root olPath)) cgroups :: mid), mounts, post.
  split; [|exact Hpost].
  now rewrite <- app_assoc.
Qed.

End CleanupFacts.

Lemma cleanup_never_fails_witness :
  (Demo.os (GetOlPath Demo.ctx) Demo.crashed).1 = Ok "/default-ol" /\
  result_of Demo.os (cleanup (H := Demo.lib) Demo.ctx) Demo.crashed = None /\
  failures_reported
    (trace_of Demo.os (cleanup (H := Demo.lib) Demo.ctx) Demo.crashed) = true /\
  exists cgroups mounts,
    In (Ev (ReadDir (cgroup_root (H := Demo.lib) "/default-ol")) cgroups)
       (trace_of Demo.os (cleanup (H := Demo.lib) Demo.ctx) Demo.crashed) /\
    In (Ev (ReadDir (mount_root (H := Demo.lib) "/default-ol")) mounts)
       (trace_of Demo.os (cleanup (H := Demo.lib) Demo.ctx) Demo.crashed) /\
    effects (trace_of Demo.os (cleanup (H := Demo.lib) Demo.ctx) Demo.crashed) =
      cleanup_steps (H := Demo.lib) Demo.ctx "/default-ol" cgroups mounts /\
    exists rest,
      trace_of Demo.os (cleanup (H := Demo.lib) Demo.ctx) Demo.crashed =
        Ev (GetOlPath Demo.ctx) (Ok "/default-ol") :: rest /\
      diagnosed (H := Demo.lib)
        (cleanup_words (H := Demo.lib) "/default-ol" cgroups mounts) None rest.
Proof.
  split; [reflexivity|].
  exact (cleanup_never_fails (H := Demo.lib) Demo.os Demo.ctx Demo.crashed
           "/default-ol" eq_refl).
Defined.

(** What is printed of the two removals that fail on the crashed machine
    first. *)
Example cleanup_crashed_diagnostics :
  List.filter (fun c => is_print c)
    (firstn 8 (map ev_call
                 (trace_of Demo.os (cleanup (H := Demo.lib) Demo.ctx) Demo.crashed))) =
    [Printf ("ATTEMPT to cleanup cgroups at /sys/fs/cgroup/default-ol-sandboxes" +:+
             newline);
     Printf ("could kill processes in cgroup: operation not permitted" +:+ newline);
     Printf ("try removing /sys/fs/cgroup/default-ol-sandboxes/cg-1" +:+ newline);
     Printf ("could remove cgroup: operation not permitted" +:+ newline)].
Proof. vm_compute. reflexivity. Qed.

(** Every removal and unmount fails on the crashed machine, and each is
    tried all the same. *)
Example cleanup_crashed_effects :
  effects (trace_of Demo.os (cleanup (H := Demo.lib) Demo.ctx) Demo.crashed) =
    [GetOlPath Demo.ctx;
     ReadDir "/sys/fs/cgroup/default-ol-sandboxes";
     WriteFile "/sys/fs/cgroup/default-ol-sandboxes/cgroup.kill" "1" ModeAppend;
     Rmdir "/sys/fs/cgroup/default-ol-sandboxes/cg-1";
     Rmdir "/sys/fs/cgroup/default-ol-sandboxes/cg-2";
     Rmdir "/sys/fs/cgroup/default-ol-sandboxes";
     ReadDir "/default-ol/worker/root-sandboxes";
     Unmount "/default-ol/worker/root-sandboxes/7" MNT_DETACH;
     Rmdir "/default-ol/worker/root-sandboxes/7";
     Unmount "/default-ol/worker/root-sandboxes/8" MNT_DETACH;
     Rmdir "/default-ol/worker/root-sandboxes/8";
     Unmount "/default-ol/worker/root-sandboxes" MNT_DETACH;
     Remove "/default-ol/worker/worker.pid"] /\
  length (List.filter (fun c => is_print c)
            (map ev_call (trace_of Demo.os (cleanup (H := Demo.lib) Demo.ctx)
                            Demo.crashed))) = 16%nat.
Proof. split; vm_compute; reflexivity. Qed.

Lemma cleanup_unmounts_parent_after_listing_witness :
  (Demo.os (GetOlPath Demo.ctx) Demo.start).1 = Ok "/default-ol" /\
  exists pre mounts post,
    trace_of Demo.os (cleanup (H := Demo.lib) Demo.ctx) Demo.start =
      pre ++ Ev (ReadDir (mount_root (H := Demo.lib) "/default-ol")) mounts :: post /\
    effects post =
      mount_steps (H := Demo.lib) (mount_root (H := Demo.lib) "/default-ol") mounts ++
      [Unmount (mount_root (H := Demo.lib) "/default-ol") MNT_DETACH;
       Remove (filepath_Join (GoLib := Demo.lib)
                 ["/default-ol"; "worker"; "worker.pid"])].
Proof.
  split; [reflexivity|].
  exact (cleanup_unmounts_parent_after_listing (H := Demo.lib) Demo.os Demo.ctx
           Demo.start "/default-ol" eq_refl).
Defined.

(** C8, as the specification has it, fails on a machine where the directory
    root-sandboxes cannot be listed: the listing fails, and the directory is
    unmounted all the same, as the next call but one. *)
Lemma cleanup_unmounts_unlisted_parent :
  exists pre post,
    trace_of Demo.os (cleanup (H := Demo.lib) Demo.ctx) Demo.start =
      pre ++
      [Ev (ReadDir "/default-ol/worker/root-sandboxes")
          (Error (Errorf "no such file or directory"));
       Ev (Printf ("could not find mount root: no such file or directory" +:+
                   newline)) tt;
       Ev (Unmount "/default-ol/worker/root-sandboxes" MNT_DETACH) None] ++
      post.
Proof.
  exists (firstn 5 (trace_of Demo.os (cleanup (H := Demo.lib) Demo.ctx) Demo.start)),
         (skipn 8 (trace_of Demo.os (cleanup (H := Demo.lib) Demo.ctx) Demo.start)).
  vm_compute. reflexivity.
Qed.

(** ** initOLDir *)

Section InitFacts.
Context `{GoLib} {W : Type} (os : forall c : call, W -> answer c * W).

(** No command of this trace has failed but the last, whose error is
    returned. *)
Ltac no_failed_command :=
  let ev := fresh "ev" in let err := fresh "err" in
  let Hin := fresh "Hin" in let Hf := fresh "Hf" in
  intros ev err Hin Hf; simpl in Hin;
  repeat (destruct Hin as [<-|Hin];
          [simpl in Hf; try discriminate; injection Hf as <-;
           split; reflexivity|]);
  destruct Hin.

(** The run has come to an end by an error. *)
Ltac stopped Hrun :=
  injection Hrun as <- <- <-; split; [discriminate|no_failed_command].

(** The next call, which answers with an error or nil, with a value or an
    error, or with anything else. *)
Ltac ask_err Hrun :=
  match type of Hrun with
  | context [os ?c ?w] =>
      let a := fresh "a" in let w' := fresh "w" in
      destruct (os c w) as [a w']; simpl in Hrun;
      destruct a as [?e|]; simpl in Hrun; [stopped Hrun|]
  end.

Ltac ask_res Hrun :=
  match type of Hrun with
  | context [os ?c ?w] =>
      let a := fresh "a" in let w' := fresh "w" in
      destruct (os c w) as [a w']; simpl in Hrun;
      destruct a as [?x|?e]; simpl in Hrun; [|stopped Hrun]
  end.

Ltac ask Hrun :=
  match type of Hrun with
  | context [os ?c ?w] =>
      let a := fresh "a" in let w' := fresh "w" in
      destruct (os c w) as [a w']; simpl in Hrun
  end.

Lemma initOLDir_run (olPath dockerBaseImage : string) (w : W) r w' tr :
  run os (initOLDir olPath dockerBaseImage) w = (r, w', tr) ->
  (r = None ->
   exists Conf,
     In (Ev (LoadDefaults olPath) (Ok Conf)) tr /\
     commands_run tr =
       [mknod_null (SOCK_base_path Conf);
        mknod_random (SOCK_base_path Conf);
        mknod_urandom (SOCK_base_path Conf)]) /\
  (forall ev err,
     In ev tr -> failed_command ev = Some err ->
     r = Some err /\ last tr = Some ev).
Proof.
  intros Hrun. unfold initOLDir in Hrun. simpl in Hrun.
  ask Hrun. ask_err Hrun. ask_res Hrun. ask_err Hrun. ask_err Hrun.
  ask_err Hrun. ask_res Hrun. ask Hrun. ask_err Hrun.
  ask_err Hrun. ask_err Hrun. ask_err Hrun. ask_err Hrun.
  ask_err Hrun. ask_err Hrun. ask_err Hrun.
  do 5 ask Hrun. injection Hrun as <- <- <-.
  split; [|no_failed_command].
  intros _. exists x. split; [|reflexivity].
  simpl. auto.
Qed.

(** C9.  When [initOLDir] returns nil, the [mknod] commands it has run are
    three, in this order and each without error: the character devices
    1,3 at dev/null, 1,8 at dev/random and 1,9 at dev/urandom below the base
    image, which is the [SOCK_base_path] of the defaults loaded, each made
    with mode 0644.  And when a command of the run has failed, it was the
    last call of the run, and [initOLDir] has returned its error. *)
Theorem initOLDir_makes_device_nodes (olPath dockerBaseImage : string) (w : W) :
  (result_of os (initOLDir olPath dockerBaseImage) w = None ->
   exists Conf,
     In (Ev (LoadDefaults olPath) (Ok Conf))
        (trace_of os (initOLDir olPath dockerBaseImage) w) /\
     commands_run (trace_of os (initOLDir olPath dockerBaseImage) w) =
       [mknod_null (SOCK_base_path Conf);
        mknod_random (SOCK_base_path Conf);
        mknod_urandom (SOCK_base_path Conf)]) /\
  (forall ev err,
     In ev (trace_of os (initOLDir olPath dockerBaseImage) w) ->
     failed_command ev = Some err ->
     result_of os (initOLDir olPath dockerBaseImage) w = Some err /\
     last (trace_of os (initOLDir olPath dockerBaseImage) w) = Some ev).
Proof.
  unfold result_of, trace_of.
  destruct (run os (initOLDir olPath dockerBaseImage) w) as [[r w'] tr] eqn:Hrun.
  simpl. exact (initOLDir_run _ _ _ _ _ _ Hrun).
Qed.

End InitFacts.

Lemma initOLDir_makes_device_nodes_witness :
  result_of Demo.os (initOLDir (H := Demo.lib) "/default-ol" "") Demo.start = None /\
  exists Conf,
    In (Ev (LoadDefaults "/default-ol") (Ok Conf))
       (trace_of Demo.os (initOLDir (H := Demo.lib) "/default-ol" "") Demo.start) /\
    commands_run
      (trace_of Demo.os (initOLDir (H := Demo.lib) "/default-ol" "") Demo.start) =
      [mknod_null (H := Demo.lib) (SOCK_base_path Conf);
       mknod_random (H := Demo.lib) (SOCK_base_path Conf);
       mknod_urandom (H := Demo.lib) (SOCK_base_path Conf)].
Proof.
  assert (Hr : result_of Demo.os (initOLDir (H := Demo.lib) "/default-ol" "")
                 Demo.start = None)
    by (vm_compute; reflexivity).
  split; [exact Hr|].
  exact (proj1 (initOLDir_makes_device_nodes (H := Demo.lib) Demo.os
                  "/default-ol" "" Demo.start) Hr).
Defined.

(** The three nodes on the sample machine; and a machine where the second
    cannot be made: the first is there, the third is not tried. *)
Example initOLDir_device_nodes :
  commands_run
    (trace_of Demo.os (initOLDir (H := Demo.lib) "/default-ol" "") Demo.start) =
    [("mknod", ["-m"; "0644"; "/default-ol/lambda/dev/null"; "c"; "1"; "3"]);
     ("mknod", ["-m"; "0644"; "/default-ol/lambda/dev/random"; "c"; "1"; "8"]);
     ("mknod", ["-m"; "0644"; "/default-ol/lambda/dev/urandom"; "c"; "1"; "9"])] /\
  result_of Demo.os (initOLDir (H := Demo.lib) "/default-ol" "") Demo.no_random =
    Demo.denied /\
  commands_run
    (trace_of Demo.os (initOLDir (H := Demo.lib) "/default-ol" "") Demo.no_random) =
    [("mknod", ["-m"; "0644"; "/default-ol/lambda/dev/null"; "c"; "1"; "3"])] /\
  List.last (map ev_call (trace_of Demo.os
                            (initOLDir (H := Demo.lib) "/default-ol" "")
                            Demo.no_random)) Args =
    Command "mknod" ["-m"; "0644"; "/default-ol/lambda/dev/random"; "c"; "1"; "8"].
Proof. repeat split; vm_compute; reflexivity. Qed.

(** A number overridden twice in one text: the second override finds the
    [int] the first has stored, which is no [float64], and is refused. *)
Example override_number_twice :
  apply_opts (H := Demo.lib) ["limits.procs=12"] Demo.sample_conf =
    Ok (replace_at "limits" ["procs"] (VInt 12) Demo.sample_conf) /\
  apply_opts (H := Demo.lib) ["limits.procs=12"; "limits.procs=13"] Demo.sample_conf =
    Error (Errorf "config values of type int (procs) must be edited manually in the config file ").
Proof. split; vm_compute; reflexivity. Qed.

Example up_port_conflict :
  result_of Demo.os (up (H := Demo.lib) Demo.ctx) Demo.port_taken =
    Some (Errorf "expected PID 4242 but found 17 (port conflict?)") /\
  attempts (trace_of Demo.os (up (H := Demo.lib) Demo.ctx) Demo.port_taken) = 1%nat.
Proof. split; vm_compute; reflexivity. Qed.

Example down_stops :
  result_of Demo.os (down (H := Demo.lib) Demo.ctx) Demo.obedient = Return None /\
  effects (trace_of Demo.os (down (H := Demo.lib) Demo.ctx) Demo.obedient) =
    [GetOlPath Demo.ctx; LoadConf "/default-ol/config.json";
     ReadFile "/default-ol/worker/worker.pid"; FindProcess 4242;
     Signal 4242 SIGINT; Signal 4242 0].
Proof. split; vm_compute; reflexivity. Qed.

Example up_ready :
  result_of Demo.os (up (H := Demo.lib) Demo.ctx) Demo.start = None /\
  effects (trace_of Demo.os (up (H := Demo.lib) Demo.ctx) Demo.start) =
    [GetOlPath Demo.ctx; Stat "/default-ol";
     LoadConf "/default-ol/config.json"; Create "/default-ol/worker.out";
     Args; LookPath "ol";
     StartProcess "ol" ["ol"; "worker"; "up"] [None; Some 3; Some 3] CLONE_NEWNS;
     GoWait 4242; RecvDied; Signal 4242 0;
     HttpGet "http://localhost:5000/pid"; ReadAll 7; BodyClose 7].
Proof. split; vm_compute; reflexivity. Qed.

(* ===================================================================== *)
(** * More properties                                                     *)
(* ===================================================================== *)

(** ** The loop of overrideOpts *)

Section OverrideMore.
Context `{GoLib}.

Lemma same_category_refl a : same_category a a.
Proof. destruct a; simpl; auto. Qed.

Lemma same_category_trans a b c :
  same_category a b -> same_category b c -> same_category a c.
Proof.
  destruct a, b, c; simpl; try tauto; congruence.
Qed.

(** What an override that went through has done: it stood on a string, a
    JSON number or a boolean, and has put the coerced value in its place. *)
Lemma override_at_ok val rest :
  forall key c c',
    override_at key rest val c = Ok c' ->
    exists prev v,
      lookup_path key rest c = Some prev /\
      overridable prev = true /\
      coerce (category_of prev) val = Some v /\
      category_of v = category_of prev /\
      c' = replace_at key rest v c.
Proof.
  induction rest as [|key' rest IH]; intros key c c' Hc; simpl in Hc |- *.
  - unfold override_leaf in Hc.
    destruct (c !! key) as [prev|] eqn:Hk; [|discriminate].
    exists prev. destruct prev; try discriminate; simpl.
    + destruct (String.eqb (ToLower val) "true");
        [|destruct (String.eqb (ToLower val) "false")]; inversion Hc; subst;
        eexists; repeat apply conj; reflexivity.
    + destruct (Atoi val); inversion Hc; subst.
      eexists; repeat apply conj; reflexivity.
    + inversion Hc; subst. eexists; repeat apply conj; reflexivity.
  - destruct (c !! key) as [sub|] eqn:Hk; [|discriminate].
    destruct sub; try discriminate.
    destruct (override_at key' rest val m) as [m'|] eqn:Hm; [|discriminate].
    inversion Hc; subst; clear Hc.
    destruct (IH _ _ _ Hm) as (prev & v & Hl & Ho & Hco & Hcat & ->).
    exists prev, v. repeat apply conj; auto.
Qed.

Lemma overridable_not_map v : overridable v = true -> forall m, v <> VMap m.
Proof. destruct v; simpl; congruence. Qed.

Lemma category_not_map v prev :
  overridable prev = true -> category_of v = category_of prev ->
  forall m, v <> VMap m.
Proof. destruct prev, v; simpl; congruence. Qed.

(** The lookups in a tree after an override, path by path. *)
Lemma lookup_replace_at v rest :
  forall key c prev,
    lookup_path key rest c = Some prev ->
    (forall m, prev <> VMap m) -> (forall m, v <> VMap m) ->
    forall key' rest',
      (key' :: rest' = key :: rest /\
       lookup_path key' rest' (replace_at key rest v c) = Some v) \/
      (key' :: rest' <> key :: rest /\
       key' :: rest' `prefix_of` key :: rest /\
       exists m m', lookup_path key' rest' c = Some (VMap m) /\
                    lookup_path key' rest' (replace_at key rest v c) = Some (VMap m')) \/
      (~ key' :: rest' `prefix_of` key :: rest /\
       lookup_path key' rest' (replace_at key rest v c) = lookup_path key' rest' c).
Proof.
  induction rest as [|key1 rest IH]; intros key c prev Hl Hp Hv key' rest';
    simpl in Hl |- *.
  - destruct (decide (key' = key)) as [->|Hne].
    + destruct rest' as [|k r]; simpl.
      * left. split; [reflexivity|]. now rewrite lookup_insert_eq.
      * right. right. split.
        -- intros Hpre. apply prefix_cons_inv_2 in Hpre.
           apply prefix_nil_inv in Hpre. discriminate.
        -- rewrite lookup_insert_eq, Hl.
           destruct v, prev; try reflexivity; exfalso;
             first [now eapply Hv | now eapply Hp].
    + right. right. split.
      * intros Hpre. apply prefix_cons_inv_1 in Hpre. congruence.
      * destruct rest'; simpl; now rewrite lookup_insert_ne by congruence.
  - destruct (c !! key) as [sub|] eqn:Hk; [|discriminate].
    destruct sub; try discriminate.
    destruct (decide (key' = key)) as [->|Hne].
    + destruct rest' as [|k r]; simpl.
      * right. left. split; [congruence|]. split.
        -- apply prefix_cons, prefix_nil.
        -- rewrite lookup_insert_eq, Hk. eauto.
      * rewrite lookup_insert_eq, Hk.
        destruct (IH _ _ _ Hl Hp Hv k r) as [[Heq Hr]|[(Hneq & Hpre & m1 & m2 & H1 & H2)|[Hnp Hr]]].
        -- left. split; [congruence|exact Hr].
        -- right. left. split; [congruence|]. split; [now apply prefix_cons|].
           eauto.
        -- right. right. split; [|exact Hr].
           intros Hpre. apply Hnp. now apply prefix_cons_inv_2 in Hpre.
    + right. right. split.
      * intros Hpre. apply prefix_cons_inv_1 in Hpre. congruence.
      * destruct rest'; simpl; now rewrite lookup_insert_ne by congruence.
Qed.

Lemma Split_pieces s sep : Split s sep = (pieces s sep).1 :: (pieces s sep).2.
Proof. unfold Split. now destruct (pieces s sep). Qed.

Lemma apply_opt_ok opt conf conf' keystr val :
  apply_opt opt conf = Ok conf' ->
  Split opt "=" = [keystr; val] ->
  override_at (pieces keystr ".").1 (pieces keystr ".").2 val conf = Ok conf'.
Proof.
  unfold apply_opt. intros Ha Hs. rewrite Hs in Ha.
  now destruct (pieces keystr ".").
Qed.

Lemma apply_opts_app l1 l2 conf :
  apply_opts (l1 ++ l2) conf =
  match apply_opts l1 conf with
  | Ok conf1 => apply_opts l2 conf1
  | Error e => Error e
  end.
Proof.
  revert conf. induction l1 as [|opt l1 IH]; intros conf; simpl; [reflexivity|].
  destruct (apply_opt opt conf); [apply IH|reflexivity].
Qed.

Lemma override_at_same_category key rest val c c' :
  override_at key rest val c = Ok c' ->
  forall keys, same_category (lookup_keys keys c) (lookup_keys keys c').
Proof.
  intros Hc [|key' rest']; simpl; [exact I|].
  destruct (override_at_ok _ _ _ _ _ Hc) as (prev & v & Hl & Ho & Hco & Hcat & ->).
  destruct (lookup_replace_at v rest key c prev Hl
              (overridable_not_map _ Ho) (category_not_map _ _ Ho Hcat) key' rest')
    as [[Heq Hr]|[(Hneq & Hpre & m1 & m2 & H1 & H2)|[Hnp Hr]]].
  - injection Heq as -> ->. rewrite Hr, Hl. simpl. congruence.
  - now rewrite H1, H2.
  - rewrite Hr. apply same_category_refl.
Qed.

Lemma apply_opts_same_category opts :
  forall conf conf',
    apply_opts opts conf = Ok conf' ->
    forall keys, same_category (lookup_keys keys conf) (lookup_keys keys conf').
Proof.
  induction opts as [|opt opts IH]; intros conf conf' Ha keys; simpl in Ha.
  - injection Ha as <-. apply same_category_refl.
  - destruct (apply_opt opt conf) as [conf1|] eqn:H1; [|discriminate].
    eapply same_category_trans; [|eapply IH; eassumption].
    unfold apply_opt in H1.
    destruct (Split opt "=") as [|keystr [|val [|? ?]]]; try discriminate.
    destruct (pieces keystr ".") as [key rest].
    eapply override_at_same_category. eassumption.
Qed.

(** X1.  The overrides of a text that goes through add no key, remove none
    and leave every value in its category: at every path of keys the tree
    after has a value exactly where the tree before has one, a string for a
    string, a number for a number, a boolean for a boolean, and a map, an
    array or null for one of these. *)
Theorem overrides_keep_keys_and_categories opts conf conf' keys :
  apply_opts opts conf = Ok conf' ->
  same_category (lookup_keys keys conf) (lookup_keys keys conf').
Proof.
  revert conf. induction opts as [|opt opts IH]; intros conf Ha; simpl in Ha.
  - injection Ha as <-. apply same_category_refl.
  - destruct (apply_opt opt conf) as [conf1|] eqn:H1; [|discriminate].
    eapply same_category_trans; [|apply IH; exact Ha].
    unfold apply_opt in H1.
    destruct (Split opt "=") as [|keystr [|val [|? ?]]]; try discriminate.
    destruct (pieces keystr ".") as [key rest].
    eapply override_at_same_category. eassumption.
Qed.

(** X2.  An override that goes through changes nothing beside its target:
    the value at a path of keys is the same before and after, unless the
    path is the dotted key of the override or leads to a map above it. *)
Theorem override_leaves_other_paths opt conf conf' keystr val keys :
  apply_opt opt conf = Ok conf' ->
  Split opt "=" = [keystr; val] ->
  ~ keys `prefix_of` keys_of keystr ->
  lookup_keys keys conf' = lookup_keys keys conf.
Proof.
  intros Ha Hs Hnp. apply (apply_opt_ok _ _ _ _ _ Ha) in Hs.
  unfold keys_of in Hnp. rewrite Split_pieces in Hnp.
  destruct keys as [|key' rest']; [reflexivity|]. simpl.
  destruct (override_at_ok _ _ _ _ _ Hs) as (prev & v & Hl & Ho & Hco & Hcat & ->).
  destruct (lookup_replace_at v _ _ conf prev Hl
              (overridable_not_map _ Ho) (category_not_map _ _ Ho Hcat) key' rest')
    as [[Heq Hr]|[(Hneq & Hpre & _)|[_ Hr]]].
  - exfalso. apply Hnp. now rewrite Heq.
  - contradiction.
  - exact Hr.
Qed.

Lemma apply_opt_stores opt conf conf' keystr val :
  apply_opt opt conf = Ok conf' ->
  Split opt "=" = [keystr; val] ->
  exists prev v,
    lookup_keys (keys_of keystr) conf = Some prev /\
    coerce (category_of prev) val = Some v /\
    lookup_keys (keys_of keystr) conf' = Some v.
Proof.
  intros Ha Hs. apply (apply_opt_ok _ _ _ _ _ Ha) in Hs.
  unfold keys_of. rewrite Split_pieces. simpl.
  destruct (override_at_ok _ _ _ _ _ Hs) as (prev & v & Hl & Ho & Hco & Hcat & ->).
  exists prev, v. repeat apply conj; auto.
  destruct (lookup_replace_at v _ _ conf prev Hl
              (overridable_not_map _ Ho) (category_not_map _ _ Ho Hcat)
              (pieces keystr ".").1 (pieces keystr ".").2)
    as [[_ Hr]|[(Hneq & _)|[Hnp _]]].
  - exact Hr.
  - now contradiction Hneq.
  - now contradiction Hnp.
Qed.

(** X3.  What an override that goes through has stored is read back at its
    dotted key: the text itself over a string, the integer [Atoi] reads
    over a number, true or false over a boolean; and there was a value of
    that category before. *)
Theorem override_is_read_back opt conf conf' keystr val :
  apply_opt opt conf = Ok conf' ->
  Split opt "=" = [keystr; val] ->
  exists prev v,
    lookup_keys (keys_of keystr) conf = Some prev /\
    coerce (category_of prev) val = Some v /\
    lookup_keys (keys_of keystr) conf' = Some v.
Proof.
  intros Ha Hs. apply (apply_opt_ok _ _ _ _ _ Ha) in Hs.
  unfold keys_of. rewrite Split_pieces. simpl.
  destruct (override_at_ok _ _ _ _ _ Hs) as (prev & v & Hl & Ho & Hco & Hcat & ->).
  exists prev, v. repeat apply conj; auto.
  destruct (lookup_replace_at v _ _ conf prev Hl
              (overridable_not_map _ Ho) (category_not_map _ _ Ho Hcat)
              (pieces keystr ".").1 (pieces keystr ".").2)
    as [[_ Hr]|[(Hneq & _)|[Hnp _]]].
  - exact Hr.
  - now contradiction Hneq.
  - now contradiction Hnp.
Qed.

(** No override goes through a value that is neither a map nor one of the
    three kinds an override may stand on. *)
Lemma override_at_stuck val ext rest :
  forall key c v,
    lookup_path key rest c = Some v ->
    overridable v = false -> (forall m, v <> VMap m) ->
    is_error (override_at key (rest ++ ext) val c) = true.
Proof.
  induction rest as [|key1 rest IH]; intros key c v Hl Ho Hm; simpl in Hl |- *.
  - destruct ext as [|k e]; simpl.
    + unfold override_leaf. rewrite Hl. now destruct v.
    + rewrite Hl. destruct v; try reflexivity. exfalso. now eapply Hm.
  - destruct (c !! key) as [sub|] eqn:Hk; [|discriminate].
    destruct sub; try discriminate.
    specialize (IH _ _ _ Hl Ho Hm).
    now destruct (override_at key1 (rest ++ ext) val m).
Qed.

Lemma apply_opt_keeps_int opt c c' key rest n :
  apply_opt opt c = Ok c' ->
  lookup_path key rest c = Some (VInt n) ->
  lookup_path key rest c' = Some (VInt n).
Proof.
  unfold apply_opt. intros Ha Hl.
  destruct (Split opt "=") as [|keystr [|val [|? ?]]]; try discriminate.
  destruct (pieces keystr ".") as [key0 rest0].
  destruct (decide ((key :: rest) `prefix_of` (key0 :: rest0))) as [[ext Hext]|Hnp].
  - injection Hext as -> ->.
    pose proof (override_at_stuck val ext rest key c (VInt n) Hl eq_refl) as Hs.
    rewrite Ha in Hs. now discriminate Hs.
  - destruct (override_at_ok _ _ _ _ _ Ha) as (prev & v & Hl0 & Ho & Hco & Hcat & ->).
    destruct (lookup_replace_at v _ _ c prev Hl0
                (overridable_not_map _ Ho) (category_not_map _ _ Ho Hcat) key rest)
      as [[Heq _]|[(_ & Hpre & _)|[_ Hr]]].
    + exfalso. apply Hnp. now rewrite Heq.
    + contradiction.
    + now rewrite Hr.
Qed.

Lemma apply_opts_keeps_int opts :
  forall c c' key rest n,
    apply_opts opts c = Ok c' ->
    lookup_path key rest c = Some (VInt n) ->
    lookup_path key rest c' = Some (VInt n).
Proof.
  induction opts as [|opt opts IH]; intros c c' key rest n Ha Hl; simpl in Ha.
  - now injection Ha as <-.
  - destruct (apply_opt opt c) as [c1|] eqn:H1; [|discriminate].
    eapply IH; [eassumption|]. eapply apply_opt_keeps_int; eassumption.
Qed.

Lemma apply_opt_on_int opt c keystr val n :
  Split opt "=" = [keystr; val] ->
  lookup_keys (keys_of keystr) c = Some (VInt n) ->
  is_error (apply_opt opt c) = true.
Proof.
  unfold apply_opt, keys_of. intros -> Hl. rewrite Split_pieces in Hl.
  destruct (pieces keystr ".") as [key rest]. simpl in Hl.
  pose proof (override_at_stuck val [] rest key c (VInt n) Hl eq_refl) as Hs.
  rewrite app_nil_r in Hs. now apply Hs.
Qed.

(** X4.  No text that overrides the same number twice goes through: the
    first override stores a Go [int] where the JSON number was, and the
    switch of the second knows no [int].  This holds wherever the two
    options stand in the text, and whatever the other options are. *)
Theorem number_overridden_twice_is_refused
    opts conf l1 l2 l3 opt1 opt2 keystr val1 val2 prev :
  opts = l1 ++ opt1 :: l2 ++ opt2 :: l3 ->
  Split opt1 "=" = [keystr; val1] ->
  Split opt2 "=" = [keystr; val2] ->
  lookup_keys (keys_of keystr) conf = Some prev ->
  category_of prev = CatNumber ->
  is_error (apply_opts opts conf) = true.
Proof.
  intros -> Hs1 Hs2 Hl Hcat.
  change (opt1 :: l2 ++ opt2 :: l3) with ([opt1] ++ l2 ++ [opt2] ++ l3).
  rewrite apply_opts_app.
  destruct (apply_opts l1 conf) as [c1|] eqn:H1; [|reflexivity].
  pose proof (apply_opts_same_category _ _ _ H1 (keys_of keystr)) as Hk.
  rewrite Hl in Hk. simpl in Hk.
  destruct (lookup_keys (keys_of keystr) c1) as [v1|] eqn:Hl1; [|contradiction].
  rewrite apply_opts_app. simpl apply_opts at 1.
  destruct (apply_opt opt1 c1) as [c2|] eqn:H2; [|reflexivity].
  assert (Hint : exists n, lookup_keys (keys_of keystr) c2 = Some (VInt n)).
  { destruct (apply_opt_stores opt1 c1 c2 keystr val1 H2 Hs1)
      as (p & v & Hp & Hco & Hv).
    rewrite Hl1 in Hp. injection Hp as <-.
    rewrite <- Hk, Hcat in Hco. simpl in Hco.
    destruct (Atoi val1); [|discriminate]. injection Hco as <-. eauto. }
  destruct Hint as [n Hn].
  rewrite apply_opts_app.
  destruct (apply_opts l2 c2) as [c3|] eqn:H3; [|reflexivity].
  rewrite apply_opts_app. simpl apply_opts at 1.
  assert (Hn3 : lookup_keys (keys_of keystr) c3 = Some (VInt n)).
  { unfold keys_of in *. rewrite Split_pieces in *. simpl in *.
    eapply apply_opts_keeps_int; eassumption. }
  pose proof (apply_opt_on_int opt2 c3 keystr val2 n Hs2 Hn3) as He.
  now destruct (apply_opt opt2 c3).
Qed.

(** An override over a value an earlier override of the same key has put
    there, when that value may be overridden again. *)
Lemma override_at_replaced val v rest :
  forall key c prev,
    lookup_path key rest c = Some prev ->
    overridable prev = true -> overridable v = true ->
    category_of v = category_of prev ->
    override_at key rest val (replace_at key rest v c) =
    override_at key rest val c.
Proof.
  induction rest as [|key1 rest IH]; intros key c prev Hl Ho Hv Hcat;
    simpl in Hl |- *.
  - unfold override_leaf. rewrite lookup_insert_eq, Hl.
    destruct v, prev; try discriminate; simpl.
    + destruct (String.eqb (ToLower val) "true");
        [|destruct (String.eqb (ToLower val) "false")];
        rewrite ?insert_insert_eq; reflexivity.
    + destruct (Atoi val); rewrite ?insert_insert_eq; reflexivity.
    + now rewrite insert_insert_eq.
  - destruct (c !! key) as [sub|] eqn:Hk; [|discriminate].
    destruct sub; try discriminate.
    rewrite lookup_insert_eq, (IH _ _ _ Hl Ho Hv Hcat).
    destruct (override_at key1 rest val m); [|reflexivity].
    now rewrite insert_insert_eq.
Qed.

(** X5.  Over a string or a boolean the later of two overrides of the same
    key wins: after the first has gone through, the second gives what it
    gives on the tree as it was, the same tree or the same error. *)
Theorem later_override_wins opt1 opt2 conf conf1 keystr val1 val2 prev :
  Split opt1 "=" = [keystr; val1] ->
  Split opt2 "=" = [keystr; val2] ->
  lookup_keys (keys_of keystr) conf = Some prev ->
  category_of prev = CatString \/ category_of prev = CatBool ->
  apply_opt opt1 conf = Ok conf1 ->
  apply_opt opt2 conf1 = apply_opt opt2 conf.
Proof.
  intros Hs1 Hs2 Hl Hcat Ha.
  apply (apply_opt_ok _ _ _ _ _ Ha) in Hs1.
  unfold apply_opt. rewrite Hs2.
  unfold keys_of in Hl. rewrite Split_pieces in Hl.
  destruct (pieces keystr ".") as [key rest]. simpl in *.
  destruct (override_at_ok _ _ _ _ _ Hs1) as (p & v & Hp & Ho & Hco & Hc & ->).
  rewrite Hl in Hp. injection Hp as <-.
  apply (override_at_replaced val2 v rest key conf prev Hl Ho); [|exact Hc].
  destruct prev, v; simpl in *; try discriminate; try reflexivity;
    destruct Hcat; discriminate.
Qed.

Lemma apply_opts_malformed opts :
  forall conf opt,
    In opt opts ->
    length (Split opt "=") <> 2%nat ->
    is_error (apply_opts opts conf) = true.
Proof.
  induction opts as [|opt0 opts IH]; intros conf opt Hin Hlen; [destruct Hin|].
  simpl. destruct (apply_opt opt0 conf) as [conf1|] eqn:Ha; [|reflexivity].
  destruct Hin as [->|Hin]; [|eapply IH; eassumption].
  unfold apply_opt in Ha.
  destruct (Split opt "=") as [|a [|b [|? ?]]]; try discriminate.
  now contradiction Hlen.
Qed.

End OverrideMore.

Section OverrideOptsMore.
Context `{GoLib} {W : Type} (os : forall c : call, W -> answer c * W).

(** The calls of [overrideOpts], whatever happens. *)
Lemma overrideOpts_calls (w : W) (confPath overridePath optsStr : string) :
  (exists e,
     result_of os (overrideOpts confPath overridePath optsStr) w = Some e /\
     map ev_call (trace_of os (overrideOpts confPath overridePath optsStr) w) =
       [ReadFile confPath]) \/
  (exists b conf conf' s,
     json_Unmarshal b = Ok conf /\
     apply_opts (Split optsStr ",") conf = Ok conf' /\
     json_MarshalIndent (VMap conf') "" tab = Ok s /\
     trace_of os (overrideOpts confPath overridePath optsStr) w =
       [Ev (ReadFile confPath) (Ok b);
        Ev (WriteFile overridePath s perm_0644)
           (result_of os (overrideOpts confPath overridePath optsStr) w)]).
Proof.
  unfold result_of, trace_of, overrideOpts. simpl.
  destruct (os (ReadFile confPath) w) as [[b|e] w1]; simpl; [|eauto].
  destruct (json_Unmarshal b) as [conf|e] eqn:Hj; simpl; [|eauto].
  destruct (apply_opts (Split optsStr ",") conf) as [conf'|e] eqn:Ho; simpl;
    [|eauto].
  destruct (json_MarshalIndent (VMap conf') "" tab) as [s|e] eqn:Hm; simpl;
    [|eauto].
  right. exists b, conf, conf', s. repeat apply conj; auto.
  now destruct (os (WriteFile overridePath s perm_0644) w1) as [[e|] w2].
Qed.

(** X6.  A text with an option that is not of the form key=val, with one
    equals sign, is refused as a whole and nothing is written, wherever the
    option stands; the empty text is such a text. *)
Theorem malformed_option_is_error_without_write
    (w : W) (confPath overridePath optsStr opt : string) :
  In opt (Split optsStr ",") ->
  length (Split opt "=") <> 2%nat ->
  (exists e, result_of os (overrideOpts confPath overridePath optsStr) w = Some e) /\
  map ev_call (trace_of os (overrideOpts confPath overridePath optsStr) w) =
    [ReadFile confPath].
Proof.
  intros Hin Hlen.
  destruct (overrideOpts_calls w confPath overridePath optsStr)
    as [(e & Hr & Ht)|(b & conf & conf' & s & _ & Ho & _)]; [eauto|].
  pose proof (apply_opts_malformed _ conf opt Hin Hlen) as He.
  rewrite Ho in He. discriminate.
Qed.

(** X7.  Whatever it is given and whatever the file system answers,
    [overrideOpts] reads [confPath] and nothing else, and writes at most
    once, as its last call and to [overridePath], with mode 0644; when it
    returns nil it has written. *)
Theorem overrideOpts_footprint (w : W) (confPath overridePath optsStr : string) :
  (exists e,
     result_of os (overrideOpts confPath overridePath optsStr) w = Some e /\
     map ev_call (trace_of os (overrideOpts confPath overridePath optsStr) w) =
       [ReadFile confPath]) \/
  (exists s,
     map ev_call (trace_of os (overrideOpts confPath overridePath optsStr) w) =
       [ReadFile confPath; WriteFile overridePath s perm_0644]).
Proof.
  destruct (overrideOpts_calls w confPath overridePath optsStr)
    as [Hl|(b & conf & conf' & s & _ & _ & _ & Ht)]; [now left|].
  right. exists s. now rewrite Ht.
Qed.

End OverrideOptsMore.

Lemma malformed_option_is_error_without_write_witness :
  In "" (Split "" ",") /\
  length (Split "" "=") <> 2%nat /\
  (exists e,
     result_of Demo.os
       (overrideOpts (H := Demo.lib) "/default-ol/config.json"
          "/default-ol/config.json.overrides" "") Demo.start = Some e) /\
  map ev_call
    (trace_of Demo.os
       (overrideOpts (H := Demo.lib) "/default-ol/config.json"
          "/default-ol/config.json.overrides" "") Demo.start) =
    [ReadFile "/default-ol/config.json"].
Proof.
  assert (Hin : In "" (Split "" ",")) by (left; reflexivity).
  assert (Hlen : length (Split "" "=") <> 2%nat) by discriminate.
  split; [exact Hin|]. split; [exact Hlen|].
  exact (malformed_option_is_error_without_write (H := Demo.lib) Demo.os
           Demo.start "/default-ol/config.json"
           "/default-ol/config.json.overrides" "" "" Hin Hlen).
Defined.

Lemma sample_two_overrides :
  apply_opts (H := Demo.lib) ["limits.procs=12"; "trace=TRUE"] Demo.sample_conf =
    Ok (replace_at "trace" [] (VBool true)
          (replace_at "limits" ["procs"] (VInt 12) Demo.sample_conf)).
Proof. vm_compute. reflexivity. Qed.

Lemma overrides_keep_keys_and_categories_witness :
  apply_opts (H := Demo.lib) ["limits.procs=12"; "trace=TRUE"] Demo.sample_conf =
    Ok (replace_at "trace" [] (VBool true)
          (replace_at "limits" ["procs"] (VInt 12) Demo.sample_conf)) /\
  same_category
    (lookup_keys ["limits"; "procs"] Demo.sample_conf)
    (lookup_keys ["limits"; "procs"]
       (replace_at "trace" [] (VBool true)
          (replace_at "limits" ["procs"] (VInt 12) Demo.sample_conf))).
Proof.
  split; [exact sample_two_overrides|].
  exact (overrides_keep_keys_and_categories (H := Demo.lib) _ _ _
           ["limits"; "procs"] sample_two_overrides).
Defined.

Lemma sample_one_override :
  apply_opt (H := Demo.lib) "limits.procs=12" Demo.sample_conf =
    Ok (replace_at "limits" ["procs"] (VInt 12) Demo.sample_conf).
Proof. vm_compute. reflexivity. Qed.

Lemma sample_not_prefix : ~ ["registry"] `prefix_of` keys_of "limits.procs".
Proof. intros [ext Hext]. discriminate Hext. Qed.

Lemma override_leaves_other_paths_witness :
  apply_opt (H := Demo.lib) "limits.procs=12" Demo.sample_conf =
    Ok (replace_at "limits" ["procs"] (VInt 12) Demo.sample_conf) /\
  Split "limits.procs=12" "=" = ["limits.procs"; "12"] /\
  ~ ["registry"] `prefix_of` keys_of "limits.procs" /\
  lookup_keys ["registry"]
    (replace_at "limits" ["procs"] (VInt 12) Demo.sample_conf) =
  lookup_keys ["registry"] Demo.sample_conf.
Proof.
  split; [exact sample_one_override|]. split; [reflexivity|].
  split; [exact sample_not_prefix|].
  exact (override_leaves_other_paths (H := Demo.lib) "limits.procs=12"
           Demo.sample_conf _ "limits.procs" "12" ["registry"]
           sample_one_override eq_refl sample_not_prefix).
Defined.

Lemma override_is_read_back_witness :
  apply_opt (H := Demo.lib) "limits.procs=12" Demo.sample_conf =
    Ok (replace_at "limits" ["procs"] (VInt 12) Demo.sample_conf) /\
  Split "limits.procs=12" "=" = ["limits.procs"; "12"] /\
  exists prev v,
    lookup_keys (keys_of "limits.procs") Demo.sample_conf = Some prev /\
    coerce (H := Demo.lib) (category_of prev) "12" = Some v /\
    lookup_keys (keys_of "limits.procs")
      (replace_at "limits" ["procs"] (VInt 12) Demo.sample_conf) = Some v.
Proof.
  split; [exact sample_one_override|]. split; [reflexivity|].
  exact (override_is_read_back (H := Demo.lib) "limits.procs=12"
           Demo.sample_conf _ "limits.procs" "12" sample_one_override eq_refl).
Defined.

Lemma number_overridden_twice_is_refused_witness :
  ["limits.procs=12"; "trace=true"; "limits.procs=13"] =
    [] ++ "limits.procs=12" :: ["trace=true"] ++ "limits.procs=13" :: [] /\
  Split "limits.procs=12" "=" = ["limits.procs"; "12"] /\
  Split "limits.procs=13" "=" = ["limits.procs"; "13"] /\
  lookup_keys (keys_of "limits.procs") Demo.sample_conf =
    Some (VFloat 0x4024000000000000) /\
  category_of (VFloat 0x4024000000000000) = CatNumber /\
  is_error (apply_opts (H := Demo.lib)
              ["limits.procs=12"; "trace=true"; "limits.procs=13"]
              Demo.sample_conf) = true.
Proof.
  repeat (split; [reflexivity|]).
  exact (number_overridden_twice_is_refused (H := Demo.lib)
           ["limits.procs=12"; "trace=true"; "limits.procs=13"] Demo.sample_conf
           [] ["trace=true"] [] "limits.procs=12" "limits.procs=13"
           "limits.procs" "12" "13" (VFloat 0x4024000000000000)
           eq_refl eq_refl eq_refl eq_refl eq_refl).
Defined.

Lemma sample_registry_override :
  apply_opt (H := Demo.lib) "registry=/a" Demo.sample_conf =
    Ok (replace_at "registry" [] (VString "/a") Demo.sample_conf).
Proof. vm_compute. reflexivity. Qed.

Lemma later_override_wins_witness :
  Split "registry=/a" "=" = ["registry"; "/a"] /\
  Split "registry=/b" "=" = ["registry"; "/b"] /\
  lookup_keys (keys_of "registry") Demo.sample_conf = Some (VString "/ol/registry") /\
  (category_of (VString "/ol/registry") = CatString \/
   category_of (VString "/ol/registry") = CatBool) /\
  apply_opt (H := Demo.lib) "registry=/a" Demo.sample_conf =
    Ok (replace_at "registry" [] (VString "/a") Demo.sample_conf) /\
  apply_opt (H := Demo.lib) "registry=/b"
    (replace_at "registry" [] (VString "/a") Demo.sample_conf) =
  apply_opt (H := Demo.lib) "registry=/b" Demo.sample_conf.
Proof.
  split; [reflexivity|]. split; [reflexivity|]. split; [reflexivity|].
  split; [left; reflexivity|]. split; [exact sample_registry_override|].
  exact (later_override_wins (H := Demo.lib) "registry=/a" "registry=/b"
           Demo.sample_conf _ "registry" "/a" "/b" (VString "/ol/registry")
           eq_refl eq_refl eq_refl (or_introl eq_refl) sample_registry_override).
Defined.

(** ** initOLDir *)

Section InitMore.
Context `{GoLib} {W : Type} (os : forall c : call, W -> answer c * W).

(** The end of a run of [initOLDir]: the steps made are the first steps of
    a run without failure, and the one failure, if any, is the last call
    and is what is returned. *)
Ltac init_end Hrun :=
  injection Hrun as <- <- <-;
  repeat apply conj;
  [ first [ match goal with
            | x : Config, x0 : Z |- _ => exists x, x0
            | x : Config |- _ => exists x, 0
            | _ => exists no_Config, 0
            end;
            split; [eexists; reflexivity | first [discriminate | reflexivity]] ]
  | reflexivity
  | first [ discriminate
          | intros ? [= <-]; eexists; split; reflexivity ] ].

Ltac init_err Hrun :=
  match type of Hrun with
  | context [os ?c ?w] =>
      let a := fresh "a" in let w' := fresh "w" in
      destruct (os c w) as [a w']; simpl in Hrun;
      destruct a as [?e|]; simpl in Hrun; [init_end Hrun|]
  end.

Ltac init_res Hrun :=
  match type of Hrun with
  | context [os ?c ?w] =>
      let a := fresh "a" in let w' := fresh "w" in
      destruct (os c w) as [a w']; simpl in Hrun;
      destruct a as [?x|?e]; simpl in Hrun; [|init_end Hrun]
  end.

Ltac init_ask Hrun :=
  match type of Hrun with
  | context [os ?c ?w] =>
      let a := fresh "a" in let w' := fresh "w" in
      destruct (os c w) as [a w']; simpl in Hrun
  end.

Lemma initOLDir_steps_run (olPath dockerBaseImage : string) (w : W) r w' tr :
  run os (initOLDir olPath dockerBaseImage) w = (r, w', tr) ->
  (exists Conf client,
     effects tr `prefix_of` init_steps olPath dockerBaseImage Conf client /\
     (r = None -> effects tr = init_steps olPath dockerBaseImage Conf client)) /\
  failures tr = option_list r /\
  (forall e, r = Some e -> exists ev, last tr = Some ev /\ failure ev = Some e).
Proof.
  intros Hrun. unfold initOLDir in Hrun. simpl in Hrun.
  init_ask Hrun. init_err Hrun. init_res Hrun. init_err Hrun. init_err Hrun.
  init_err Hrun. init_res Hrun. init_ask Hrun. init_err Hrun.
  init_err Hrun. init_err Hrun. init_err Hrun. init_err Hrun.
  init_err Hrun. init_err Hrun. init_err Hrun.
  do 5 init_ask Hrun. init_end Hrun.
Qed.

Ltac tied_end Hrun :=
  injection Hrun as <- <- <-;
  split; [eexists; reflexivity | first [discriminate | reflexivity]].

Ltac tied_err Hrun :=
  match type of Hrun with
  | context [os ?c ?w] =>
      let a := fresh "a" in let w' := fresh "w" in
      destruct (os c w) as [a w']; simpl in Hrun;
      destruct a as [?e|]; simpl in Hrun; [tied_end Hrun|]
  end.

Ltac tied_res Hrun :=
  match type of Hrun with
  | context [os ?c ?w] =>
      let a := fresh "a" in let w' := fresh "w" in
      destruct (os c w) as [a w']; simpl in Hrun;
      destruct a as [?x|?e]; simpl in Hrun; [|tied_end Hrun]
  end.

(** X8.  Every run of [initOLDir] makes the steps of a run without failure,
    in their order, as far as it gets: the directory of the environment,
    the defaults and the configuration file, the worker and registry
    directories of the configuration that [LoadDefaults] has set, the dump
    of the base image ([ol-wasm] when no image is named) by the client that
    [NewClientFromEnv] has given, into the base of that configuration, the
    three directories and the resolver file in it, the three device nodes.
    It makes them all when it returns nil, and no other call but to print:
    nothing is ever removed again. *)
Theorem initOLDir_makes_steps_in_order (olPath dockerBaseImage : string) (w : W) :
  effects (trace_of os (initOLDir olPath dockerBaseImage) w)
    `prefix_of`
    init_steps olPath dockerBaseImage
      (defaults_set (trace_of os (initOLDir olPath dockerBaseImage) w))
      (docker_client (trace_of os (initOLDir olPath dockerBaseImage) w)) /\
  (result_of os (initOLDir olPath dockerBaseImage) w = None ->
   effects (trace_of os (initOLDir olPath dockerBaseImage) w) =
     init_steps olPath dockerBaseImage
       (defaults_set (trace_of os (initOLDir olPath dockerBaseImage) w))
       (docker_client (trace_of os (initOLDir olPath dockerBaseImage) w))).
Proof.
  unfold result_of, trace_of.
  destruct (run os (initOLDir olPath dockerBaseImage) w) as [[r w'] tr] eqn:Hrun.
  simpl. unfold initOLDir in Hrun. simpl in Hrun.
  init_ask Hrun. tied_err Hrun. tied_res Hrun. tied_err Hrun. tied_err Hrun.
  tied_err Hrun. tied_res Hrun. init_ask Hrun. tied_err Hrun.
  tied_err Hrun. tied_err Hrun. tied_err Hrun. tied_err Hrun.
  tied_err Hrun. tied_err Hrun. tied_err Hrun.
  do 5 init_ask Hrun. tied_end Hrun.
Qed.

(** X9.  [initOLDir] stops at the first call that fails and returns its
    error: the errors of the calls of a run are none when it returns nil,
    and else the one error returned, which is the error of the last call
    made. *)
Theorem initOLDir_stops_at_first_failure (olPath dockerBaseImage : string) (w : W) :
  failures (trace_of os (initOLDir olPath dockerBaseImage) w) =
    option_list (result_of os (initOLDir olPath dockerBaseImage) w) /\
  (forall e,
     result_of os (initOLDir olPath dockerBaseImage) w = Some e ->
     exists ev,
       last (trace_of os (initOLDir olPath dockerBaseImage) w) = Some ev /\
       failure ev = Some e).
Proof.
  unfold result_of, trace_of.
  destruct (run os (initOLDir olPath dockerBaseImage) w) as [[r w'] tr] eqn:Hrun.
  exact (proj2 (initOLDir_steps_run _ _ _ _ _ _ Hrun)).
Qed.

End InitMore.

(** ** The two loops *)

Section LoopsMore.
Context `{GoLib} {W : Type} (os : forall c : call, W -> answer c * W).

Ltac ask :=
  match goal with
  | Hrun : context [os ?c ?w] |- _ =>
      let a := fresh "a" in let w' := fresh "w" in
      destruct (os c w) as [a w']; simpl in Hrun
  end.

Lemma total_sleep_app tr1 tr2 :
  total_sleep (tr1 ++ tr2) = total_sleep tr1 + total_sleep tr2.
Proof.
  induction tr1 as [|e tr1 IH]; simpl; [reflexivity|].
  unfold total_sleep in *. simpl. rewrite IH. lia.
Qed.

(** The shutdown loop: rounds that find the process alive, 300 at most, and
    then either the round that finds it gone or the timeout. *)
Lemma down_wait_rounds (pid : Z) (n : nat) :
  forall (w : W) r w' tr,
    run os (down_wait n pid) w = (r, w', tr) ->
    exists k : nat,
      (k <= n)%nat /\
      (((k < n)%nat /\ r = None /\
        exists err, tr = mjoin (replicate k (alive_round pid)) ++ gone_round pid err) \/
       (k = n /\ r = Some (Errorf "worker didn't stop after 30s") /\
        tr = mjoin (replicate k (alive_round pid)))).
Proof.
  induction n as [|n IH]; intros w r w' tr Hrun; simpl in Hrun.
  - injection Hrun as <- <- <-. exists 0%nat. split; [lia|]. right. auto.
  - ask. destruct a as [err|]; simpl in Hrun.
    + ask. injection Hrun as <- <- <-. units. exists 0%nat. split; [lia|].
      left. split; [lia|]. split; [reflexivity|]. now exists err.
    + ask.
      destruct (run os (down_wait n pid) w1) as [[r0 w2] tr0] eqn:Hrec.
      injection Hrun as <- <- <-. units.
      destruct (IH _ _ _ _ Hrec) as (k & Hk & [(Hlt & -> & err & ->)|(-> & -> & ->)]).
      * exists (S k). split; [lia|]. left. split; [lia|]. split; [reflexivity|].
        now exists err.
      * exists (S n). split; [lia|]. right. auto.
Qed.

(** The readiness loop: what it calls, how long it sleeps, and what has
    happened when it returns nil. *)
Lemma up_wait_facts (pid : Z) (port : string) (n : nat) :
  forall (w : W) (pingErr : option error) r w' tr,
    run os (up_wait n pid port pingErr) w = (r, w', tr) ->
    forallb wait_call (map ev_call tr) = true /\
    total_sleep tr <= 100 * Z.of_nat n /\
    (r = None ->
     exists pre resp rd,
       tr = pre ++ [Ev (HttpGet ("http://localhost:" +:+ port +:+ "/pid")) (Ok resp);
                    Ev (ReadAll resp) rd;
                    Ev (Printf ("ready" +:+ newline)) tt;
                    Ev (BodyClose resp) tt] /\
       Atoi (TrimSpace rd.1) = Ok pid).
Proof.
  induction n as [|n IH]; intros w pingErr r w' tr Hrun; simpl in Hrun.
  - injection Hrun as <- <- <-. repeat apply conj; [reflexivity|reflexivity|discriminate].
  - ask. destruct a as [[err|]|]; simpl in Hrun.
    1,2: injection Hrun as <- <- <-;
      repeat apply conj; [reflexivity|unfold total_sleep; simpl; lia|discriminate].
    ask. ask. destruct a0 as [response|err]; simpl in Hrun.
    + ask. destruct a0 as [body rerr]. simpl in Hrun.
      destruct (Atoi (TrimSpace body)) as [p|err] eqn:Hp; simpl in Hrun;
        [destruct (p =? pid) eqn:Hpid; simpl in Hrun|].
      all: repeat ask; injection Hrun as <- <- <-; units.
      all: repeat apply conj;
        [reflexivity|unfold total_sleep; simpl; lia|try discriminate].
      intros _. apply Z.eqb_eq in Hpid. subst p.
      exists [Ev RecvDied None; Ev (Signal pid 0) a], response, (body, rerr).
      split; [reflexivity|exact Hp].
    + ask.
      destruct (run os (up_wait n pid port (Some err)) w3) as [[r0 w4] tr0] eqn:Hrec.
      injection Hrun as <- <- <-. units.
      destruct (IH _ _ _ _ _ Hrec) as (Hcalls & Hsleep & Hnil).
      repeat apply conj.
      * simpl. exact Hcalls.
      * unfold total_sleep in *. simpl. unfold Millisecond. lia.
      * intros Hr. destruct (Hnil Hr) as (pre & resp & rd & -> & Hp).
        exists (Ev RecvDied None :: Ev (Signal pid 0) a ::
                Ev (HttpGet ("http://localhost:" +:+ port +:+ "/pid")) (Error err) ::
                Ev (Sleep (100 * Millisecond)) tt :: pre), resp, rd.
        split; [reflexivity|exact Hp].
Qed.

Lemma Ev_RecvDied_inv a a' : Ev RecvDied a = Ev RecvDied a' -> a = a'.
Proof. intros Heq. apply (f_equal died_answer) in Heq. now inversion Heq. Qed.

(** The worker reported dead ends the loop. *)
Lemma up_wait_died (pid : Z) (port : string) (n : nat) :
  forall (w : W) (pingErr : option error) r w' tr pre d post,
    run os (up_wait n pid port pingErr) w = (r, w', tr) ->
    tr = pre ++ Ev RecvDied (Some d) :: post ->
    post = [] /\
    r = Some (match d with
              | Some err => err
              | None =>
                  Errorf ("worker process " +:+ itoa pid +:+
                          " does not a appear to be running, check worker.out")
              end).
Proof.
  induction n as [|n IH]; intros w pingErr r w' tr pre d post Hrun Htr;
    simpl in Hrun.
  - injection Hrun as <- <- <-. destruct pre; discriminate.
  - ask. destruct a as [[err|]|]; simpl in Hrun.
    1,2: injection Hrun as <- <- <-;
      destruct pre as [|? [|? ?]]; unzip Htr; try discriminate;
      apply Ev_RecvDied_inv in He; injection He as <-; auto.
    ask. ask. destruct a0 as [response|err]; simpl in Hrun.
    + ask. destruct a0 as [body rerr]. simpl in Hrun.
      destruct (Atoi (TrimSpace body)) as [p|err] eqn:Hp; simpl in Hrun;
        [destruct (p =? pid) eqn:Hpid; simpl in Hrun|].
      all: repeat ask; injection Hrun as <- <- <-.
      all: destruct pre as [|? [|? [|? [|? [|? [|? ?]]]]]]; unzip Htr;
        try discriminate;
        try match type of Htr with [] = ?l ++ _ => destruct l; discriminate Htr end.
      all: apply Ev_RecvDied_inv in He; discriminate He.
    + ask.
      destruct (run os (up_wait n pid port (Some err)) w3) as [[r0 w4] tr0] eqn:Hrec.
      injection Hrun as <- <- <-.
      destruct pre as [|? [|? [|? [|? pre]]]]; unzip Htr; try discriminate.
      * apply Ev_RecvDied_inv in He. discriminate He.
      * eapply IH; [exact Hrec|exact Htr].
Qed.

(** X10.  A look at the [died] channel that finds the worker has exited ends
    the readiness loop at once, before any request is sent in that round:
    [up] returns the error the worker exited with, or, when it exited
    without one, the error that the process does not appear to be
    running. *)
Theorem up_wait_death_is_final
    (n : nat) (pid : Z) (port : string) (pingErr : option error) (w : W)
    (pre post : list event) (d : option error) :
  trace_of os (up_wait n pid port pingErr) w =
    pre ++ Ev RecvDied (Some d) :: post ->
  post = [] /\
  result_of os (up_wait n pid port pingErr) w =
    Some (match d with
          | Some err => err
          | None =>
              Errorf ("worker process " +:+ itoa pid +:+
                      " does not a appear to be running, check worker.out")
          end).
Proof.
  unfold trace_of, result_of. intros Htr.
  destruct (run os (up_wait n pid port pingErr) w) as [[r w'] tr] eqn:Hrun.
  simpl in *. eapply up_wait_died; eassumption.
Qed.

(** X11.  The shutdown loop probes the process with signal 0, sleeping 100ms
    after each probe that finds it alive, and stops at the first probe that
    fails: it then prints that the worker has stopped and returns nil.
    After 300 probes that found it alive it returns the timeout. *)
Theorem down_wait_stops_at_first_failed_probe (pid : Z) (w : W) :
  exists k : nat,
    (k <= 300)%nat /\
    (((k < 300)%nat /\
      result_of os (down_wait 300 pid) w = None /\
      exists err,
        trace_of os (down_wait 300 pid) w =
          mjoin (replicate k (alive_round pid)) ++ gone_round pid err) \/
     (k = 300%nat /\
      result_of os (down_wait 300 pid) w =
        Some (Errorf "worker didn't stop after 30s") /\
      trace_of os (down_wait 300 pid) w = mjoin (replicate k (alive_round pid)))).
Proof.
  unfold trace_of, result_of.
  destruct (run os (down_wait 300 pid) w) as [[r w'] tr] eqn:Hrun.
  exact (down_wait_rounds _ _ _ _ _ _ Hrun).
Qed.

End LoopsMore.

(** ** up *)

(** Where an event of a trace can be. *)
Ltac in_cases Hin :=
  repeat first
    [ apply in_app_or in Hin as [Hin|Hin]
    | destruct Hin as [Hin|Hin]
    | (simpl in Hin; match type of Hin with False => destruct Hin end) ].

Section InitCalls.
Context `{GoLib} {W : Type} (os : forall c : call, W -> answer c * W).

Lemma calls_in (P : call -> bool) (tr : list event) :
  forallb P (map ev_call tr) = true ->
  forall e, In e tr -> P (ev_call e) = true.
Proof.
  rewrite forallb_forall. intros HP e Hin. apply HP.
  change (In (ev_call e) (List.map ev_call tr)). now apply in_map.
Qed.

Lemma initOLDir_calls (olPath dockerBaseImage : string) (w : W) r w' tr :
  run os (initOLDir olPath dockerBaseImage) w = (r, w', tr) ->
  forallb init_call (map ev_call tr) = true.
Proof.
  intros Hrun. unfold initOLDir in Hrun. simpl in Hrun.
  repeat (match type of Hrun with
          | context [os ?c ?w] =>
              let a := fresh "a" in
              destruct (os c w) as [a ?w]; simpl in Hrun;
              try (destruct a; simpl in Hrun)
          end;
          try (injection Hrun as <- <- <-; reflexivity)).
Qed.

Lemma overrideOpts_file_calls (confPath overridePath optsStr : string)
    (w : W) r w' tr :
  run os (overrideOpts confPath overridePath optsStr) w = (r, w', tr) ->
  forallb file_call (map ev_call tr) = true.
Proof.
  intros Hrun.
  pose proof (overrideOpts_calls os w confPath overridePath optsStr) as Hc.
  unfold trace_of, result_of in Hc. rewrite Hrun in Hc. simpl in Hc.
  destruct Hc as [(e & _ & Ht)|(b & conf & conf' & s & _ & _ & _ & Ht)];
    rewrite Ht; reflexivity.
Qed.

End InitCalls.
Section UpMore.
Context `{GoLib} {W : Type} (os : forall c : call, W -> answer c * W).

Ltac ask :=
  match goal with
  | Hrun : context [os ?c ?w] |- _ =>
      let a := fresh "a" in let w' := fresh "w" in
      destruct (os c w) as [a w']; simpl in Hrun
  end.

Opaque initOLDir overrideOpts up_wait.

Lemma up_run (ctx : Context) (w : W) r w' tr :
  run os (up ctx) w = (r, w', tr) -> up_ends os ctx r tr.
Proof.
  intros Hrun. unfold up in Hrun. simpl in Hrun.
  ask. destruct a as [olPath|e]; simpl in Hrun.
  2: { injection Hrun as <- <- <-. constructor. }
  ask. rename a into st.
  rewrite run_bind in Hrun.
  match type of Hrun with context [run os ?p ?w] =>
    destruct (run os p w) as [[rd wd] trd] eqn:Hdir
  end.
  assert (Hd : match rd with
               | Some e =>
                   exists wi wi' tri,
                     IsNotExist st = true /\
                     run os (initOLDir olPath (flag_image ctx)) wi =
                       (Some e, wi', tri) /\
                     trd = Ev (Printf ("No OL directory found at " +:+ olPath +:+
                                       newline)) tt :: tri
               | None => dir_ready os olPath (flag_image ctx) st trd
               end).
  { destruct (IsNotExist st) eqn:Hst; simpl in Hdir.
    - destruct (os (Printf ("No OL directory found at " +:+ olPath +:+ newline)) w1)
        as [[] w2].
      destruct (run os (initOLDir olPath (flag_image ctx)) w2)
        as [[ri wi] tri] eqn:Hinit.
      injection Hdir as <- <- <-. destruct ri as [e|].
      + exists w2, wi, tri. auto.
      + eapply dir_made; eassumption.
    - destruct (os (Printf ("using existing OL directory at " +:+ olPath +:+
                            newline)) w1) as [[] w2].
      injection Hdir as <- <- <-. now apply dir_found. }
  clear Hdir. destruct rd as [e|]; simpl in Hrun.
  { injection Hrun as <- <- <-.
    destruct Hd as (wi & wi' & tri & Hst & Hinit & ->).
    rewrite app_nil_r. eapply init_failed; eassumption. }
  rewrite run_bind in Hrun.
  match type of Hrun with context [run os ?p ?w] =>
    destruct (run os p w) as [[rc wc] trc] eqn:Hconf
  end.
  assert (Hc : match rc with
               | Error e =>
                   flag_options ctx <> "" /\
                   exists wo wo',
                     run os (overrideOpts (filepath_Join [olPath; "config.json"])
                               (filepath_Join [olPath; "config.json"] +:+
                                ".overrides") (flag_options ctx)) wo =
                       (Some e, wo', trc)
               | Ok confPath => conf_ready os olPath (flag_options ctx) confPath trc
               end).
  { destruct (String.eqb (flag_options ctx) "") eqn:Hopts.
    - simpl in Hconf. injection Hconf as <- <- <-. apply conf_plain. now apply String.eqb_eq.
    - apply String.eqb_neq in Hopts. rewrite run_bind in Hconf.
      match type of Hconf with context [run os ?p ?w] =>
        destruct (run os p w) as [[ro wo] tro] eqn:Hov
      end.
      destruct ro as [e|]; simpl in Hconf; injection Hconf as <- <- <-;
        rewrite app_nil_r.
      + split; [assumption|]. eauto.
      + eapply conf_overridden; eassumption. }
  clear Hconf. destruct rc as [confPath|e]; simpl in Hrun.
  2: { injection Hrun as <- <- <-. destruct Hc as (Hopts & wo & wo' & Hov).
       rewrite app_nil_r. eapply override_failed; eassumption. }
  pose proof (setup_done os ctx olPath st trd confPath trc Hd Hc) as Hs.
  ask. destruct a as [Conf|e]; simpl in Hrun.
  2: { injection Hrun as <- <- <-.
       rewrite 2!app_comm_cons, app_assoc. now eapply not_loaded. }
  destruct (flag_detach ctx) eqn:Hdet; simpl in Hrun.
  - ask. destruct a as [f|e]; simpl in Hrun.
    2: { injection Hrun as <- <- <-.
         rewrite 2!app_comm_cons, app_assoc. now eapply no_log. }
    ask. rename a into args.
    ask. destruct a as [binPath|e]; simpl in Hrun.
    2: { injection Hrun as <- <- <-.
         rewrite 2!app_comm_cons, app_assoc. now eapply no_binary. }
    ask. ask. destruct a0 as [proc|e]; simpl in Hrun.
    2: { injection Hrun as <- <- <-. units.
         rewrite 2!app_comm_cons, app_assoc. now eapply not_started. }
    ask. ask.
    match type of Hrun with context [run os ?p ?w] =>
      destruct (run os p w) as [[rl wl] trl] eqn:Hloop
    end.
    injection Hrun as <- <- <-. units.
    rewrite 2!app_comm_cons, app_assoc.
    exact (started os ctx olPath confPath _ Conf f args binPath proc _ _ _ _
             Hs Hdet Hloop).
  - ask. destruct a as [e|]; simpl in Hrun; injection Hrun as <- <- <-.
    all: rewrite 2!app_comm_cons, app_assoc.
    + now apply (served os ctx olPath confPath _ Conf (Some e)).
    + now apply (served os ctx olPath confPath _ Conf None).
Qed.

Lemma setup_calls ctx olPath confPath head :
  setup os ctx olPath confPath head ->
  forall e, In e head -> setup_call (ev_call e) = true.
Proof.
  intros [st tr1 confPath' tr2 Hd Hc] e Hin.
  destruct Hin as [<-|[<-|Hin]]; [reflexivity|reflexivity|].
  apply in_app_or in Hin as [Hin|Hin].
  - destruct Hd as [wi wi' tri _ Hinit|_].
    + destruct Hin as [<-|Hin]; [reflexivity|].
      pose proof (calls_in _ _ (initOLDir_calls os _ _ _ _ _ _ Hinit) _ Hin) as Hi.
      now destruct (ev_call e).
    + destruct Hin as [<-|[]]. reflexivity.
  - destruct Hc as [_|wo wo' tro _ Hov]; [destruct Hin|].
    pose proof (calls_in _ _ (overrideOpts_file_calls os _ _ _ _ _ _ _ Hov) _ Hin) as Hf.
    now destruct (ev_call e).
Qed.

Lemma dir_ready_calls olPath image st tr1 :
  dir_ready os olPath image st tr1 ->
  forall e, In e tr1 -> init_call (ev_call e) = true.
Proof.
  intros [wi wi' tri _ Hinit|_] e Hin.
  - destruct Hin as [<-|Hin]; [reflexivity|].
    exact (calls_in _ _ (initOLDir_calls os _ _ _ _ _ _ Hinit) _ Hin).
  - destruct Hin as [<-|[]]. reflexivity.
Qed.

Lemma total_sleep_none (P : call -> bool) tr :
  (forall c, P c = true -> sleep_of c = 0) ->
  (forall e, In e tr -> P (ev_call e) = true) ->
  total_sleep tr = 0.
Proof.
  intros HP. induction tr as [|e tr IH]; intros Hall; [reflexivity|].
  unfold total_sleep in *. simpl.
  rewrite IH by (intros e' He'; apply Hall; now right).
  rewrite (HP (ev_call e)) by (apply Hall; now left). reflexivity.
Qed.

Lemma setup_call_no_sleep c : setup_call c = true -> sleep_of c = 0.
Proof. now destruct c. Qed.

Lemma file_call_no_sleep c : file_call c = true -> sleep_of c = 0.
Proof. now destruct c. Qed.

Lemma init_call_no_sleep c : init_call c = true -> sleep_of c = 0.
Proof. now destruct c. Qed.

(** X12.  [up] never sleeps more than 30 seconds in all: 300 rounds of
    100 ms at most. *)
Theorem up_sleeps_30s_at_most (ctx : Context) (w : W) :
  total_sleep (trace_of os (up ctx) w) <= 30000.
Proof.
  unfold trace_of.
  destruct (run os (up ctx) w) as [[r w'] tr] eqn:Hrun. simpl.
  destruct (up_run _ _ _ _ _ Hrun)
    as [e|olPath st wi wi' tri e Hst Hinit|olPath st tr1 wo wo' tro e Hd Hopts Hov
       |olPath confPath head e Hs|olPath confPath head Conf ans Hs Hdet
       |olPath confPath head Conf e Hs Hdet
       |olPath confPath head Conf f args e Hs Hdet
       |olPath confPath head Conf f args bin e Hs Hdet
       |olPath confPath head Conf f args bin proc wl rl wl' trl Hs Hdet Hloop].
  all: repeat match goal with
         | Hs : setup _ _ _ _ ?head |- _ =>
             rewrite total_sleep_app,
               (total_sleep_none _ head setup_call_no_sleep
                  (setup_calls _ _ _ _ Hs));
             clear Hs
         end.
  all: try (unfold total_sleep; simpl; lia).
  - unfold total_sleep. simpl. fold (total_sleep tri).
    rewrite (total_sleep_none _ tri init_call_no_sleep
               (calls_in _ _ (initOLDir_calls os _ _ _ _ _ _ Hinit))). lia.
  - unfold total_sleep. simpl. fold (total_sleep (tr1 ++ tro)).
    rewrite total_sleep_app.
    rewrite (total_sleep_none _ tr1 init_call_no_sleep (dir_ready_calls _ _ _ _ Hd)).
    rewrite (total_sleep_none _ tro file_call_no_sleep
               (calls_in _ _ (overrideOpts_file_calls os _ _ _ _ _ _ _ Hov))). lia.
  - rewrite total_sleep_app.
    destruct (up_wait_facts os _ _ _ _ _ _ _ _ Hloop) as (_ & Hsl & _).
    unfold total_sleep in *. simpl. lia.
Qed.


Ltac up_cases Hrun :=
  destruct (up_run _ _ _ _ _ Hrun)
    as [e|olPath st wi wi' tri e Hst Hinit|olPath st tr1 wo wo' tro e Hd Hopts Hov
       |olPath confPath head e Hs|olPath confPath head Conf ans Hs Hdet
       |olPath confPath head Conf e Hs Hdet
       |olPath confPath head Conf f args e Hs Hdet
       |olPath confPath head Conf f args bin e Hs Hdet
       |olPath confPath head Conf f args bin proc wl rl wl' trl Hs Hdet Hloop].

(** The event is not of the part of the trace it is said to be in. *)
Ltac not_there Hin :=
  match type of Hin with
  | Ev _ _ = Ev _ _ => apply (f_equal ev_call) in Hin; discriminate Hin
  | In _ ?head =>
      match goal with
      | Hs : setup _ _ _ _ head |- _ =>
          apply (setup_calls _ _ _ _ Hs) in Hin; discriminate Hin
      | Hd : dir_ready _ _ _ _ head |- _ =>
          apply (dir_ready_calls _ _ _ _ Hd) in Hin; discriminate Hin
      | Hinit : run os (initOLDir _ _) _ = (_, _, head) |- _ =>
          apply (calls_in _ _ (initOLDir_calls os _ _ _ _ _ _ Hinit)) in Hin;
          discriminate Hin
      | Hov : run os (overrideOpts _ _ _) _ = (_, _, head) |- _ =>
          apply (calls_in _ _ (overrideOpts_file_calls os _ _ _ _ _ _ _ Hov)) in Hin;
          discriminate Hin
      | Hloop : run os (up_wait _ _ _ _) _ = (_, _, head) |- _ =>
          apply (calls_in _ _ (proj1 (up_wait_facts os _ _ _ _ _ _ _ _ Hloop))) in Hin;
          discriminate Hin
      end
  end.

Lemma worker_args_no_detach args :
  ~ In "-d" (worker_args args) /\ ~ In "--detach" (worker_args args).
Proof.
  unfold worker_args. split; intros Hin; apply filter_In in Hin as [_ Hin];
    discriminate Hin.
Qed.

(** X13.  [up] starts a process only when it is asked to detach, and then as
    the program found for [os.Args[0]], with the arguments of [ol] itself
    but for every [-d] and [--detach], with no standard input and the log
    file [worker.out] of the OL directory as standard output and standard
    error, in a mount namespace of its own. *)
Theorem up_starts_worker_without_detach_flag
    (ctx : Context) (w : W) (binPath : string) (argv : list string)
    (files : list (option Z)) (flags : Z) (a : result Z) :
  In (Ev (StartProcess binPath argv files flags) a) (trace_of os (up ctx) w) ->
  flag_detach ctx = true /\
  (exists args,
     In (Ev Args args) (trace_of os (up ctx) w) /\
     In (Ev (LookPath args.1) (Ok binPath)) (trace_of os (up ctx) w) /\
     argv = worker_args args) /\
  ~ In "-d" argv /\ ~ In "--detach" argv /\
  (exists olPath f,
     In (Ev (GetOlPath ctx) (Ok olPath)) (trace_of os (up ctx) w) /\
     In (Ev (Create (filepath_Join [olPath; "worker.out"])) (Ok f))
        (trace_of os (up ctx) w) /\
     files = [None; Some f; Some f]) /\
  flags = CLONE_NEWNS.
Proof.
  unfold trace_of.
  destruct (run os (up ctx) w) as [[r w'] tr] eqn:Hrun. simpl.
  intros Hin. up_cases Hrun; in_cases Hin; try not_there Hin.
  all: apply (f_equal ev_call) in Hin; simpl in Hin;
    injection Hin as <- <- <- <-.
  all: destruct (worker_args_no_detach args) as [Hd1 Hd2].
  all: destruct Hs as [st tr1 confPath tr2 Hd Hc].
  all: repeat apply conj; try assumption; try reflexivity.
  all: try (exists args; repeat apply conj; [| |reflexivity];
            apply in_or_app; right; simpl; auto 10).
  all: exists olPath, f; repeat apply conj; [now left| |reflexivity];
    apply in_or_app; right; simpl; auto 10.
Qed.


(** X14.  [up] returns nil in one case only: it was asked to detach, it has
    started the worker, and the last request to [/pid], at the port of the
    configuration it has loaded, was answered with the PID of the process
    it has started.  It then prints [ready] and closes the body. *)
Theorem up_returns_nil_when_worker_answers (ctx : Context) (w : W) :
  result_of os (up ctx) w = None ->
  flag_detach ctx = true /\
  exists pre confPath Conf mid binPath argv files proc rounds resp rd,
    trace_of os (up ctx) w =
      pre ++ Ev (LoadConf confPath) (Ok Conf) ::
      mid ++ Ev (StartProcess binPath argv files CLONE_NEWNS) (Ok proc) ::
      rounds ++
      [Ev (HttpGet ("http://localhost:" +:+ Worker_port Conf +:+ "/pid")) (Ok resp);
       Ev (ReadAll resp) rd;
       Ev (Printf ("ready" +:+ newline)) tt;
       Ev (BodyClose resp) tt] /\
    Atoi (TrimSpace rd.1) = Ok proc.
Proof.
  unfold result_of, trace_of.
  destruct (run os (up ctx) w) as [[r w'] tr] eqn:Hrun. simpl.
  intros Hr. up_cases Hrun; try discriminate Hr.
  split; [assumption|]. subst rl.
  destruct (up_wait_facts os _ _ _ _ _ _ _ _ Hloop) as (_ & _ & Hnil).
  destruct (Hnil eq_refl) as (pre & resp & rd & -> & Hpid).
  exists head, confPath, Conf,
    [Ev (Create (filepath_Join [olPath; "worker.out"])) (Ok f);
     Ev Args args; Ev (LookPath args.1) (Ok bin);
     Ev (Printf ("starting process: binpath= " +:+ bin +:+ ", cmd=" +:+
                 fmt_strings (worker_args args) +:+ newline)) tt],
    bin, (worker_args args), [None; Some f; Some f], proc,
    (Ev (GoWait proc) tt ::
     Ev (Printf ("Starting worker: pid=" +:+ itoa proc +:+ ", port=" +:+
                 Worker_port Conf +:+ ", log=" +:+
                 filepath_Join [olPath; "worker.out"] +:+ newline)) tt :: pre),
    resp, rd.
  split; [reflexivity|exact Hpid].
Qed.

Lemma setup_call_no_process c : setup_call c = true -> process_call c = false.
Proof. now destruct c. Qed.

(** X15.  Without [detach], [up] creates no log file, starts no process,
    sends no signal and no request, and does not sleep. *)
Theorem up_foreground_starts_no_process (ctx : Context) (w : W) (ev : event) :
  flag_detach ctx = false ->
  In ev (trace_of os (up ctx) w) ->
  process_call (ev_call ev) = false.
Proof.
  unfold trace_of.
  destruct (run os (up ctx) w) as [[r w'] tr] eqn:Hrun. simpl.
  intros Hfg Hin. up_cases Hrun; try congruence; in_cases Hin; try now subst ev.
  all: try match type of Hin with
       | In _ ?head =>
           match goal with
           | Hs : setup _ _ _ _ head |- _ =>
               apply (setup_calls _ _ _ _ Hs) in Hin
           | Hd : dir_ready _ _ _ _ head |- _ =>
               apply (dir_ready_calls _ _ _ _ Hd) in Hin
           | Hinit : run os (initOLDir _ _) _ = (_, _, head) |- _ =>
               apply (calls_in _ _ (initOLDir_calls os _ _ _ _ _ _ Hinit)) in Hin
           | Hov : run os (overrideOpts _ _ _) _ = (_, _, head) |- _ =>
               apply (calls_in _ _ (overrideOpts_file_calls os _ _ _ _ _ _ _ Hov))
                 in Hin
           end
       end.
  all: now destruct (ev_call ev).
Qed.

(** X16.  When [server.Main] returns, [up] returns an error whatever it
    returned: its error, or, for nil, that this code should not be
    reachable.  [server.Main] is called only without [detach], and as the
    last call. *)
Theorem up_server_return_is_error
    (ctx : Context) (w : W) (pre post : list event) (a : option error) :
  trace_of os (up ctx) w = pre ++ Ev ServerMain a :: post ->
  flag_detach ctx = false /\ post = [] /\
  result_of os (up ctx) w =
    Some (match a with
          | Some e => e
          | None => Errorf "this code should not be reachable"
          end).
Proof.
  unfold result_of, trace_of.
  destruct (run os (up ctx) w) as [[r w'] tr] eqn:Hrun. simpl.
  intros Htr.
  assert (Hin : In (Ev ServerMain a) tr) by (rewrite Htr; apply in_elt).
  up_cases Hrun; in_cases Hin; try not_there Hin.
  apply (f_equal failure) in Hin. simpl in Hin. subst ans.
  split; [assumption|]. split; [|reflexivity].
  assert (Hpre : forall ev, In ev head -> ev_call ev <> ServerMain).
  { intros ev Hev Hc. apply (setup_calls _ _ _ _ Hs) in Hev.
    rewrite Hc in Hev. discriminate. }
  clear Hrun Hs. revert pre Htr. induction head as [|ev head IH]; intros pre Htr.
  - destruct pre as [|? [|? pre]]; unzip Htr.
    + now subst post.
    + destruct pre; discriminate Htr.
  - destruct pre as [|ev' pre]; simpl in Htr.
    + apply cons_eq_inv in Htr as [Hev _]. exfalso. apply (Hpre ev); [now left|].
      now rewrite Hev.
    + apply cons_eq_inv in Htr as [_ Htr].
      apply (IH (fun e0 H0 => Hpre e0 (or_intror H0)) pre Htr).
Qed.


Lemma conf_ready_inv olPath opts confPath tr2 :
  conf_ready os olPath opts confPath tr2 ->
  (opts = "" /\ confPath = filepath_Join [olPath; "config.json"] /\ tr2 = []) \/
  (opts <> "" /\
   confPath = filepath_Join [olPath; "config.json"] +:+ ".overrides" /\
   exists b s,
     tr2 = [Ev (ReadFile (filepath_Join [olPath; "config.json"])) (Ok b);
            Ev (WriteFile confPath s perm_0644) None]).
Proof.
  intros [Hopts|wo wo' tro Hopts Hov]; [now left|right].
  repeat apply conj; [assumption|reflexivity|].
  pose proof (overrideOpts_calls os wo (filepath_Join [olPath; "config.json"])
                (filepath_Join [olPath; "config.json"] +:+ ".overrides") opts) as Hc.
  unfold trace_of, result_of in Hc. rewrite Hov in Hc. simpl in Hc.
  destruct Hc as [(e & He & _)|(b & conf & conf' & s & _ & _ & _ & Ht)];
    [discriminate He|].
  now exists b, s.
Qed.

(** X17.  The configuration [up] loads is [config.json] of the OL directory
    when no options are given; with options it is [config.json.overrides],
    which has then been written in this run. *)
Theorem up_loads_overridden_configuration
    (ctx : Context) (w : W) (path : string) (a : result Config) :
  In (Ev (LoadConf path) a) (trace_of os (up ctx) w) ->
  exists olPath,
    In (Ev (GetOlPath ctx) (Ok olPath)) (trace_of os (up ctx) w) /\
    (flag_options ctx = "" -> path = filepath_Join [olPath; "config.json"]) /\
    (flag_options ctx <> "" ->
     path = filepath_Join [olPath; "config.json"] +:+ ".overrides" /\
     exists s, In (Ev (WriteFile path s perm_0644) None) (trace_of os (up ctx) w)).
Proof.
  unfold trace_of.
  destruct (run os (up ctx) w) as [[r w'] tr] eqn:Hrun. simpl.
  intros Hin. up_cases Hrun; in_cases Hin; try not_there Hin.
  all: apply (f_equal ev_call) in Hin; simpl in Hin; injection Hin as <-.
  all: destruct Hs as [st tr1 confPath tr2 Hd Hc].
  all: exists olPath; split; [now left|].
  all: apply conf_ready_inv in Hc
         as [(Hopts & -> & ->)|(Hopts & -> & b & s & ->)];
       (split; [intros Hno; try reflexivity; contradiction|]).
  all: intros Hyes; try contradiction.
  all: split; [reflexivity|]. all: exists s.
  all: right; right; apply in_or_app; left; apply in_or_app; right;
    simpl; auto.
Qed.

Lemma dir_found_calls olPath image st tr1 :
  dir_ready os olPath image st tr1 ->
  IsNotExist st = false ->
  forall ev, In ev tr1 -> init_only (ev_call ev) = false.
Proof.
  intros [wi wi' tri Hst _|_] Hno ev Hin; [congruence|].
  destruct Hin as [<-|[]]. reflexivity.
Qed.

(** X18.  [up] makes the OL directory only when [os.Stat] says that it does
    not exist.  When [os.Stat] succeeds, or fails otherwise, [up] goes on
    with what is there: it makes no directory, dumps no image, makes no
    device node and saves no configuration. *)
Theorem up_initialises_missing_directory_only
    (ctx : Context) (w : W) (p : string) (stat : option error) (ev : event) :
  In (Ev (Stat p) stat) (trace_of os (up ctx) w) ->
  IsNotExist stat = false ->
  In ev (trace_of os (up ctx) w) ->
  init_only (ev_call ev) = false.
Proof.
  unfold trace_of.
  destruct (run os (up ctx) w) as [[r w'] tr] eqn:Hrun. simpl.
  intros Hin Hno Hev.
  up_cases Hrun;
    try (destruct Hs as [st0 tr1 confPath' tr2 Hd Hc];
         apply conf_ready_inv in Hc
           as [(Hopts & -> & ->)|(Hopts & -> & b & s & ->)]).
  all: in_cases Hin; try not_there Hin.
  all: apply (f_equal failure) in Hin; simpl in Hin; subst.
  all: try congruence.
  all: in_cases Hev; try (subst ev; reflexivity).
  all: try (now apply (dir_found_calls _ _ _ _ Hd Hno)).
  - apply (calls_in _ _ (overrideOpts_file_calls os _ _ _ _ _ _ _ Hov)) in Hev.
    now destruct (ev_call ev).
  - apply (calls_in _ _ (proj1 (up_wait_facts os _ _ _ _ _ _ _ _ Hloop))) in Hev.
    now destruct (ev_call ev).
  - apply (calls_in _ _ (proj1 (up_wait_facts os _ _ _ _ _ _ _ _ Hloop))) in Hev.
    now destruct (ev_call ev).
Qed.

(** A run of [up] that gets past lines 233-243. *)
Lemma up_past_dir (ctx : Context) (w : W) r w' tr :
  run os (up ctx) w = (r, w', tr) ->
  (exists e, tr = [Ev (GetOlPath ctx) (Error e)]) \/
  (exists olPath st wi wi' tri e,
     IsNotExist st = true /\
     run os (initOLDir olPath (flag_image ctx)) wi = (Some e, wi', tri) /\
     r = Some e /\
     tr = Ev (GetOlPath ctx) (Ok olPath) :: Ev (Stat olPath) st ::
          Ev (Printf ("No OL directory found at " +:+ olPath +:+ newline)) tt ::
          tri) \/
  (exists olPath st tr1 rest,
     dir_ready os olPath (flag_image ctx) st tr1 /\
     tr = Ev (GetOlPath ctx) (Ok olPath) :: Ev (Stat olPath) st :: tr1 ++ rest /\
     forall ev, In ev rest -> is_stat (ev_call ev) = false).
Proof.
  intros Hrun.
  destruct (up_run _ _ _ _ _ Hrun)
    as [e|olPath st wi wi' tri e Hst Hinit|olPath st tr1 wo wo' tro e Hd Hopts Hov
       |olPath confPath head e Hs|olPath confPath head Conf ans Hs Hdet
       |olPath confPath head Conf e Hs Hdet
       |olPath confPath head Conf f args e Hs Hdet
       |olPath confPath head Conf f args bin e Hs Hdet
       |olPath confPath head Conf f args bin proc wl rl wl' trl Hs Hdet Hloop].
  1: now left; exists e.
  1: now right; left; exists olPath, st, wi, wi', tri, e.
  1: { right; right. exists olPath, st, tr1, tro. repeat apply conj; auto.
       intros ev Hin.
       apply (calls_in _ _ (overrideOpts_file_calls os _ _ _ _ _ _ _ Hov)) in Hin.
       now destruct (ev_call ev). }
  all: right; right; destruct Hs as [st tr1 confPath' tr2 Hd Hc].
  all: exists olPath, st, tr1.
  all: match goal with
       | |- exists rest, _ /\ (_ :: _ :: _ ++ ?t2) ++ ?tail = _ /\ _ =>
           exists (t2 ++ tail)
       end.
  all: (split; [assumption|]);
       (split; [simpl; now rewrite <- app_assoc|]).
  all: intros ev Hin; apply in_app_or in Hin as [Hin|Hin];
    [ apply conf_ready_inv in Hc
        as [(_ & _ & ->)|(_ & _ & b & s & ->)];
      in_cases Hin; now subst ev
    | in_cases Hin; try now subst ev ].
  apply (calls_in _ _ (proj1 (up_wait_facts os _ _ _ _ _ _ _ _ Hloop))) in Hin.
  now destruct (ev_call ev).
Qed.

(** X19.  When [os.Stat] says that the OL directory does not exist, [up]
    first makes it, by the steps of [initOLDir] in their order.  It goes on
    only when all of them are made; when one fails, [up] returns its error
    and that call is its last. *)
Theorem up_makes_missing_directory_first
    (ctx : Context) (w : W) (p : string) (stat : option error) :
  In (Ev (Stat p) stat) (trace_of os (up ctx) w) ->
  IsNotExist stat = true ->
  exists Conf client,
    let steps := GetOlPath ctx :: Stat p ::
                 init_steps p (flag_image ctx) Conf client in
    (steps `prefix_of` effects (trace_of os (up ctx) w)) \/
    (effects (trace_of os (up ctx) w) `prefix_of` steps /\
     exists e ev,
       result_of os (up ctx) w = Some e /\
       last (trace_of os (up ctx) w) = Some ev /\ failure ev = Some e).
Proof.
  unfold result_of, trace_of.
  destruct (run os (up ctx) w) as [[r w'] tr] eqn:Hrun. simpl.
  intros Hin Hmiss.
  destruct (up_past_dir _ _ _ _ _ Hrun)
    as [(e & ->)|[(olPath & st & wi & wi' & tri & e & Hst & Hinit & -> & ->)
                 |(olPath & st & tr1 & rest & Hd & -> & Hrest)]].
  - in_cases Hin. apply (f_equal ev_call) in Hin. discriminate Hin.
  - destruct (initOLDir_steps_run os _ _ _ _ _ _ Hinit)
      as ((Conf & client & Hpre & _) & _ & Hlast).
    destruct (Hlast e eq_refl) as (ev & Hev & Hfail).
    assert (Hp : p = olPath).
    { in_cases Hin.
      - apply (f_equal ev_call) in Hin. discriminate Hin.
      - apply (f_equal ev_call) in Hin. simpl in Hin. now injection Hin.
      - apply (f_equal ev_call) in Hin. discriminate Hin.
      - apply (calls_in _ _ (initOLDir_calls os _ _ _ _ _ _ Hinit)) in Hin.
        discriminate Hin. }
    subst p. exists Conf, client. right. split.
    + change (effects (Ev (GetOlPath ctx) (Ok olPath) :: Ev (Stat olPath) st ::
                       Ev (Printf ("No OL directory found at " +:+ olPath +:+
                                   newline)) tt :: tri))
        with (GetOlPath ctx :: Stat olPath :: effects tri).
      now do 2 apply prefix_cons.
    + exists e, ev. repeat apply conj; [reflexivity| |assumption].
      destruct tri as [|t tri]; [discriminate Hev|].
      now rewrite 3!last_cons_cons.
  - assert (Hp : p = olPath /\ stat = st).
    { in_cases Hin.
      - apply (f_equal ev_call) in Hin. discriminate Hin.
      - split.
        + apply (f_equal ev_call) in Hin. simpl in Hin. now injection Hin.
        + apply (f_equal failure) in Hin. simpl in Hin. now subst.
      - apply (dir_ready_calls _ _ _ _ Hd) in Hin. discriminate Hin.
      - apply Hrest in Hin. discriminate Hin. }
    destruct Hp as [-> ->].
    destruct Hd as [wi wi' tri _ Hinit|Hfound]; [|congruence].
    destruct (initOLDir_steps_run os _ _ _ _ _ _ Hinit)
      as ((Conf & client & _ & Hall) & _).
    exists Conf, client. left. exists (effects rest).
    change (effects (Ev (GetOlPath ctx) (Ok olPath) :: Ev (Stat olPath) st ::
                     (Ev (Printf ("No OL directory found at " +:+ olPath +:+
                                  newline)) tt :: tri) ++ rest))
      with (GetOlPath ctx :: Stat olPath :: effects (tri ++ rest)).
    now rewrite effects_app, (Hall eq_refl).
Qed.

End UpMore.

Transparent initOLDir overrideOpts up_wait.

(** ** down *)

Section DownMore.
Context `{GoLib} {W : Type} (os : forall c : call, W -> answer c * W).

Ltac ask :=
  match goal with
  | Hrun : context [os ?c ?w] |- _ =>
      let a := fresh "a" in let w' := fresh "w" in
      destruct (os c w) as [a w']; simpl in Hrun
  end.

Lemma down_wait_facts (pid : Z) (n : nat) :
  forall (w : W) r w' tr,
    run os (down_wait n pid) w = (r, w', tr) ->
    forallb (poll_call pid) (map ev_call tr) = true /\
    total_sleep tr <= 100 * Z.of_nat n /\
    (forall p e, In (Ev (Signal p 0) (Some e)) tr -> r = None).
Proof.
  induction n as [|n IH]; intros w r w' tr Hrun; simpl in Hrun.
  - injection Hrun as <- <- <-. repeat apply conj; [reflexivity|reflexivity|].
    intros p e [].
  - ask. destruct a as [err|]; simpl in Hrun.
    + ask. injection Hrun as <- <- <-. simpl. rewrite Z.eqb_refl.
      repeat apply conj; [reflexivity|unfold total_sleep; simpl; lia|reflexivity].
    + ask.
      destruct (run os (down_wait n pid) w1) as [[r0 w2] tr0] eqn:Hrec.
      injection Hrun as <- <- <-.
      destruct (IH _ _ _ _ Hrec) as (Hcalls & Hsleep & Hnil).
      simpl. rewrite Z.eqb_refl. repeat apply conj.
      * exact Hcalls.
      * unfold total_sleep in *. simpl. unfold Millisecond. lia.
      * intros p e [Hin|[Hin|Hin]].
        -- apply (f_equal failure) in Hin. discriminate Hin.
        -- apply (f_equal ev_call) in Hin. discriminate Hin.
        -- eapply Hnil, Hin.
Qed.

Opaque down_wait.

Lemma down_run (ctx : Context) (w : W) r w' tr :
  run os (down ctx) w = (r, w', tr) -> down_ends os ctx r tr.
Proof.
  intros Hrun. unfold down in Hrun. simpl in Hrun.
  ask. destruct a as [olPath|e]; simpl in Hrun;
    [|injection Hrun as <- <- <-; constructor].
  ask. destruct a as [Conf|e]; simpl in Hrun;
    [|injection Hrun as <- <- <-; constructor].
  ask. destruct a as [data|e]; simpl in Hrun;
    [|injection Hrun as <- <- <-; constructor].
  destruct (Atoi data) as [pid|e] eqn:Hpid; simpl in Hrun;
    [|injection Hrun as <- <- <-; now apply down_bad_pid].
  ask. ask. destruct a0 as [e|]; simpl in Hrun.
  { do 2 ask. injection Hrun as <- <- <-. units.
    now apply (down_not_found os ctx olPath Conf data pid e). }
  ask. destruct a0 as [e|]; simpl in Hrun; [do 2 ask|].
  all: rewrite run_bind in Hrun.
  all: match type of Hrun with context [run os (down_wait 300 ?p) ?w6] =>
         destruct (run os (down_wait 300 p) w6) as [[r0 wl] tr0] eqn:Hloop
       end.
  all: simpl in Hrun; injection Hrun as <- <- <-; units; rewrite app_nil_r.
  - exact (down_polled os ctx olPath Conf data pid (Some e) _ _ _ _ Hpid Hloop).
  - exact (down_polled os ctx olPath Conf data pid None _ _ _ _ Hpid Hloop).
Qed.


Ltac down_cases Hrun :=
  destruct (down_run _ _ _ _ _ Hrun)
    as [e|olPath e|olPath Conf e|olPath Conf data e Hpid
       |olPath Conf data pid0 e Hpid
       |olPath Conf data pid0 ans wl rl wl' trl Hpid Hloop].

Ltac not_polled Hin :=
  match type of Hin with
  | In _ ?trl =>
      match goal with
      | Hloop : run os (down_wait _ _) _ = (_, _, trl) |- _ =>
          apply (calls_in _ _ (proj1 (down_wait_facts _ _ _ _ _ _ Hloop))) in Hin
      end
  end.

(** X20.  The PID file must hold a decimal number and nothing else: [down]
    does not trim it, so a file that ends in a newline is refused.  [down]
    then returns the error of [strconv.Atoi] and has looked for no process
    and sent no signal. *)
Theorem down_bad_pid_file_is_error
    (ctx : Context) (w : W) (path text : string) (err : error) (ev : event) :
  In (Ev (ReadFile path) (Ok text)) (trace_of os (down ctx) w) ->
  Atoi text = Error err ->
  result_of os (down ctx) w = Return (Some err) /\
  (In ev (trace_of os (down ctx) w) -> process_call (ev_call ev) = false).
Proof.
  unfold result_of, trace_of.
  destruct (run os (down ctx) w) as [[r w'] tr] eqn:Hrun. simpl.
  intros Hin Herr. down_cases Hrun.
  5,6: try destruct ans.
  all: in_cases Hin;
    try (apply (f_equal ev_call) in Hin; discriminate Hin);
    try (not_polled Hin; discriminate Hin).
  all: apply (f_equal file_answer) in Hin; simpl in Hin;
    try discriminate Hin; injection Hin as ->; try congruence.
  replace e with err by congruence.
  split; [reflexivity|].
  intros Hev. in_cases Hev; now subst ev.
Qed.

(** X21.  Every signal [down] sends goes to the process whose PID is the
    text of [worker.pid], in the worker directory of the configuration
    loaded from [config.json]; it is the interrupt or the probe. *)
Theorem down_signals_pid_of_file
    (ctx : Context) (w : W) (pid sig : Z) (a : option error) :
  In (Ev (Signal pid sig) a) (trace_of os (down ctx) w) ->
  (exists olPath Conf data,
     In (Ev (LoadConf (filepath_Join [olPath; "config.json"])) (Ok Conf))
        (trace_of os (down ctx) w) /\
     In (Ev (ReadFile (filepath_Join [Worker_dir Conf; "worker.pid"])) (Ok data))
        (trace_of os (down ctx) w) /\
     Atoi data = Ok pid) /\
  (sig = SIGINT \/ sig = 0).
Proof.
  unfold trace_of.
  destruct (run os (down ctx) w) as [[r w'] tr] eqn:Hrun. simpl.
  intros Hin. down_cases Hrun.
  5,6: try destruct ans.
  all: in_cases Hin;
    try (apply (f_equal ev_call) in Hin; discriminate Hin).
  all: try (apply (f_equal ev_call) in Hin; simpl in Hin; injection Hin as <- <-).
  all: try (not_polled Hin; simpl in Hin;
            apply andb_prop in Hin as [Hp Hs];
            apply Z.eqb_eq in Hp, Hs; subst pid sig).
  all: (split; [|auto]).
  all: exists olPath, Conf, data; repeat apply conj; [| |assumption];
    simpl; auto.
Qed.

(** X22.  A probe that fails counts as the worker having stopped, whatever
    the error and whether or not the interrupt could be sent: [down] then
    returns nil. *)
Theorem down_failed_probe_counts_as_stopped
    (ctx : Context) (w : W) (pid : Z) (err : error) :
  In (Ev (Signal pid 0) (Some err)) (trace_of os (down ctx) w) ->
  result_of os (down ctx) w = Return None.
Proof.
  unfold result_of, trace_of.
  destruct (run os (down ctx) w) as [[r w'] tr] eqn:Hrun. simpl.
  intros Hin. down_cases Hrun.
  5,6: try destruct ans.
  all: in_cases Hin;
    try (apply (f_equal ev_call) in Hin; discriminate Hin).
  all: destruct (down_wait_facts _ _ _ _ _ _ Hloop) as (_ & _ & Hnil).
  all: now rewrite (Hnil _ _ Hin).
Qed.

(** X23.  [down] never sleeps more than 30 seconds in all. *)
Theorem down_sleeps_30s_at_most (ctx : Context) (w : W) :
  total_sleep (trace_of os (down ctx) w) <= 30000.
Proof.
  unfold trace_of.
  destruct (run os (down ctx) w) as [[r w'] tr] eqn:Hrun. simpl.
  down_cases Hrun; try (unfold total_sleep; simpl; lia).
  destruct (down_wait_facts _ _ _ _ _ _ Hloop) as (_ & Hsleep & _).
  rewrite !total_sleep_app.
  replace (total_sleep (kill_report pid0 ans)) with 0 by now destruct ans.
  unfold total_sleep in *. simpl. lia.
Qed.

(** X24.  [down] sends the interrupt once at most, and before every probe;
    it makes no more than 300 probes. *)
Theorem down_interrupts_once_then_probes (ctx : Context) (w : W) :
  List.filter is_signal (map ev_call (trace_of os (down ctx) w)) = [] \/
  exists (pid : Z) (k : nat),
    (k <= 300)%nat /\
    List.filter is_signal (map ev_call (trace_of os (down ctx) w)) =
      Signal pid SIGINT :: replicate k (Signal pid 0).
Proof.
  unfold trace_of.
  destruct (run os (down ctx) w) as [[r w'] tr] eqn:Hrun. simpl.
  down_cases Hrun; try (now left).
  right. exists pid0.
  assert (Hsig : forall k,
            List.filter is_signal
              (map ev_call (mjoin (replicate k (alive_round pid0)))) =
            replicate k (Signal pid0 0)).
  { induction k as [|k IH]; [reflexivity|]. simpl. now rewrite IH. }
  assert (Hfilter : forall l1 l2 : list call,
            List.filter is_signal (l1 ++ l2) =
            List.filter is_signal l1 ++ List.filter is_signal l2)
    by (intros; apply List.filter_app).
  destruct (down_wait_rounds os _ _ _ _ _ _ Hloop)
    as (k & Hk & [(Hlt & -> & err & ->)|(-> & -> & ->)]).
  - exists (S k). split; [lia|].
    rewrite !map_app, !Hfilter, Hsig.
    replace (List.filter is_signal (map ev_call (kill_report pid0 ans)))
      with (@nil call) by now destruct ans.
    simpl. f_equal. change (Signal pid0 0 :: replicate k (Signal pid0 0))
      with (replicate (S k) (Signal pid0 0)).
    rewrite replicate_S_end. reflexivity.
  - exists 300%nat. split; [lia|].
    rewrite !map_app, !Hfilter, Hsig.
    replace (List.filter is_signal (map ev_call (kill_report pid0 ans)))
      with (@nil call) by now destruct ans.
    reflexivity.
Qed.

Transparent down_wait.

End DownMore.

(** ** newOL, status and the one error of cleanup *)

Section OthersMore.
Context `{GoLib} {W : Type} (os : forall c : call, W -> answer c * W).

Ltac ask :=
  match goal with
  | Hrun : context [os ?c ?w] |- _ =>
      let a := fresh "a" in let w' := fresh "w" in
      destruct (os c w) as [a w']; simpl in Hrun
  end.

Opaque initOLDir.

(** X25.  [newOL] does not look whether the directory is there: after the
    path it makes the steps of [initOLDir], in their order, as far as it
    gets.  It returns the error of the first call that fails, and nil
    when none does. *)
Theorem newOL_makes_steps_in_order (ctx : Context) (w : W) :
  failures (trace_of os (newOL ctx) w) = option_list (result_of os (newOL ctx) w) /\
  exists olPath Conf client,
    effects (trace_of os (newOL ctx) w) `prefix_of`
      GetOlPath ctx :: init_steps olPath (flag_image ctx) Conf client.
Proof.
  unfold result_of, trace_of, newOL. simpl.
  destruct (os (GetOlPath ctx) w) as [[olPath|e] w1]; simpl.
  - destruct (run os (initOLDir olPath (flag_image ctx)) w1)
      as [[r w'] tr] eqn:Hrun. simpl.
    destruct (initOLDir_steps_run os _ _ _ _ _ _ Hrun)
      as ((Conf & client & Hpre & _) & Hfail & _).
    split; [exact Hfail|].
    exists olPath, Conf, client.
    change (effects (Ev (GetOlPath ctx) (Ok olPath) :: tr))
      with (GetOlPath ctx :: effects tr).
    now apply prefix_cons.
  - split; [reflexivity|].
    exists "", no_Config, 0. apply prefix_cons, prefix_nil.
Qed.

Transparent initOLDir.

Section Status.
Context (response_Status : Z -> string).

(** The runs of [status]. *)
Lemma status_run (ctx : Context) (w : W) r w' tr :
  run os (status response_Status ctx) w = (r, w', tr) ->
  (exists e, r = Some e /\ tr = [Ev (GetOlPath ctx) (Error e)]) \/
  exists olPath,
    let ping := [Ev (GetOlPath ctx) (Ok olPath);
                 Ev (Printf ("Worker Ping:" +:+ newline)) tt] in
    let confPath := filepath_Join [olPath; "config.json"] in
    (exists e, r = Some e /\ tr = ping ++ [Ev (LoadConf confPath) (Error e)]) \/
    exists Conf,
      let url := "http://localhost:" +:+ Worker_port Conf +:+ "/status" in
      let asked := ping ++ [Ev (LoadConf confPath) (Ok Conf)] in
      (exists e,
         r = Some (Errorf ("could not send GET to " +:+ url)) /\
         tr = asked ++ [Ev (HttpGet url) (Error e)]) \/
      exists response body,
        (exists e,
           r = Some (Errorf ("failed to read body from GET to " +:+ url)) /\
           tr = asked ++ [Ev (HttpGet url) (Ok response);
                          Ev (ReadAll response) (body, Some e);
                          Ev (BodyClose response) tt]) \/
        (r = None /\
         tr = asked ++ [Ev (HttpGet url) (Ok response);
                        Ev (ReadAll response) (body, None);
                        Ev (Printf ("  " +:+ url +:+ " => " +:+ body +:+ " [" +:+
                                    response_Status response +:+ "]" +:+ newline))
                           tt;
                        Ev (Printf newline) tt;
                        Ev (BodyClose response) tt]).
Proof.
  intros Hrun. unfold status in Hrun. simpl in Hrun.
  ask. destruct a as [olPath|e]; simpl in Hrun;
    [|injection Hrun as <- <- <-; left; eauto].
  right. exists olPath. simpl.
  ask. ask. destruct a0 as [Conf|e]; simpl in Hrun;
    [|injection Hrun as <- <- <-; units; left; eauto].
  right. exists Conf.
  ask. destruct a0 as [response|e]; simpl in Hrun;
    [|injection Hrun as <- <- <-; units; left; eauto].
  right. exists response.
  ask. destruct a0 as [body [e|]]; simpl in Hrun; exists body.
  - ask. injection Hrun as <- <- <-; units. left; eauto.
  - do 3 ask. injection Hrun as <- <- <-; units. right; eauto.
Qed.

Ltac status_cases Hrun :=
  destruct (status_run _ _ _ _ _ Hrun)
    as [(e & -> & ->)|(olPath & [(e & -> & ->)|(Conf & [(e & -> & ->)|
         (response & body & [(e & -> & ->)|(-> & ->)])])])].

(** X26.  When the request cannot be sent, [status] returns an error that
    names the URL and not the cause, and there is no body to close. *)
Theorem status_get_failure_drops_cause
    (ctx : Context) (w : W) (url : string) (err : error) (ev : event) :
  In (Ev (HttpGet url) (Error err)) (trace_of os (status response_Status ctx) w) ->
  result_of os (status response_Status ctx) w =
    Some (Errorf ("could not send GET to " +:+ url)) /\
  (In ev (trace_of os (status response_Status ctx) w) ->
   is_close (ev_call ev) = false).
Proof.
  unfold result_of, trace_of.
  destruct (run os (status response_Status ctx) w) as [[r w'] tr] eqn:Hrun. simpl.
  intros Hin. status_cases Hrun; in_cases Hin;
    try (apply (f_equal ev_call) in Hin; discriminate Hin);
    try (apply (f_equal http_answer) in Hin; discriminate Hin).
  apply (f_equal ev_call) in Hin. simpl in Hin. injection Hin as <-.
  split; [reflexivity|].
  intros Hev. in_cases Hev; now subst ev.
Qed.

(** X27.  When the request was answered, [status] closes the body of the
    answer once, as its last call, whether the body could be read or not. *)
Theorem status_closes_body_once
    (ctx : Context) (w : W) (url : string) (resp : Z) :
  In (Ev (HttpGet url) (Ok resp)) (trace_of os (status response_Status ctx) w) ->
  List.filter is_close (map ev_call (trace_of os (status response_Status ctx) w)) =
    [BodyClose resp] /\
  last (trace_of os (status response_Status ctx) w) = Some (Ev (BodyClose resp) tt).
Proof.
  unfold trace_of.
  destruct (run os (status response_Status ctx) w) as [[r w'] tr] eqn:Hrun. simpl.
  intros Hin. status_cases Hrun; in_cases Hin;
    try (apply (f_equal ev_call) in Hin; discriminate Hin);
    try (apply (f_equal http_answer) in Hin; discriminate Hin).
  all: apply (f_equal http_answer) in Hin; simpl in Hin; injection Hin as <-.
  all: split; reflexivity.
Qed.

(** X28.  [status] writes nothing and touches no process: it asks for the
    path, loads the configuration, sends one request at most, reads and
    closes its answer, and prints. *)
Theorem status_is_read_only (ctx : Context) (w : W) :
  forallb read_only (map ev_call (trace_of os (status response_Status ctx) w)) = true /\
  (length (List.filter (fun c => match c with HttpGet _ => true | _ => false end)
             (map ev_call (trace_of os (status response_Status ctx) w))) <= 1)%nat.
Proof.
  unfold trace_of.
  destruct (run os (status response_Status ctx) w) as [[r w'] tr] eqn:Hrun. simpl.
  status_cases Hrun; split; simpl; try reflexivity; lia.
Qed.

End Status.

(** X29.  Whether [status] returns nil does not depend on the status line
    of the answer: an answer that reports a failure of the worker is an
    answer. *)
Theorem status_ignores_status_line
    (ctx : Context) (w : W) (Status1 Status2 : Z -> string) :
  result_of os (status Status1 ctx) w = result_of os (status Status2 ctx) w.
Proof.
  unfold result_of, status. simpl.
  destruct (os (GetOlPath ctx) w) as [[olPath|e] w1]; simpl; [|reflexivity].
  destruct (os (Printf ("Worker Ping:" +:+ newline)) w1) as [[] w2]. simpl.
  destruct (os (LoadConf (filepath_Join [olPath; "config.json"])) w2)
    as [[Conf|e] w3]; simpl; [|reflexivity].
  destruct (os (HttpGet ("http://localhost:" +:+ Worker_port Conf +:+ "/status")) w3)
    as [[response|e] w4]; simpl; [|reflexivity].
  destruct (os (ReadAll response) w4) as [[body [e|]] w5]; simpl.
  - now destruct (os (BodyClose response) w5) as [[] w6].
  - repeat match goal with
           | |- context [os ?c ?w] => destruct (os c w) as [[] ?w]; simpl
           end.
    reflexivity.
Qed.

(** X30.  The one error [cleanup] ever returns is that of [GetOlPath], and
    it has then done nothing else. *)
Theorem cleanup_error_is_path_error (ctx : Context) (w : W) (err : error) :
  result_of os (cleanup ctx) w = Some err ->
  trace_of os (cleanup ctx) w = [Ev (GetOlPath ctx) (Error err)].
Proof.
  destruct (os (GetOlPath ctx) w) as [[olPath|e] w1] eqn:Hpath.
  - destruct (cleanup_run os ctx w olPath) as (w' & pre & cg & mid & mo & post & Hrun & _).
    { now rewrite Hpath. }
    unfold result_of. rewrite Hrun. discriminate.
  - unfold result_of, trace_of, cleanup. simpl. rewrite Hpath. simpl.
    now intros [= ->].
Qed.

End OthersMore.


(** ** The properties above, on the sample machines *)

Lemma up_wait_death_is_final_witness :
  trace_of Cases.os_died (up_wait (H := Demo.lib) 300 4242 "5000" None) Demo.start =
    [] ++ Ev RecvDied (Some None) :: [] /\
  result_of Cases.os_died (up_wait (H := Demo.lib) 300 4242 "5000" None) Demo.start =
    Some (Errorf "worker process 4242 does not a appear to be running, check worker.out").
Proof.
  assert (Htr : trace_of Cases.os_died (up_wait (H := Demo.lib) 300 4242 "5000" None)
                  Demo.start = [] ++ Ev RecvDied (Some None) :: [])
    by (vm_compute; reflexivity).
  split; [exact Htr|].
  exact (proj2 (up_wait_death_is_final (H := Demo.lib) Cases.os_died 300 4242 "5000"
                  None Demo.start [] [] None Htr)).
Defined.

Lemma up_started_on_start :
  In (Ev (StartProcess "ol" ["ol"; "worker"; "up"] [None; Some 3; Some 3] CLONE_NEWNS)
         (Ok 4242))
     (trace_of Demo.os (up (H := Demo.lib) Demo.ctx) Demo.start).
Proof. vm_compute. auto 20. Qed.

Lemma up_starts_worker_without_detach_flag_witness :
  In (Ev (StartProcess "ol" ["ol"; "worker"; "up"] [None; Some 3; Some 3] CLONE_NEWNS)
         (Ok 4242))
     (trace_of Demo.os (up (H := Demo.lib) Demo.ctx) Demo.start) /\
  ~ In "-d" ["ol"; "worker"; "up"] /\
  In (Ev Args ("ol", ["worker"; "up"; "-d"]))
     (trace_of Demo.os (up (H := Demo.lib) Demo.ctx) Demo.start).
Proof.
  split; [exact up_started_on_start|].
  split.
  - exact (proj1 (proj2 (proj2
             (up_starts_worker_without_detach_flag (H := Demo.lib) Demo.os Demo.ctx
                Demo.start _ _ _ _ _ up_started_on_start)))).
  - vm_compute. auto 20.
Defined.

Lemma up_returns_nil_when_worker_answers_witness :
  result_of Demo.os (up (H := Demo.lib) Demo.ctx) Demo.start = None /\
  flag_detach Demo.ctx = true.
Proof.
  assert (Hr : result_of Demo.os (up (H := Demo.lib) Demo.ctx) Demo.start = None)
    by (vm_compute; reflexivity).
  split; [exact Hr|].
  exact (proj1 (up_returns_nil_when_worker_answers (H := Demo.lib) Demo.os Demo.ctx
                  Demo.start Hr)).
Defined.

Lemma up_foreground_loads :
  In (Ev (LoadConf "/default-ol/config.json") (Ok (Demo.sample_Conf "/default-ol")))
     (trace_of Demo.os (up (H := Demo.lib) Cases.foreground) Demo.start).
Proof. vm_compute. auto 20. Qed.

Lemma up_foreground_starts_no_process_witness :
  flag_detach Cases.foreground = false /\
  In (Ev (LoadConf "/default-ol/config.json") (Ok (Demo.sample_Conf "/default-ol")))
     (trace_of Demo.os (up (H := Demo.lib) Cases.foreground) Demo.start) /\
  process_call (LoadConf "/default-ol/config.json") = false.
Proof.
  split; [reflexivity|]. split; [exact up_foreground_loads|].
  exact (up_foreground_starts_no_process (H := Demo.lib) Demo.os Cases.foreground
           Demo.start _ eq_refl up_foreground_loads).
Defined.

Lemma up_server_return_is_error_witness :
  trace_of Demo.os (up (H := Demo.lib) Cases.foreground) Demo.start =
    [Ev (GetOlPath Cases.foreground) (Ok "/default-ol");
     Ev (Stat "/default-ol") None;
     Ev (Printf ("using existing OL directory at /default-ol" +:+ newline)) tt;
     Ev (LoadConf "/default-ol/config.json") (Ok (Demo.sample_Conf "/default-ol"))] ++
    Ev ServerMain None :: [] /\
  result_of Demo.os (up (H := Demo.lib) Cases.foreground) Demo.start =
    Some (Errorf "this code should not be reachable").
Proof.
  assert (Htr : trace_of Demo.os (up (H := Demo.lib) Cases.foreground) Demo.start =
    [Ev (GetOlPath Cases.foreground) (Ok "/default-ol");
     Ev (Stat "/default-ol") None;
     Ev (Printf ("using existing OL directory at /default-ol" +:+ newline)) tt;
     Ev (LoadConf "/default-ol/config.json") (Ok (Demo.sample_Conf "/default-ol"))] ++
    Ev ServerMain None :: []) by (vm_compute; reflexivity).
  split; [exact Htr|].
  exact (proj2 (proj2 (up_server_return_is_error (H := Demo.lib) Demo.os
                         Cases.foreground Demo.start _ _ None Htr))).
Defined.

Lemma up_traced_loads :
  In (Ev (LoadConf "/default-ol/config.json.overrides")
         (Ok (Demo.sample_Conf "/default-ol")))
     (trace_of Demo.os (up (H := Demo.lib) Cases.traced) Demo.start).
Proof. vm_compute. auto 20. Qed.

Lemma up_loads_overridden_configuration_witness :
  In (Ev (LoadConf "/default-ol/config.json.overrides")
         (Ok (Demo.sample_Conf "/default-ol")))
     (trace_of Demo.os (up (H := Demo.lib) Cases.traced) Demo.start) /\
  exists olPath,
    In (Ev (GetOlPath Cases.traced) (Ok olPath))
       (trace_of Demo.os (up (H := Demo.lib) Cases.traced) Demo.start) /\
    (flag_options Cases.traced = "" ->
     "/default-ol/config.json.overrides" =
       filepath_Join (GoLib := Demo.lib) [olPath; "config.json"]) /\
    (flag_options Cases.traced <> "" ->
     "/default-ol/config.json.overrides" =
       filepath_Join (GoLib := Demo.lib) [olPath; "config.json"] +:+ ".overrides" /\
     exists s,
       In (Ev (WriteFile "/default-ol/config.json.overrides" s perm_0644) None)
          (trace_of Demo.os (up (H := Demo.lib) Cases.traced) Demo.start)).
Proof.
  split; [exact up_traced_loads|].
  exact (up_loads_overridden_configuration (H := Demo.lib) Demo.os Cases.traced
           Demo.start _ _ up_traced_loads).
Defined.

Lemma up_hidden_stat :
  In (Ev (Stat "/default-ol") Demo.denied)
     (trace_of Demo.os (up (H := Demo.lib) Demo.ctx) Cases.hidden).
Proof. vm_compute. auto 20. Qed.

Lemma up_hidden_creates :
  In (Ev (Create "/default-ol/worker.out") (Ok 3))
     (trace_of Demo.os (up (H := Demo.lib) Demo.ctx) Cases.hidden).
Proof. vm_compute. auto 20. Qed.

Lemma up_initialises_missing_directory_only_witness :
  In (Ev (Stat "/default-ol") Demo.denied)
     (trace_of Demo.os (up (H := Demo.lib) Demo.ctx) Cases.hidden) /\
  IsNotExist (GoLib := Demo.lib) Demo.denied = false /\
  In (Ev (Create "/default-ol/worker.out") (Ok 3))
     (trace_of Demo.os (up (H := Demo.lib) Demo.ctx) Cases.hidden) /\
  init_only (Create "/default-ol/worker.out") = false.
Proof.
  split; [exact up_hidden_stat|]. split; [reflexivity|].
  split; [exact up_hidden_creates|].
  exact (up_initialises_missing_directory_only (H := Demo.lib) Demo.os Demo.ctx
           Cases.hidden _ _ _ up_hidden_stat eq_refl up_hidden_creates).
Defined.

Lemma down_pid_line_read :
  In (Ev (ReadFile "/default-ol/worker/worker.pid") (Ok ("4242" +:+ newline)))
     (trace_of Demo.os (down (H := Demo.lib) Demo.ctx) Cases.pid_line).
Proof. vm_compute. auto 20. Qed.

Lemma down_bad_pid_file_is_error_witness :
  In (Ev (ReadFile "/default-ol/worker/worker.pid") (Ok ("4242" +:+ newline)))
     (trace_of Demo.os (down (H := Demo.lib) Demo.ctx) Cases.pid_line) /\
  Atoi ("4242" +:+ newline) = Error (NumError "Atoi" ("4242" +:+ newline) ErrSyntax) /\
  result_of Demo.os (down (H := Demo.lib) Demo.ctx) Cases.pid_line =
    Return (Some (NumError "Atoi" ("4242" +:+ newline) ErrSyntax)).
Proof.
  split; [exact down_pid_line_read|]. split; [reflexivity|].
  exact (proj1 (down_bad_pid_file_is_error (H := Demo.lib) Demo.os Demo.ctx
                  Cases.pid_line _ _ _ (Ev DumpConfStr "") down_pid_line_read eq_refl)).
Defined.

Lemma down_start_interrupts :
  In (Ev (Signal 4242 SIGINT) None)
     (trace_of Demo.os (down (H := Demo.lib) Demo.ctx) Demo.obedient).
Proof. vm_compute. auto 20. Qed.

Lemma down_signals_pid_of_file_witness :
  In (Ev (Signal 4242 SIGINT) None)
     (trace_of Demo.os (down (H := Demo.lib) Demo.ctx) Demo.obedient) /\
  (SIGINT = SIGINT \/ SIGINT = 0).
Proof.
  split; [exact down_start_interrupts|].
  exact (proj2 (down_signals_pid_of_file (H := Demo.lib) Demo.os Demo.ctx
                  Demo.obedient _ _ _ down_start_interrupts)).
Defined.

Lemma down_foreign_probe :
  In (Ev (Signal 4242 0) Demo.denied)
     (trace_of Demo.os (down (H := Demo.lib) Demo.ctx) Cases.foreign).
Proof. vm_compute. auto 20. Qed.

Lemma down_failed_probe_counts_as_stopped_witness :
  In (Ev (Signal 4242 SIGINT) Demo.denied)
     (trace_of Demo.os (down (H := Demo.lib) Demo.ctx) Cases.foreign) /\
  In (Ev (Signal 4242 0) Demo.denied)
     (trace_of Demo.os (down (H := Demo.lib) Demo.ctx) Cases.foreign) /\
  result_of Demo.os (down (H := Demo.lib) Demo.ctx) Cases.foreign = Return None.
Proof.
  split; [vm_compute; auto 20|]. split; [exact down_foreign_probe|].
  exact (down_failed_probe_counts_as_stopped (H := Demo.lib) Demo.os Demo.ctx
           Cases.foreign 4242 (Errorf "operation not permitted") down_foreign_probe).
Defined.

Lemma status_unreachable_get :
  In (Ev (HttpGet "http://localhost:5000/status") (Error (Errorf "connection refused")))
     (trace_of Demo.os (status (H := Demo.lib) Cases.response_Status Demo.ctx)
        Demo.unreachable).
Proof. vm_compute. auto 20. Qed.

Lemma status_get_failure_drops_cause_witness :
  In (Ev (HttpGet "http://localhost:5000/status") (Error (Errorf "connection refused")))
     (trace_of Demo.os (status (H := Demo.lib) Cases.response_Status Demo.ctx)
        Demo.unreachable) /\
  result_of Demo.os (status (H := Demo.lib) Cases.response_Status Demo.ctx)
    Demo.unreachable =
    Some (Errorf "could not send GET to http://localhost:5000/status").
Proof.
  split; [exact status_unreachable_get|].
  exact (proj1 (status_get_failure_drops_cause (H := Demo.lib) Demo.os
                  Cases.response_Status Demo.ctx Demo.unreachable _ _
                  (Ev DumpConfStr "") status_unreachable_get)).
Defined.

Lemma status_cut_get :
  In (Ev (HttpGet "http://localhost:5000/status") (Ok 7))
     (trace_of Cases.os_cut (status (H := Demo.lib) Cases.response_Status Demo.ctx)
        Demo.start).
Proof. vm_compute. auto 20. Qed.

Lemma status_closes_body_once_witness :
  In (Ev (HttpGet "http://localhost:5000/status") (Ok 7))
     (trace_of Cases.os_cut (status (H := Demo.lib) Cases.response_Status Demo.ctx)
        Demo.start) /\
  result_of Cases.os_cut (status (H := Demo.lib) Cases.response_Status Demo.ctx)
    Demo.start =
    Some (Errorf "failed to read body from GET to http://localhost:5000/status") /\
  last (trace_of Cases.os_cut (status (H := Demo.lib) Cases.response_Status Demo.ctx)
          Demo.start) = Some (Ev (BodyClose 7) tt).
Proof.
  split; [exact status_cut_get|]. split; [vm_compute; reflexivity|].
  exact (proj2 (status_closes_body_once (H := Demo.lib) Cases.os_cut
                  Cases.response_Status Demo.ctx Demo.start _ _ status_cut_get)).
Defined.

Lemma cleanup_error_is_path_error_witness :
  result_of Cases.os_no_path (cleanup (H := Demo.lib) Demo.ctx) Demo.crashed =
    Some (Errorf "getwd: no such file or directory") /\
  trace_of Cases.os_no_path (cleanup (H := Demo.lib) Demo.ctx) Demo.crashed =
    [Ev (GetOlPath Demo.ctx) (Error (Errorf "getwd: no such file or directory"))].
Proof.
  assert (Hr : result_of Cases.os_no_path (cleanup (H := Demo.lib) Demo.ctx)
                 Demo.crashed = Some (Errorf "getwd: no such file or directory"))
    by (vm_compute; reflexivity).
  split; [exact Hr|].
  exact (cleanup_error_is_path_error (H := Demo.lib) Cases.os_no_path Demo.ctx
           Demo.crashed _ Hr).
Defined.

Example status_answered :
  result_of Demo.os (status (H := Demo.lib) Cases.response_Status Demo.ctx)
    Demo.start = None /\
  map ev_call (trace_of Demo.os (status (H := Demo.lib) Cases.response_Status Demo.ctx)
                 Demo.start) =
    [GetOlPath Demo.ctx; Printf ("Worker Ping:" +:+ newline);
     LoadConf "/default-ol/config.json"; HttpGet "http://localhost:5000/status";
     ReadAll 7;
     Printf ("  http://localhost:5000/status => 4242" +:+ newline +:+ " [200 OK]" +:+
             newline);
     Printf newline; BodyClose 7].
Proof. split; vm_compute; reflexivity. Qed.

Lemma up_fresh_stat :
  In (Ev (Stat "/default-ol") (Some (Errorf "no such file or directory")))
     (trace_of Cases.os_fresh (up (H := Demo.lib) Demo.ctx) Demo.start).
Proof. vm_compute. auto 20. Qed.

Lemma up_makes_missing_directory_first_witness :
  In (Ev (Stat "/default-ol") (Some (Errorf "no such file or directory")))
     (trace_of Cases.os_fresh (up (H := Demo.lib) Demo.ctx) Demo.start) /\
  IsNotExist (GoLib := Demo.lib) (Some (Errorf "no such file or directory")) = true /\
  exists Conf client,
    let steps := GetOlPath Demo.ctx :: Stat "/default-ol" ::
                 init_steps (H := Demo.lib) "/default-ol" (flag_image Demo.ctx)
                   Conf client in
    (steps `prefix_of`
       effects (trace_of Cases.os_fresh (up (H := Demo.lib) Demo.ctx) Demo.start)) \/
    (effects (trace_of Cases.os_fresh (up (H := Demo.lib) Demo.ctx) Demo.start)
       `prefix_of` steps /\
     exists e ev,
       result_of Cases.os_fresh (up (H := Demo.lib) Demo.ctx) Demo.start = Some e /\
       last (trace_of Cases.os_fresh (up (H := Demo.lib) Demo.ctx) Demo.start) =
         Some ev /\
       failure ev = Some e).
Proof.
  split; [exact up_fresh_stat|]. split; [reflexivity|].
  exact (up_makes_missing_directory_first (H := Demo.lib) Cases.os_fresh Demo.ctx
           Demo.start _ _ up_fresh_stat eq_refl).
Defined.

Example up_on_fresh_machine :
  result_of Cases.os_fresh (up (H := Demo.lib) Demo.ctx) Demo.start = None /\
  effects (trace_of Cases.os_fresh (up (H := Demo.lib) Demo.ctx) Demo.start) =
    GetOlPath Demo.ctx :: Stat "/default-ol" ::
    init_steps (H := Demo.lib) "/default-ol" "" (Demo.sample_Conf "/default-ol") 1 ++
    [LoadConf "/default-ol/config.json"; Create "/default-ol/worker.out";
     Args; LookPath "ol";
     StartProcess "ol" ["ol"; "worker"; "up"] [None; Some 3; Some 3] CLONE_NEWNS;
     GoWait 4242; RecvDied; Signal 4242 0;
     HttpGet "http://localhost:5000/pid"; ReadAll 7; BodyClose 7].
Proof. split; vm_compute; reflexivity. Qed.
